(** * Browser-automation abstraction layer: sessions, action policy, elements

    A shallow embedding of the TypeScript sources
    - [frameworks/common/utils.ts]            (safeRun, getActionOptionsFromConfig)
    - [types/interfaces/baseConfig.ts]         (defaultConfig, configOverrides)
    - [frameworks/playwright/playwright.browser.ts]
    - [frameworks/puppeteer/puppeteer.browser.ts]
    - [frameworks/playwright/playwright.element.ts]
    - [frameworks/puppeteer/puppeteer.elements.ts]

    Asynchronous methods are awaited one after the other by a single caller,
    so every method is a state transformer that either returns or throws. *)

From Stdlib Require Import List ZArith String Bool Lia DecimalString.
Import ListNotations.

#[local] Open Scope string_scope.
#[local] Open Scope Z_scope.

(* ===================================================================== *)
(** ** JavaScript values the sources rely on *)
(* ===================================================================== *)

Module JS.

(** A property of an object literal: the key may be missing, present with
    the value [undefined], or present with a value. *)
Inductive prop (A : Type) : Type :=
| Absent
| Undefined
| Value (a : A).
Arguments Absent {A}.
Arguments Undefined {A}.
Arguments Value {A} a.

(** [{...base, ...ovr}] on one key: a key present on the right wins,
    whatever its value. *)
Definition spread {A} (base ovr : prop A) : prop A :=
  match ovr with
  | Absent => base
  | _ => ovr
  end.

(** [o.key]: reading a missing key yields [undefined]. *)
Definition read {A} (p : prop A) : prop A :=
  match p with
  | Absent => Undefined
  | _ => p
  end.

(** [if (b)] on a boolean-or-undefined property. *)
Definition truthy (p : prop bool) : bool :=
  match p with
  | Value b => b
  | _ => false
  end.

(** [if (s)] on an optional string: [undefined] and [""] are falsy. *)
Definition truthy_string (s : option string) : bool :=
  match s with
  | Some "" => false
  | Some _ => true
  | None => false
  end.

(** [arr[i]] for an integer [i]: [undefined] outside [0 .. length-1]. *)
Definition get {A} (arr : list A) (i : Z) : option A :=
  if i <? 0 then None else nth_error arr (Z.to_nat i).

(** [arr.length] *)
Definition length {A} (arr : list A) : Z := Z.of_nat (List.length arr).

(** [arr.push(x)] *)
Definition push {A} (arr : list A) (x : A) : list A := arr ++ [x].

(** [arr.splice(start, 1)], the array after the call.  A negative [start]
    counts from the end; the number of deleted items is clamped to what
    is left after the start. *)
Definition splice1 {A} (arr : list A) (start : Z) : list A :=
  let len := length arr in
  let actualStart :=
    if start <? 0 then Z.max (len + start) 0 else Z.min start len in
  let deleteCount := Z.min (Z.max 1 0) (len - actualStart) in
  firstn (Z.to_nat actualStart) arr
    ++ skipn (Z.to_nat (actualStart + deleteCount)) arr.

(** [`${n}`] for an integer below 10^21 in magnitude, which JavaScript
    prints with all its digits.  (From 10^21 on it prints an exponent
    form; what is said about messages is said below that bound.) *)
Definition string_of_Z (n : Z) : string :=
  NilEmpty.string_of_int (Z.to_int n).

(** What a [throw] carries. *)
Inductive error : Type :=
| Error (message : string)       (* [new Error(message)] of this code base *)
| TypeError (message : string)   (* member access on [undefined]/[null], call of a non-function *)
| DriverError (message : string) (* failure reported by the automation engine *).

(** Outcome of an awaited call. *)
Inductive result (A : Type) : Type :=
| Ok (a : A)
| Throw (e : error).
Arguments Ok {A} a.
Arguments Throw {A} e.

End JS.
Import JS.

(* ===================================================================== *)
(** ** Configuration ([baseConfig.ts], [utils.ts]) *)
(* ===================================================================== *)

Module Config.

Record baseConfig : Type := {
  browser : prop string;
  headless : prop bool;
  actionTimeout : prop Z;
  logs : prop bool;
  throwOnFail : prop bool
}.

Definition defaultConfig : baseConfig := {|
  browser := Value "chromium";
  headless := Value true;
  actionTimeout := Value 5000;
  logs := Value true;
  throwOnFail := Value true
|}.

(** [configOverrides = () => ({...defaultConfig, ...config})].  The module
    [config] it imports is not part of the sources, so the user
    configuration is an argument. *)
Definition configOverrides (config : baseConfig) : baseConfig := {|
  browser := spread (browser defaultConfig) (browser config);
  headless := spread (headless defaultConfig) (headless config);
  actionTimeout := spread (actionTimeout defaultConfig) (actionTimeout config);
  logs := spread (logs defaultConfig) (logs config);
  throwOnFail := spread (throwOnFail defaultConfig) (throwOnFail config)
|}.

End Config.

(** Modelled from the spec: the [actionOptions] interface
    ([baseActionoptions.ts] is not among the sources): "per-call
    configuration overlay - timeout (ms), log (bool), throwOnFail (bool)",
    every key optional. *)
Record actionOptions : Type := {
  timeout : prop Z;
  log : prop bool;
  throwOnFail : prop bool
}.

Definition getActionOptionsFromConfig (config : Config.baseConfig) : actionOptions := {|
  timeout := read (Config.actionTimeout config);
  log := read (Config.logs config);
  throwOnFail := read (Config.throwOnFail config)
|}.

(** The optional parameter [options?: actionOptions] of the methods. *)
Definition callSiteOptions : Type := option actionOptions.

(** [interface safeRunOptions extends actionOptions { message: string }] *)
Record safeRunOptions : Type := {
  message : string;
  options :> actionOptions
}.

(** [{...a, ...b}] on two option objects. *)
Definition spreadOptions (a b : actionOptions) : actionOptions := {|
  timeout := spread (timeout a) (timeout b);
  log := spread (log a) (log b);
  throwOnFail := spread (throwOnFail a) (throwOnFail b)
|}.

(** The object literal every method hands to [safeRun]:
    [{ message: m, ...this.actionOptions, ...options }].  An omitted
    [options] argument is [undefined], whose spread adds no key. *)
Definition callOptions (m : string) (sessionOptions : actionOptions)
    (options : option actionOptions) : safeRunOptions :=
  {| message := m;
     options := match options with
                | Some o => spreadOptions sessionOptions o
                | None => sessionOptions
                end |}.

(* ===================================================================== *)
(** ** The driver boundary

    The automation engines are external.  What the sources ask of them is
    modelled by a small world: pages with a URL, a closed flag and a
    document, owned by one browsing context of one browser process. *)
(* ===================================================================== *)

Definition Page := nat.
Definition ElementHandle := nat.

Record node : Type := {
  nid : ElementHandle;
  tagName : string;
  innerText : string;
  innerHTML : string;
  disabled : bool
}.

Record PageState : Type := {
  pg_url : string;
  pg_closed : bool;
  pg_dom : list node   (* the nodes of the document, in document order *)
}.

(** Playwright locators are recipes: [page.locator(sel)], [l.nth(i)] and
    [l.locator(sel)] only record what to look for. *)
Inductive Locator : Type :=
| PageLocator (p : Page) (sel : string)
| NthLocator (l : Locator) (index : Z)
| SubLocator (l : Locator) (sel : string).

(** The launchers the sources call: [chromium.launch], [firefox.launch]
    and [webkit.launch] of Playwright, and [puppeteer.launch]. *)
Inductive launcher : Type := Chromium | Firefox | Webkit | Puppeteer.

(** The first seven fields are the engine's fixed behaviour and are never
    written: how [launch({headless, timeout})] of a launcher ends, how the
    creation of the first context and of its first page end, what a URL
    serves ([None]: the navigation fails), the URL a page reports once it
    has loaded a URL (its serialised form, or where a redirect led), which
    nodes a selector matches, and how many nodes a Playwright locator
    resolves to at the moment it is asked. *)
Record World : Type := {
  launch : launcher -> prop bool -> prop Z -> result unit;
  newContext : result unit;
  firstPage : result unit;
  site : string -> option (list node);
  landing : string -> string;
  matches : string -> node -> bool;
  locatorCount : Locator -> list PageState -> result nat;
  pages : list PageState;
  contextClosed : bool;
  browserClosed : bool
}.

Definition blankPage : PageState :=
  {| pg_url := "about:blank"; pg_closed := false; pg_dom := [] |}.

Definition closePage (p : PageState) : PageState :=
  {| pg_url := pg_url p; pg_closed := true; pg_dom := pg_dom p |}.

Definition loadPage (url : string) (dom : list node) (p : PageState) : PageState :=
  {| pg_url := url; pg_closed := pg_closed p; pg_dom := dom |}.

Fixpoint updateAt {A} (l : list A) (i : nat) (f : A -> A) : list A :=
  match l, i with
  | [], _ => []
  | x :: l', O => f x :: l'
  | x :: l', S i' => x :: updateAt l' i' f
  end.

Definition withPages (w : World) (ps : list PageState) (ctx br : bool) : World :=
  {| launch := launch w; newContext := newContext w; firstPage := firstPage w;
     site := site w; landing := landing w;
     matches := matches w; locatorCount := locatorCount w;
     pages := ps; contextClosed := ctx; browserClosed := br |}.

(** What [console.log] received. *)
Inductive entry : Type :=
| LogMessage (m : string)
| LogError (e : error).

(** The session object shared by both backends: the two classes declare
    the same fields. [browser] and [context] always denote the one
    process and context of the world. *)
Module Browser.
Record t : Type := {
  config : Config.baseConfig;
  actionOptions : actionOptions;
  tabs : list Page;
  currentTab : Z;
  page : option Page   (* [undefined] once read from an empty [tabs] *)
}.
End Browser.

Record State : Type := {
  session : Browser.t;
  world : World;
  console : list entry
}.

(* ===================================================================== *)
(** ** Awaited computations: state passing with exceptions *)
(* ===================================================================== *)

Definition M (A : Type) : Type := State -> result A * State.

Definition ret {A} (a : A) : M A := fun s => (Ok a, s).

Definition throw {A} (e : error) : M A := fun s => (Throw e, s).

Definition bind {A B} (c : M A) (k : A -> M B) : M B := fun s =>
  match c s with
  | (Ok a, s') => k a s'
  | (Throw e, s') => (Throw e, s')
  end.

Notation "x <- c ;; k" := (bind c (fun x => k))
  (at level 61, c at next level, right associativity).
Notation "c ;; k" := (bind c (fun _ => k))
  (at level 61, right associativity).

Definition this : M Browser.t := fun s => (Ok (session s), s).

Definition assign (f : Browser.t -> Browser.t) : M unit := fun s =>
  (Ok tt, {| session := f (session s); world := world s; console := console s |}).

Definition getWorld : M World := fun s => (Ok (world s), s).

Definition putWorld (w : World) : M unit := fun s =>
  (Ok tt, {| session := session s; world := w; console := console s |}).

Definition console_log (e : entry) (s : State) : State :=
  {| session := session s; world := world s; console := console s ++ [e] |}.

(** Field assignments [this.f = v]. *)
Definition set_tabs (v : list Page) (b : Browser.t) : Browser.t :=
  {| Browser.config := Browser.config b;
     Browser.actionOptions := Browser.actionOptions b;
     Browser.tabs := v;
     Browser.currentTab := Browser.currentTab b;
     Browser.page := Browser.page b |}.

Definition set_currentTab (v : Z) (b : Browser.t) : Browser.t :=
  {| Browser.config := Browser.config b;
     Browser.actionOptions := Browser.actionOptions b;
     Browser.tabs := Browser.tabs b;
     Browser.currentTab := v;
     Browser.page := Browser.page b |}.

Definition set_page (v : option Page) (b : Browser.t) : Browser.t :=
  {| Browser.config := Browser.config b;
     Browser.actionOptions := Browser.actionOptions b;
     Browser.tabs := Browser.tabs b;
     Browser.currentTab := Browser.currentTab b;
     Browser.page := v |}.

(** [x.member] where [x] may be [undefined]. *)
Definition deref {A} (x : option A) (member : string) : M A :=
  match x with
  | Some a => ret a
  | None => throw (TypeError
      ("Cannot read properties of undefined (reading '" ++ member ++ "')"))
  end.

(* ===================================================================== *)
(** ** ActionPolicy: [safeRun] ([utils.ts]) *)
(* ===================================================================== *)

(** [results] stays [undefined] when the callback throws and the error is
    swallowed: the call then returns [None]. *)
Definition safeRun {A} (options : safeRunOptions) (callBack : M A)
  : M (option A) := fun s =>
  let s := if truthy (log options)
           then console_log (LogMessage (message options)) s else s in
  match callBack s with
  | (Ok results, s') => (Ok (Some results), s')
  | (Throw e, s') =>
      if truthy (throwOnFail options) then (Throw e, s')
      else (Ok None, console_log (LogError e) s')
  end.

(* ===================================================================== *)
(** ** Driver primitives *)
(* ===================================================================== *)

Definition targetClosed : error :=
  DriverError "Target page, context or browser has been closed".

(** [context.newPage()] *)
Definition context_newPage : M Page :=
  w <- getWorld ;;
  if contextClosed w || browserClosed w then throw targetClosed
  else
    putWorld (withPages w (pages w ++ [blankPage])
                (contextClosed w) (browserClosed w)) ;;
    ret (List.length (pages w)).

(** The page behind a reference, provided it is still open. *)
Definition openPage (p : Page) : M PageState :=
  w <- getWorld ;;
  match nth_error (pages w) p with
  | Some ps => if pg_closed ps then throw targetClosed else ret ps
  | None => throw targetClosed
  end.

(** [page.goto(url)]: the page then shows the document the URL serves,
    under the URL the engine reports for it. *)
Definition page_goto (p : Page) (url : string) : M unit :=
  _ <- openPage p ;;
  w <- getWorld ;;
  match site w url with
  | Some dom =>
      putWorld (withPages w (updateAt (pages w) p (loadPage (landing w url) dom))
                  (contextClosed w) (browserClosed w))
  | None => throw (DriverError ("Cannot navigate to " ++ url))
  end.

(** [page.url()]: synchronous, also answers for a closed page. *)
Definition page_url (p : Page) : M string :=
  w <- getWorld ;;
  match nth_error (pages w) p with
  | Some ps => ret (pg_url ps)
  | None => throw targetClosed
  end.

(** [page.close()] of Playwright, which accepts a page that is closed
    already. *)
Definition page_close (p : Page) : M unit :=
  w <- getWorld ;;
  putWorld (withPages w (updateAt (pages w) p closePage)
              (contextClosed w) (browserClosed w)).

(** [page.close()] of Puppeteer, which fails once the page or its browser
    is closed. *)
Definition puppeteer_page_close (p : Page) : M unit :=
  w <- getWorld ;;
  if browserClosed w then throw targetClosed
  else
    _ <- openPage p ;;
    page_close p.

(** [context.close()] *)
Definition context_close : M unit :=
  w <- getWorld ;;
  putWorld (withPages w (map closePage (pages w)) true (browserClosed w)).

(** [browser.close()] *)
Definition browser_close : M unit :=
  w <- getWorld ;;
  putWorld (withPages w (map closePage (pages w)) true true).

(** The handles of the nodes a selector matches, in document order. *)
Definition matching (w : World) (sel : string) (dom : list node)
  : list ElementHandle :=
  map nid (filter (matches w sel) dom).

(** [page.$$(sel)] *)
Definition page_queryAll (p : Page) (sel : string) : M (list ElementHandle) :=
  ps <- openPage p ;;
  w <- getWorld ;;
  ret (matching w sel (pg_dom ps)).

(** [page.$eval(sel, f)]: [f] applied to the first match; an error when
    nothing matches. *)
Definition page_eval {A} (p : Page) (sel : string) (f : node -> A) : M A :=
  ps <- openPage p ;;
  w <- getWorld ;;
  match filter (matches w sel) (pg_dom ps) with
  | n :: _ => ret (f n)
  | [] => throw (DriverError
            ("failed to find element matching selector " ++ sel))
  end.

(** A promise that was created but not awaited yet: its settled value. *)
Definition Promise (A : Type) : Type := result A.

Definition await {A} (p : Promise A) : M A :=
  match p with
  | Ok a => ret a
  | Throw e => throw e
  end.

(** A call to a read-only query whose promise is kept instead of awaited:
    the request is sent at once and the promise holds its outcome. *)
Definition unawaited {A} (query : M A) : M (Promise A) := fun s =>
  (Ok (fst (query s)), s).

(** [page.$(sel)] without [await]: a promise of the first match or [null]. *)
Definition page_query (p : Page) (sel : string)
  : M (Promise (option ElementHandle)) :=
  unawaited (ps <- openPage p ;;
             w <- getWorld ;;
             ret (hd_error (matching w sel (pg_dom ps)))).

(** [(await handle.getProperty(name)).toString()] *)
Definition handle_property (p : Page) (h : ElementHandle) (name : string)
  : M string :=
  ps <- openPage p ;;
  match find (fun n => Nat.eqb (nid n) h) (pg_dom ps) with
  | Some n =>
      ret ("JSHandle:" ++
           (if String.eqb name "innerText" then innerText n
            else if String.eqb name "tagName" then tagName n
            else if String.eqb name "innerHTML" then innerHTML n
            else if String.eqb name "disabled"
                 then (if disabled n then "true" else "false")
            else "undefined"))
  | None => throw (DriverError "Node is detached from document")
  end.

(* ===================================================================== *)
(** ** Loops of the collection operations *)
(* ===================================================================== *)

(** [for (let i = i0; i < elements.length; i++) { const element =
    elements[i]; ... }] over an array the body does not modify; [acc] is
    the array the body pushes to. *)
Fixpoint forIndexed {A Acc} (elements : list A) (i : nat)
    (body : A -> nat -> Acc -> M Acc) (acc : Acc) : M Acc :=
  match elements with
  | [] => ret acc
  | element :: rest =>
      acc' <- body element i acc ;;
      forIndexed rest (S i) body acc'
  end.

(** [for (let i = i0; i < count; i++) ...]; [k] is the number of
    iterations left, [count - i]. *)
Fixpoint forRange {Acc} (k : nat) (i : nat)
    (body : nat -> Acc -> M Acc) (acc : Acc) : M Acc :=
  match k with
  | O => ret acc
  | S k' =>
      acc' <- body i acc ;;
      forRange k' (S i) body acc'
  end.

(* ===================================================================== *)
(** ** PuppeteerSelector ([puppeteer.elements.ts]) *)
(* ===================================================================== *)

Module PuppeteerSelector.

(** What the constructor receives as [locator]: a real locator from
    [page.locator(sel)], or the promise of [page.$(sel)] cast to one. *)
Inductive locatorField : Type :=
| RealLocator (p : Page) (sel : string)
| PromiseAsLocator (pr : Promise (option ElementHandle)).

(** What the constructor receives as [elementHandle]. *)
Inductive handleField : Type :=
| PromisedHandle (pr : Promise (option ElementHandle))
| Handle (h : ElementHandle)
| NoHandle   (* [undefined] *).

Record t : Type := {
  locator : locatorField;
  config : Config.baseConfig;
  elementHandle : handleField;
  page : Page;
  selectorString : string;
  actionOptions : actionOptions
}.

(** [new PuppeteerSelector(locator, config, elementHandle, page,
    selectorString)] *)
Definition new (locator : locatorField) (config : Config.baseConfig)
    (elementHandle : handleField) (page : Page) (selectorString : string)
  : t :=
  {| locator := locator;
     config := config;
     elementHandle := elementHandle;
     page := page;
     selectorString := selectorString;
     actionOptions := getActionOptionsFromConfig config |}.

(** What is typed [IBaseElement] at run time: an element of this class,
    or a bare engine handle that was cast. *)
Inductive IBaseElement : Type :=
| Element (e : t)
| CastHandle (h : ElementHandle).

(** [(await this.elementHandle).member] *)
Definition awaitHandle (f : handleField) (member : string)
  : M ElementHandle :=
  match f with
  | Handle h => ret h
  | NoHandle => deref None member
  | PromisedHandle pr =>
      r <- await pr ;;
      match r with
      | Some h => ret h
      | None => throw (TypeError
          ("Cannot read properties of null (reading '" ++ member ++ "')"))
      end
  end.

(** [promise[index]]: a promise object has no indexed property. *)
Definition indexPromise {A} (pr : Promise (list A)) (index : Z)
  : handleField := NoHandle.

Definition getText (self : t) (options : callSiteOptions) : M (option string) :=
  safeRun
    (callOptions "Getting text from element" (actionOptions self) options)
    (h <- awaitHandle (elementHandle self) "getProperty" ;;
     handle_property (page self) h "innerText").

Definition getTagName (self : t) (options : callSiteOptions) : M (option string) :=
  safeRun
    (callOptions "Getting tag name from element" (actionOptions self) options)
    (h <- awaitHandle (elementHandle self) "getProperty" ;;
     handle_property (page self) h "tagName").

Definition isEnabled (self : t) (options : callSiteOptions) : M (option bool) :=
  safeRun
    (callOptions "Checking if element is enabled" (actionOptions self) options)
    (page_eval (page self) "button" (fun button => disabled button)).

Definition count (self : t) (options : callSiteOptions) : M (option nat) :=
  safeRun
    (callOptions "Counting elements" (actionOptions self) options)
    (elements <- page_queryAll (page self) (selectorString self) ;;
     ret (List.length elements)).

Definition getHTML (self : t) (options : callSiteOptions) : M (option string) :=
  safeRun
    (callOptions "Getting HTML from element" (actionOptions self) options)
    (page_eval (page self) (selectorString self) (fun el => innerHTML el)).

(** The child built in each iteration of [forEach], [filter] and [map]. *)
Definition child (self : t) (element : ElementHandle) : M t :=
  first <- page_query (page self) (selectorString self) ;;
  ret (new (PromiseAsLocator first) (config self) (Handle element)
         (page self) (selectorString self)).

Definition forEach (self : t) (callback : t -> nat -> M unit)
    (options : callSiteOptions) : M (option unit) :=
  safeRun
    (callOptions "Iterating over elements" (actionOptions self) options)
    (elements <- page_queryAll (page self) (selectorString self) ;;
     forIndexed elements 0
       (fun element i _ => c <- child self element ;; callback c i) tt).

Definition filter (self : t) (callback : t -> nat -> M bool)
    (options : callSiteOptions) : M (option (list IBaseElement)) :=
  safeRun
    (callOptions "Filtering elements" (actionOptions self) options)
    (elements <- page_queryAll (page self) (selectorString self) ;;
     forIndexed elements 0
       (fun element i filteredElements =>
          c <- child self element ;;
          result <- callback c i ;;
          ret (if result : bool
               then push filteredElements (CastHandle element)
               else filteredElements))
       []).

Definition map {T} (self : t) (callback : t -> nat -> M T)
    (options : callSiteOptions) : M (option (list T)) :=
  safeRun
    (callOptions "Mapping elements" (actionOptions self) options)
    (elements <- page_queryAll (page self) (selectorString self) ;;
     forIndexed elements 0
       (fun element i mappedElements =>
          c <- child self element ;;
          r <- callback c i ;;
          ret (push mappedElements r))
       []).

(** [nth] is synchronous: neither query is awaited, and the handle is
    read off the promise of [page.$$], not off its array. *)
Definition nth (self : t) (index : Z) : M t :=
  first <- page_query (page self) (selectorString self) ;;
  all <- unawaited (page_queryAll (page self) (selectorString self)) ;;
  ret (new (PromiseAsLocator first) (config self) (indexPromise all index)
         (page self) (selectorString self)).

Definition selector (self : t) (selector : string) : M t :=
  first <- page_query (page self) (selectorString self) ;;
  target <- page_query (page self) selector ;;
  ret (new (PromiseAsLocator first) (config self) (PromisedHandle target)
         (page self) selector).

End PuppeteerSelector.

(* ===================================================================== *)
(** ** PlaywrightSelector ([playwright.element.ts]) *)
(* ===================================================================== *)

Module PlaywrightSelector.

Record t : Type := {
  locator : Locator;
  config : Config.baseConfig;
  actionOptions : actionOptions
}.

(** [new PlaywrightSelector(locator, config)] *)
Definition new (locator : Locator) (config : Config.baseConfig) : t :=
  {| locator := locator;
     config := config;
     actionOptions := getActionOptionsFromConfig config |}.

(** [await locator.count()] *)
Definition locator_count (l : Locator) : M nat :=
  w <- getWorld ;;
  await (locatorCount w l (pages w)).

Definition count (self : t) (options : callSiteOptions) : M (option nat) :=
  safeRun
    (callOptions "Counting elements" (actionOptions self) options)
    (locator_count (locator self)).

(** The three collection operations are not wrapped in [safeRun]. *)
Definition forEach (self : t) (callback : t -> nat -> M unit) : M unit :=
  count <- locator_count (locator self) ;;
  forRange count 0
    (fun i _ =>
       callback (new (NthLocator (locator self) (Z.of_nat i)) (config self)) i)
    tt.

Definition filter (self : t) (callback : t -> nat -> M bool) : M (list t) :=
  count <- locator_count (locator self) ;;
  forRange count 0
    (fun i result =>
       let element :=
         new (NthLocator (locator self) (Z.of_nat i)) (config self) in
       keep <- callback element i ;;
       ret (if keep : bool then push result element else result))
    [].

Definition map {T} (self : t) (callback : t -> nat -> M T) : M (list T) :=
  count <- locator_count (locator self) ;;
  forRange count 0
    (fun i result =>
       r <- callback
              (new (NthLocator (locator self) (Z.of_nat i)) (config self)) i ;;
       ret (push result r))
    [].

Definition nth (self : t) (index : Z) : t :=
  new (NthLocator (locator self) index) (config self).

Definition selector (self : t) (selector : string) : t :=
  new (SubLocator (locator self) selector) (config self).

End PlaywrightSelector.

(* ===================================================================== *)
(** ** Sessions: what both backends share *)
(* ===================================================================== *)

(** The constructor of either class: [tabs.push(page)], [currentTab = 0]. *)
Definition newBrowser (page : Page) (config : Config.baseConfig) : Browser.t :=
  {| Browser.config := config;
     Browser.actionOptions := getActionOptionsFromConfig config;
     Browser.tabs := push [] page;
     Browser.currentTab := 0;
     Browser.page := Some page |}.

(** A freshly launched process with one context and its first page. *)
Definition launched (engine : World) : World :=
  withPages engine [blankPage] false false.

(** [const x = await call; rest] outside any session: a failure of the
    call ends [init]. *)
Definition awaited {A B} (call : result A) (rest : A -> result B) : result B :=
  match call with
  | Ok a => rest a
  | Throw e => Throw e
  end.

(** What both [init] functions do once the launcher is chosen:
    [launch({headless: config.headless, timeout: config.actionTimeout})],
    then the context, then its first page, then the constructor. *)
Definition start (l : launcher) (config : Config.baseConfig) (engine : World)
  : result State :=
  awaited (launch engine l (read (Config.headless config))
             (read (Config.actionTimeout config))) (fun _ =>
  awaited (newContext engine) (fun _ =>
  awaited (firstPage engine) (fun _ =>
  Ok {| session := newBrowser 0%nat config;
        world := launched engine;
        console := [] |}))).

(** [this.actionOptions] merged with the call-site options. *)
Definition policy (m : string) (options : option actionOptions)
  : M safeRunOptions :=
  b <- this ;;
  ret (callOptions m (Browser.actionOptions b) options).

(* ===================================================================== *)
(** ** PlaywrightBrowser ([playwright.browser.ts]) *)
(* ===================================================================== *)

Module PlaywrightBrowser.

(** The [case] of the [switch (config.browser)] that applies, if any. *)
Definition launcherOf (browser : prop string) : option launcher :=
  match browser with
  | Value b =>
      if String.eqb b "chromium" then Some Chromium
      else if String.eqb b "firefox" then Some Firefox
      else if String.eqb b "webkit" then Some Webkit
      else None
  | _ => None
  end.

(** [static async init()]; [engine] says how the engine behaves. *)
Definition init (config : Config.baseConfig) (engine : World)
  : result State :=
  let config := Config.configOverrides config in
  match launcherOf (Config.browser config) with
  | Some l => start l config engine
  | None =>
      Throw (Error ("Browser "
                    ++ match Config.browser config with
                       | Value b => b
                       | _ => "undefined"
                       end
                    ++ " is not supported for playwright"))
  end.

Definition selector (selector : string) : M PlaywrightSelector.t :=
  b <- this ;;
  page <- deref (Browser.page b) "locator" ;;
  ret (PlaywrightSelector.new (PageLocator page selector) (Browser.config b)).

Definition navigateTo (url : string) (options : option actionOptions)
  : M (option unit) :=
  o <- policy ("Navigating to " ++ url) options ;;
  safeRun o
    (b <- this ;;
     page <- deref (Browser.page b) "goto" ;;
     page_goto page url).

Definition getUrl (options : option actionOptions) : M (option string) :=
  o <- policy "Getting URL" options ;;
  safeRun o
    (b <- this ;;
     page <- deref (Browser.page b) "url" ;;
     page_url page).

Definition closeBrowser (options : option actionOptions) : M (option unit) :=
  o <- policy "Closing browser" options ;;
  safeRun o browser_close.

(** The operation [openTab] hands to [safeRun]. *)
Definition openTab_body (url : option string) : M unit :=
  newPage <- context_newPage ;;
  assign (fun b => set_tabs (push (Browser.tabs b) newPage) b) ;;
  assign (fun b => set_currentTab (JS.length (Browser.tabs b) - 1) b) ;;
  assign (set_page (Some newPage)) ;;
  match url, truthy_string url with
  | Some u, true =>
      b <- this ;;
      page <- deref (Browser.page b) "goto" ;;
      page_goto page u
  | _, _ => ret tt
  end.

Definition openTab (url : option string) (options : option actionOptions)
  : M (option unit) :=
  o <- policy "Opening new tab" options ;;
  safeRun o (openTab_body url).

(** The operation [closeTab] hands to [safeRun]. *)
Definition closeTab_body : M unit :=
  b <- this ;;
  page <- deref (Browser.page b) "close" ;;
  page_close page ;;
  b <- this ;;
  (if JS.length (Browser.tabs b) =? 0
   then context_close ;; browser_close
   else ret tt) ;;
  (* remove the closed tab from the tabs array *)
  assign (fun b => set_tabs (splice1 (Browser.tabs b) (Browser.currentTab b)) b) ;;
  assign (fun b => set_currentTab (JS.length (Browser.tabs b) - 1) b) ;;
  assign (fun b => set_page (get (Browser.tabs b) (Browser.currentTab b)) b).

Definition closeTab (options : option actionOptions) : M (option unit) :=
  o <- policy "Closing tab" options ;;
  safeRun o closeTab_body.

(** The operation [switchToTab] hands to [safeRun]. *)
Definition switchToTab_body (tabNumber : Z) : M unit :=
  b <- this ;;
  if (tabNumber <? 0) || (tabNumber >? JS.length (Browser.tabs b) - 1)
  then throw (Error ("Tab " ++ string_of_Z tabNumber ++ " does not exist"))
  else
    assign (set_currentTab tabNumber) ;;
    assign (fun b => set_page (get (Browser.tabs b) (Browser.currentTab b)) b).

Definition switchToTab (tabNumber : Z) (options : option actionOptions)
  : M (option unit) :=
  o <- policy ("Switching to tab " ++ string_of_Z tabNumber) options ;;
  safeRun o (switchToTab_body tabNumber).

End PlaywrightBrowser.

(* ===================================================================== *)
(** ** PuppeteerBrowser ([puppeteer.browser.ts]) *)
(* ===================================================================== *)

Module PuppeteerBrowser.

(** [static async init()]: one launch, an incognito context, a page. *)
Definition init (config : Config.baseConfig) (engine : World)
  : result State :=
  let config := Config.configOverrides config in
  start Puppeteer config engine.

Definition selector (selector : string) : M PuppeteerSelector.t :=
  b <- this ;;
  page <- deref (Browser.page b) "locator" ;;
  first <- page_query page selector ;;
  ret (PuppeteerSelector.new
         (PuppeteerSelector.RealLocator page selector)
         (Browser.config b)
         (PuppeteerSelector.PromisedHandle first)
         page selector).

(** The message is an ordinary string literal here: [${url}] is not
    interpolated. *)
Definition navigateTo (url : string) (options : option actionOptions)
  : M (option unit) :=
  o <- policy "Navigating to ${url}" options ;;
  safeRun o
    (b <- this ;;
     page <- deref (Browser.page b) "goto" ;;
     page_goto page url).

Definition getUrl (options : option actionOptions) : M (option string) :=
  o <- policy "Getting url" options ;;
  safeRun o
    (b <- this ;;
     page <- deref (Browser.page b) "url" ;;
     page_url page).

Definition switchToTab_body (tabNumber : Z) : M unit :=
  b <- this ;;
  if (tabNumber <? 0) || (tabNumber >? JS.length (Browser.tabs b) - 1)
  then throw (Error ("Tab " ++ string_of_Z tabNumber ++ " does not exist"))
  else
    assign (set_currentTab tabNumber) ;;
    assign (fun b => set_page (get (Browser.tabs b) (Browser.currentTab b)) b).

Definition switchToTab (tabNumber : Z) (options : option actionOptions)
  : M (option unit) :=
  o <- policy ("Switching to tab " ++ string_of_Z tabNumber) options ;;
  safeRun o (switchToTab_body tabNumber).

Definition closeBrowser (options : option actionOptions) : M (option unit) :=
  o <- policy "Closing browser" options ;;
  safeRun o browser_close.

(** [this.page] is not reassigned; a URL is loaded through the public
    [navigateTo], under the session's own policy. *)
Definition openTab_body (url : option string) : M unit :=
  newPage <- context_newPage ;;
  assign (fun b => set_tabs (push (Browser.tabs b) newPage) b) ;;
  assign (fun b => set_currentTab (JS.length (Browser.tabs b) - 1) b) ;;
  match url, truthy_string url with
  | Some u, true => _ <- navigateTo u None ;; ret tt
  | _, _ => ret tt
  end.

Definition openTab (url : option string) (options : option actionOptions)
  : M (option unit) :=
  o <- policy "Opening new tab" options ;;
  safeRun o (openTab_body url).

Definition closeTab_body : M unit :=
  b <- this ;;
  tab <- deref (get (Browser.tabs b) (Browser.currentTab b)) "close" ;;
  puppeteer_page_close tab ;;
  assign (fun b => set_tabs (splice1 (Browser.tabs b) (Browser.currentTab b)) b) ;;
  assign (fun b => set_currentTab (JS.length (Browser.tabs b) - 1) b).

Definition closeTab (options : option actionOptions) : M (option unit) :=
  o <- policy "Closing tab" options ;;
  safeRun o closeTab_body.

Definition switchTab_body (tabNumber : Z) : M unit :=
  assign (set_currentTab tabNumber).

Definition switchTab (tabNumber : Z) (options : option actionOptions)
  : M (option unit) :=
  o <- policy "Switching tab" options ;;
  safeRun o (switchTab_body tabNumber).

End PuppeteerBrowser.

(* ===================================================================== *)
(** ** Sample engines, pages and sessions used to run the code *)
(* ===================================================================== *)

Module Sample.

Definition item1 : node :=
  {| nid := 1%nat; tagName := "li"; innerText := "first";
     innerHTML := "<b>first</b>"; disabled := false |}.

Definition item2 : node :=
  {| nid := 2%nat; tagName := "li"; innerText := "second";
     innerHTML := "<i>second</i>"; disabled := false |}.

Definition submit : node :=
  {| nid := 3%nat; tagName := "button"; innerText := "Send";
     innerHTML := "Send"; disabled := true |}.

(** Every launch succeeds; a selector is a tag name; every URL is served
    except ["http://down.test"]; ["https://example.test/list"] serves two
    list items and a disabled button, any other URL an empty document; a
    page reports the URL it was sent to, the bare origin
    ["https://example.test"] with the slash of its serialised form. *)
Definition engine : World :=
  {| launch := fun _ _ _ => Ok tt;
     newContext := Ok tt;
     firstPage := Ok tt;
     site := fun url =>
       if String.eqb url "http://down.test" then None
       else if String.eqb url "https://example.test/list"
            then Some [item1; item2; submit]
       else Some [];
     landing := fun url =>
       if String.eqb url "https://example.test" then "https://example.test/"
       else url;
     matches := fun sel n => String.eqb sel (tagName n);
     locatorCount := fun _ _ => Ok 0%nat;
     pages := [];
     contextClosed := false;
     browserClosed := false |}.

(** The user configuration leaves everything to the defaults. *)
Definition noConfig : Config.baseConfig :=
  {| Config.browser := Absent; Config.headless := Absent;
     Config.actionTimeout := Absent; Config.logs := Absent;
     Config.throwOnFail := Absent |}.

(** The user configuration turns logging and throwing off. *)
Definition quietConfig : Config.baseConfig :=
  {| Config.browser := Absent; Config.headless := Absent;
     Config.actionTimeout := Absent; Config.logs := Value false;
     Config.throwOnFail := Value false |}.

(** A session before [init]; it only stands in where [init] throws. *)
Definition nowhere : State :=
  {| session := newBrowser 0%nat noConfig; world := engine; console := [] |}.

(** The session [frameworkSelector.playwright()] hands out. *)
Definition playwright (config : Config.baseConfig) : State :=
  match PlaywrightBrowser.init config engine with
  | Ok s => s
  | Throw _ => nowhere
  end.

(** The session [PuppeteerBrowser.init()] hands out. *)
Definition puppeteer (config : Config.baseConfig) : State :=
  match PuppeteerBrowser.init config engine with
  | Ok s => s
  | Throw _ => nowhere
  end.

Definition overrides (throwOnFail : bool) : option actionOptions :=
  Some {| timeout := Absent; log := Absent; throwOnFail := Value throwOnFail |}.

(** A Puppeteer session whose only tab shows the list. *)
Definition listPage : State :=
  snd (PuppeteerBrowser.navigateTo "https://example.test/list" None
         (puppeteer noConfig)).

(** What [browser.selector("li")] returns on that page. *)
Definition items : PuppeteerSelector.t :=
  PuppeteerSelector.new
    (PuppeteerSelector.RealLocator 0%nat "li")
    (Config.configOverrides noConfig)
    (PuppeteerSelector.PromisedHandle (Ok (Some 1%nat)))
    0%nat "li".

End Sample.

(* ===================================================================== *)
(** ** PlaywrightSelector, the reads that go through the locator

    The locator's own methods belong to the engine; each operation takes
    the one it calls as an argument. *)
(* ===================================================================== *)

Module PlaywrightReads.

(** [p.toString()] of a promise object. *)
Definition promiseToString {A} (p : Promise A) : string := "[object Promise]".

(** [return await this.locator.getAttribute(name)] *)
Definition getAttribute (locator_getAttribute : Locator -> string -> M (option string))
    (self : PlaywrightSelector.t) (name : string) (options : callSiteOptions)
  : M (option (option string)) :=
  safeRun
    (callOptions ("Getting attribute " ++ name ++ " from element")
       (PlaywrightSelector.actionOptions self) options)
    (locator_getAttribute (PlaywrightSelector.locator self) name).

(** [return await this.locator.getAttribute(property).toString()]: the
    member call binds tighter than [await], so [toString] is called on the
    promise and the string is what is awaited. *)
Definition getCssValue (locator_getAttribute : Locator -> string -> M (option string))
    (self : PlaywrightSelector.t) (property : string) (options : callSiteOptions)
  : M (option string) :=
  safeRun
    (callOptions ("Getting css value " ++ property ++ " from element")
       (PlaywrightSelector.actionOptions self) options)
    (p <- unawaited (locator_getAttribute (PlaywrightSelector.locator self) property) ;;
     ret (promiseToString p)).

(** [return await this.locator.getAttribute("tag_name").toString()] *)
Definition getTagName (locator_getAttribute : Locator -> string -> M (option string))
    (self : PlaywrightSelector.t) (options : callSiteOptions)
  : M (option string) :=
  safeRun
    (callOptions "Getting tag name from element"
       (PlaywrightSelector.actionOptions self) options)
    (p <- unawaited (locator_getAttribute (PlaywrightSelector.locator self) "tag_name") ;;
     ret (promiseToString p)).

(** [getLocation]: the box is [null] for an element that is not rendered;
    only its [x] and [y] are copied, so the numbers are left abstract. *)
Definition getLocation {Num : Type}
    (locator_boundingBox : Locator -> M (option (Num * Num)))
    (self : PlaywrightSelector.t) (options : callSiteOptions)
  : M (option (Num * Num)) :=
  safeRun
    (callOptions "Getting location from element"
       (PlaywrightSelector.actionOptions self) options)
    (boundingBox <- locator_boundingBox (PlaywrightSelector.locator self) ;;
     match boundingBox with
     | None => throw (Error "Element is not visible")
     | Some (x, y) => ret (x, y)
     end).

End PlaywrightReads.

(* ===================================================================== *)
(** ** PuppeteerSelector, the actions that go through the locator *)
(* ===================================================================== *)

Module PuppeteerActions.

(** What a real puppeteer locator does on a page, per selector:
    [locator.click({clickCount})] and [locator.fill(text)]. *)
Record LocatorDriver : Type := {
  locator_click : Page -> string -> nat -> M unit;
  locator_fill : Page -> string -> string -> M unit
}.

(** [this.locator.click(...)]: a promise has no [click]. *)
Definition callClick (d : LocatorDriver) (l : PuppeteerSelector.locatorField)
    (clickCount : nat) : M unit :=
  match l with
  | PuppeteerSelector.RealLocator p sel => locator_click d p sel clickCount
  | PuppeteerSelector.PromiseAsLocator _ =>
      throw (TypeError "this.locator.click is not a function")
  end.

(** [this.locator.fill(text)] *)
Definition callFill (d : LocatorDriver) (l : PuppeteerSelector.locatorField)
    (text : string) : M unit :=
  match l with
  | PuppeteerSelector.RealLocator p sel => locator_fill d p sel text
  | PuppeteerSelector.PromiseAsLocator _ =>
      throw (TypeError "this.locator.fill is not a function")
  end.

Definition click (d : LocatorDriver) (self : PuppeteerSelector.t)
    (options : callSiteOptions) : M (option unit) :=
  safeRun
    (callOptions "Clicking on element"
       (PuppeteerSelector.actionOptions self) options)
    (callClick d (PuppeteerSelector.locator self) 1).

Definition fill (d : LocatorDriver) (self : PuppeteerSelector.t)
    (text : string) (options : callSiteOptions) : M (option unit) :=
  safeRun
    (callOptions ("Filling element with " ++ text)
       (PuppeteerSelector.actionOptions self) options)
    (callFill d (PuppeteerSelector.locator self) text).

Definition clear (d : LocatorDriver) (self : PuppeteerSelector.t)
    (options : callSiteOptions) : M (option unit) :=
  safeRun
    (callOptions "Clearing element"
       (PuppeteerSelector.actionOptions self) options)
    (callFill d (PuppeteerSelector.locator self) "").

Definition doubleClick (d : LocatorDriver) (self : PuppeteerSelector.t)
    (options : callSiteOptions) : M (option unit) :=
  safeRun
    (callOptions "Double clicking on element"
       (PuppeteerSelector.actionOptions self) options)
    (callClick d (PuppeteerSelector.locator self) 2).

(** [selectOption(options: string | number)]: the argument only appears
    in the message, there is no call-site option object, and the
    operation is a click. *)
Definition selectOption (d : LocatorDriver) (self : PuppeteerSelector.t)
    (option_ : string) : M (option unit) :=
  safeRun
    (callOptions ("Selecting option " ++ option_ ++ " from element")
       (PuppeteerSelector.actionOptions self) None)
    (callClick d (PuppeteerSelector.locator self) 1).

End PuppeteerActions.

(* ===================================================================== *)
(** ** Waiting for a dialog ([waitForEvent] and [alert] of both backends) *)
(* ===================================================================== *)

(** How the race of [Promise.race] ends between the listener that
    [page.evaluate] installs in the page and the timer of
    [page.waitForTimeout]: the one that settles first decides. *)
Inductive raced : Type :=
| ListenerFirst               (* the event fired before the timer ran out *)
| TimerFirst                  (* the timer ran out first *)
| EvaluateRejected (e : error) (* the evaluation was rejected before both *).

(** What the race resolves with. *)
Inductive settled : Type :=
| JSTrue        (* the listener called [resolve(true)] *)
| JSUndefined   (* [waitForTimeout] resolved *).

Module PuppeteerAlert.

(** [seconds || 30]: [undefined] and [0] give the default. *)
Definition orDefault (seconds : option Z) : Z :=
  match seconds with
  | Some n => if n =? 0 then 30 else n
  | None => 30
  end.

(** [waitForEvent(eventName, seconds)].  [listen page name ms] says how
    the race ends on that page for a timer of [ms] milliseconds; an
    evaluation on a closed page is rejected at once. *)
Definition waitForEvent (listen : Page -> string -> Z -> raced)
    (eventName : string) (seconds : option Z) : M settled :=
  let seconds := orDefault seconds in
  b <- this ;;
  page <- deref (Browser.page b) "evaluate" ;;
  _ <- openPage page ;;
  match listen page eventName (seconds * 1000) with
  | ListenerFirst => ret JSTrue
  | TimerFirst => ret JSUndefined
  | EvaluateRejected e => throw e
  end.

(** [(alert as any).member(...)] on what the race resolved with: neither
    [true] nor [undefined] has the member. *)
Definition callMember {A} (alert : settled) (member : string) : M A :=
  match alert with
  | JSUndefined => deref None member
  | JSTrue => throw (TypeError ("alert." ++ member ++ " is not a function"))
  end.

(** The four operations of [get alert()].  All but [getText] drop what
    [safeRun] returns. *)
Definition accept (listen : Page -> string -> Z -> raced)
    (options : option actionOptions) : M unit :=
  o <- policy "Accepting alert" options ;;
  _ <- safeRun o
         (alert <- waitForEvent listen "dialog" None ;;
          callMember (A := unit) alert "accept") ;;
  ret tt.

Definition dismiss (listen : Page -> string -> Z -> raced)
    (options : option actionOptions) : M unit :=
  o <- policy "Dismissing alert" options ;;
  _ <- safeRun o
         (alert <- waitForEvent listen "dialog" None ;;
          callMember (A := unit) alert "dismiss") ;;
  ret tt.

Definition getText (listen : Page -> string -> Z -> raced)
    (options : option actionOptions) : M (option string) :=
  o <- policy "Getting alert text" options ;;
  safeRun o
    (alert <- waitForEvent listen "dialog" None ;;
     callMember (A := string) alert "message").

Definition sendKeys (listen : Page -> string -> Z -> raced)
    (keys : string) (options : option actionOptions) : M unit :=
  o <- policy "Sending keys to alert" options ;;
  _ <- safeRun o
         (alert <- waitForEvent listen "dialog" None ;;
          callMember (A := unit) alert "accept") ;;
  ret tt.

End PuppeteerAlert.

Module PlaywrightAlert.

(** The dialog side of the engine: [page.waitForEvent(name)], which the
    sources call without a timeout, and the methods of the dialog it
    resolves with. *)
Record DialogDriver (Dialog : Type) : Type := {
  page_waitForEvent : Page -> string -> M Dialog;
  dialog_accept : Dialog -> option string -> M unit;
  dialog_dismiss : Dialog -> M unit;
  dialog_message : Dialog -> string
}.
Arguments page_waitForEvent {Dialog} d.
Arguments dialog_accept {Dialog} d.
Arguments dialog_dismiss {Dialog} d.
Arguments dialog_message {Dialog} d.

(** [const alert = await this.page.waitForEvent("dialog")] *)
Definition nextDialog {Dialog} (d : DialogDriver Dialog) : M Dialog :=
  b <- this ;;
  page <- deref (Browser.page b) "waitForEvent" ;;
  page_waitForEvent d page "dialog".

Definition accept {Dialog} (d : DialogDriver Dialog)
    (options : option actionOptions) : M unit :=
  o <- policy "Accepting alert" options ;;
  _ <- safeRun o (alert <- nextDialog d ;; dialog_accept d alert None) ;;
  ret tt.

Definition dismiss {Dialog} (d : DialogDriver Dialog)
    (options : option actionOptions) : M unit :=
  o <- policy "Dismissing alert" options ;;
  _ <- safeRun o (alert <- nextDialog d ;; dialog_dismiss d alert) ;;
  ret tt.

Definition getText {Dialog} (d : DialogDriver Dialog)
    (options : option actionOptions) : M (option string) :=
  o <- policy "Getting alert text" options ;;
  safeRun o (alert <- nextDialog d ;; ret (dialog_message d alert)).

Definition sendKeys {Dialog} (d : DialogDriver Dialog) (keys : string)
    (options : option actionOptions) : M unit :=
  o <- policy "Sending keys to alert" options ;;
  _ <- safeRun o (alert <- nextDialog d ;; dialog_accept d alert (Some keys)) ;;
  ret tt.

End PlaywrightAlert.

(* ===================================================================== *)
(** ** More sample sessions *)
(* ===================================================================== *)

Module Cases.

(** A Playwright session with three tabs, the middle one current. *)
Definition threeTabs : State :=
  snd (PlaywrightBrowser.switchToTab 1 None
         (snd (PlaywrightBrowser.openTab None None
                 (snd (PlaywrightBrowser.openTab None None
                         (Sample.playwright Sample.noConfig)))))).

(** A Puppeteer session with two tabs, the second one current and
    selected. *)
Definition twoTabs : State :=
  snd (PuppeteerBrowser.switchToTab 1 None
         (snd (PuppeteerBrowser.openTab None None
                 (Sample.puppeteer Sample.noConfig)))).

(** A driver whose locators accept every click and fill. *)
Definition easyDriver : PuppeteerActions.LocatorDriver :=
  {| PuppeteerActions.locator_click := fun _ _ _ => ret tt;
     PuppeteerActions.locator_fill := fun _ _ _ => ret tt |}.

(** The child that [forEach] builds for the first list item. *)
Definition firstItem : PuppeteerSelector.t :=
  PuppeteerSelector.new
    (PuppeteerSelector.PromiseAsLocator (Ok (Some 1%nat)))
    (Config.configOverrides Sample.noConfig)
    (PuppeteerSelector.Handle 1%nat)
    0%nat "li".

(** A user configuration that asks for a browser Playwright does not know. *)
Definition operaConfig : Config.baseConfig :=
  {| Config.browser := Value "opera"; Config.headless := Absent;
     Config.actionTimeout := Absent; Config.logs := Absent;
     Config.throwOnFail := Absent |}.

(** A page on which no dialog event ever fires: the timer always wins. *)
Definition noDialog : Page -> string -> Z -> raced := fun _ _ _ => TimerFirst.

(** A page on which the event fires at once. *)
Definition dialogAtOnce : Page -> string -> Z -> raced :=
  fun _ _ _ => ListenerFirst.

(** A Playwright engine on whose pages no dialog opens: the wait ends in
    the engine's timeout error; whatever is done to a dialog succeeds. *)
Definition timingOut : PlaywrightAlert.DialogDriver unit :=
  {| PlaywrightAlert.page_waitForEvent := fun _ _ =>
       throw (DriverError "Timeout 30000ms exceeded while waiting for event");
     PlaywrightAlert.dialog_accept := fun _ _ => ret tt;
     PlaywrightAlert.dialog_dismiss := fun _ => ret tt;
     PlaywrightAlert.dialog_message := fun _ => "Sure?" |}.

(** An engine whose launch runs into the timeout it was given. *)
Definition stalled : World :=
  {| launch := fun _ _ t =>
       Throw (DriverError
                ("Timeout "
                 ++ match t with Value ms => string_of_Z ms | _ => "30000" end
                 ++ "ms exceeded"));
     newContext := newContext Sample.engine;
     firstPage := firstPage Sample.engine;
     site := site Sample.engine;
     landing := landing Sample.engine;
     matches := matches Sample.engine;
     locatorCount := locatorCount Sample.engine;
     pages := [];
     contextClosed := false;
     browserClosed := false |}.

(** A Playwright element whose configuration swallows failures. *)
Definition quietElement : PlaywrightSelector.t :=
  PlaywrightSelector.new (PageLocator 0%nat "li")
    (Config.configOverrides Sample.quietConfig).

(** A Playwright session on an engine whose locators can no longer be
    counted (the page is gone). *)
Definition lostPage : State :=
  let s := Sample.playwright Sample.quietConfig in
  {| session := session s;
     world := {| launch := launch (world s);
                 newContext := newContext (world s);
                 firstPage := firstPage (world s);
                 site := site (world s);
                 landing := landing (world s);
                 matches := matches (world s);
                 locatorCount := fun _ _ => Throw targetClosed;
                 pages := pages (world s);
                 contextClosed := contextClosed (world s);
                 browserClosed := browserClosed (world s) |};
     console := console s |}.

(** The same session on an engine that finds two matches for every
    locator. *)
Definition twoMatches : State :=
  let s := Sample.playwright Sample.quietConfig in
  {| session := session s;
     world := {| launch := launch (world s);
                 newContext := newContext (world s);
                 firstPage := firstPage (world s);
                 site := site (world s);
                 landing := landing (world s);
                 matches := matches (world s);
                 locatorCount := fun _ _ => Ok 2%nat;
                 pages := pages (world s);
                 contextClosed := contextClosed (world s);
                 browserClosed := browserClosed (world s) |};
     console := console s |}.

(** An engine read that finds the attribute. *)
Definition foundAttribute : Locator -> string -> M (option string) :=
  fun _ _ => ret (Some "red").

(** An engine read that finds no box, and one that finds it at (3, 4). *)
Definition noBox : Locator -> M (option (nat * nat)) := fun _ => ret None.
Definition boxAt34 : Locator -> M (option (nat * nat)) :=
  fun _ => ret (Some (3%nat, 4%nat)).

End Cases.

(* ===================================================================== *)
(** ** Vocabulary of the properties *)
(* ===================================================================== *)

(** The current index points into a non-empty tab sequence. *)
Definition tabInvariant (b : Browser.t) : Prop :=
  Browser.tabs b <> [] ->
  0 <= Browser.currentTab b < JS.length (Browser.tabs b).

(** The current page is the tab at the current index. *)
Definition pageIsCurrent (b : Browser.t) : Prop :=
  Browser.page b = get (Browser.tabs b) (Browser.currentTab b).

(** Every tab is a page of the world that is still open, and no page is
    listed twice. *)
Definition tabsLive (tabs : list Page) (w : World) : Prop :=
  NoDup tabs
  /\ forall t, In t tabs ->
       exists ps, nth_error (pages w) t = Some ps /\ pg_closed ps = false.

(** A session in good order: the index points into the tabs, the current
    page is the tab at the index, and the tabs are distinct open pages. *)
Definition wellFormed (s : State) : Prop :=
  tabInvariant (session s)
  /\ pageIsCurrent (session s)
  /\ tabsLive (Browser.tabs (session s)) (world s).

(** The tab-management operations every backend offers. *)
Inductive tabOperation : Type :=
| OpenTab (url : option string) (options : option actionOptions)
| CloseTab (options : option actionOptions)
| SwitchToTab (tabNumber : Z) (options : option actionOptions).

Definition runPlaywright (op : tabOperation) : M (option unit) :=
  match op with
  | OpenTab url o => PlaywrightBrowser.openTab url o
  | CloseTab o => PlaywrightBrowser.closeTab o
  | SwitchToTab i o => PlaywrightBrowser.switchToTab i o
  end.

Definition runPuppeteer (op : tabOperation) : M (option unit) :=
  match op with
  | OpenTab url o => PuppeteerBrowser.openTab url o
  | CloseTab o => PuppeteerBrowser.closeTab o
  | SwitchToTab i o => PuppeteerBrowser.switchToTab i o
  end.

(** The state after a sequence of calls, whatever each call returned. *)
Definition after (run : tabOperation -> M (option unit))
    (ops : list tabOperation) (s : State) : State :=
  fold_left (fun s op => snd (run op s)) ops s.

(** [g] applied to each item with its index, counted from [i]. *)
Fixpoint indexedFrom {A B} (g : A -> nat -> B) (i : nat) (l : list A)
  : list B :=
  match l with
  | [] => []
  | x :: l' => g x i :: indexedFrom g (S i) l'
  end.

(** Running monadic code inside a goal: unfold the plumbing, then split on
    the innermost test that blocks the computation. *)
Ltac step_M :=
  cbv beta iota delta
    [bind ret throw this assign getWorld putWorld deref await openPage
     page_goto page_url page_close puppeteer_page_close context_close
     browser_close context_newPage policy];
  cbn [fst snd session world console].

Ltac case_M :=
  match goal with
  | |- context [match ?x with _ => _ end] =>
      lazymatch x with
      | context [match _ with _ => _ end] => fail
      | _ => destruct x eqn:?
      end
  end.

Ltac run_M := step_M; repeat (case_M; step_M).

(** Reading fields off states and sessions that were just built. *)
Ltac read_fields :=
  cbn [fst snd session world console
       pages contextClosed browserClosed site landing matches locatorCount
       launch newContext firstPage withPages
       Browser.config Browser.actionOptions Browser.tabs Browser.currentTab
       Browser.page set_tabs set_currentTab set_page].

(* ===================================================================== *)
(** ** Configuration resolution *)
(* ===================================================================== *)

Lemma session_defaults (config : Config.baseConfig) :
  let sessionOptions :=
    getActionOptionsFromConfig (Config.configOverrides config) in
  (Config.actionTimeout config = Absent -> timeout sessionOptions = Value 5000)
  /\ (Config.logs config = Absent -> log sessionOptions = Value true)
  /\ (Config.throwOnFail config = Absent ->
      throwOnFail sessionOptions = Value true).
Proof.
  unfold getActionOptionsFromConfig, Config.configOverrides.
  cbn. repeat split; intros ->; reflexivity.
Qed.

Lemma session_user_value (config : Config.baseConfig) :
  let sessionOptions :=
    getActionOptionsFromConfig (Config.configOverrides config) in
  (forall v, Config.actionTimeout config = Value v ->
             timeout sessionOptions = Value v)
  /\ (forall v, Config.logs config = Value v -> log sessionOptions = Value v)
  /\ (forall v, Config.throwOnFail config = Value v ->
                throwOnFail sessionOptions = Value v).
Proof.
  unfold getActionOptionsFromConfig, Config.configOverrides.
  cbn. repeat split; intros v ->; reflexivity.
Qed.

(** C6. The options of a call are resolved by one merge, library defaults
    first, then the user configuration of the session, then the options
    given at the call site.  In each of the three fields a value given at
    the call site is the resolved value; a field the call site leaves out
    takes the session's value, which is the configured one or else the
    library default (5000 ms, logging on, throwing on).  The resolution
    leaves the state as it is, so the same inputs resolve to the same
    options. *)
Theorem call_site_options_take_precedence :
  forall (config : Config.baseConfig) (m : string) (o : actionOptions),
    let sessionOptions :=
      getActionOptionsFromConfig (Config.configOverrides config) in
    let resolved := callOptions m sessionOptions (Some o) in
    (* the call site wins *)
    (timeout o <> Absent -> timeout resolved = timeout o)
    /\ (log o <> Absent -> log resolved = log o)
    /\ (throwOnFail o <> Absent -> throwOnFail resolved = throwOnFail o)
    (* what it leaves out comes from the session *)
    /\ (timeout o = Absent -> timeout resolved = timeout sessionOptions)
    /\ (log o = Absent -> log resolved = log sessionOptions)
    /\ (throwOnFail o = Absent ->
        throwOnFail resolved = throwOnFail sessionOptions)
    /\ options (callOptions m sessionOptions None) = sessionOptions
    (* the session is the user configuration over the library defaults *)
    /\ (forall v, Config.actionTimeout config = Value v ->
                  timeout sessionOptions = Value v)
    /\ (forall v, Config.logs config = Value v ->
                  log sessionOptions = Value v)
    /\ (forall v, Config.throwOnFail config = Value v ->
                  throwOnFail sessionOptions = Value v)
    /\ (Config.actionTimeout config = Absent ->
        timeout sessionOptions = Value 5000)
    /\ (Config.logs config = Absent -> log sessionOptions = Value true)
    /\ (Config.throwOnFail config = Absent ->
        throwOnFail sessionOptions = Value true)
    (* resolving reads the session and changes nothing *)
    /\ (forall s,
          Browser.actionOptions (session s) = sessionOptions ->
          policy m (Some o) s = (Ok resolved, s)).
Proof.
  intros config m o sessionOptions resolved.
  destruct (session_defaults config) as (Ht & Hl & Hf).
  destruct (session_user_value config) as (Htv & Hlv & Hfv).
  repeat split.
  - intros H. cbn. now destruct (timeout o).
  - intros H. cbn. now destruct (log o).
  - intros H. cbn. now destruct (throwOnFail o).
  - intros H. cbn. now rewrite H.
  - intros H. cbn. now rewrite H.
  - intros H. cbn. now rewrite H.
  - exact Htv.
  - exact Hlv.
  - exact Hfv.
  - exact Ht.
  - exact Hl.
  - exact Hf.
  - intros s Hs. unfold policy, bind, this, ret. now rewrite Hs.
Qed.

(** The call site turns throwing off for one call of a session that runs
    on the defaults. *)
Lemma call_site_options_take_precedence_witness :
  throwOnFail (callOptions "Closing tab"
                 (getActionOptionsFromConfig
                    (Config.configOverrides Sample.noConfig))
                 (Sample.overrides false)) = Value false
  /\ throwOnFail (getActionOptionsFromConfig
                    (Config.configOverrides Sample.noConfig)) = Value true.
Proof.
  split.
  - apply (proj1 (proj2 (proj2
      (call_site_options_take_precedence Sample.noConfig "Closing tab"
         {| timeout := Absent; log := Absent; throwOnFail := Value false |})))).
    discriminate.
  - apply (call_site_options_take_precedence Sample.noConfig "Closing tab"
         {| timeout := Absent; log := Absent; throwOnFail := Value false |}).
    reflexivity.
Defined.

(* ===================================================================== *)
(** ** The action policy *)
(* ===================================================================== *)

(** The state the operation starts from: the message is logged first. *)
Lemma safeRun_unfold {A} (options : safeRunOptions) (operation : M A) s :
  safeRun options operation s =
  match operation (if truthy (log options)
                   then console_log (LogMessage (message options)) s
                   else s) with
  | (Ok results, s') => (Ok (Some results), s')
  | (Throw e, s') =>
      if truthy (throwOnFail options) then (Throw e, s')
      else (Ok None, console_log (LogError e) s')
  end.
Proof. reflexivity. Qed.

(** Every method first resolves its options, then runs under [safeRun]. *)
Lemma method_unfold {A} (m : string) (o : option actionOptions)
    (operation : M A) (s : State) :
  (resolved <- policy m o ;; safeRun resolved operation) s
  = safeRun (callOptions m (Browser.actionOptions (session s)) o) operation s.
Proof. reflexivity. Qed.

Lemma world_logged (b : bool) (e : entry) (s : State) :
  world (if b then console_log e s else s) = world s.
Proof. now destruct b. Qed.

Lemma session_logged (b : bool) (e : entry) (s : State) :
  session (if b then console_log e s else s) = session s.
Proof. now destruct b. Qed.

Lemma openPage_open (p : Page) (ps : PageState) (s : State) :
  nth_error (pages (world s)) p = Some ps ->
  pg_closed ps = false ->
  openPage p s = (Ok ps, s).
Proof.
  intros Hp Hc. unfold openPage, bind, getWorld. now rewrite Hp, Hc.
Qed.

Lemma page_eval_first {A} (p : Page) (sel : string) (f : node -> A)
    (ps : PageState) (n : node) (rest : list node) (s : State) :
  nth_error (pages (world s)) p = Some ps ->
  pg_closed ps = false ->
  filter (matches (world s) sel) (pg_dom ps) = n :: rest ->
  page_eval p sel f s = (Ok (f n), s).
Proof.
  intros Hp Hc Hm. unfold page_eval, bind.
  rewrite (openPage_open p ps s Hp Hc). cbn. now rewrite Hm.
Qed.

Lemma page_eval_none {A} (p : Page) (sel : string) (f : node -> A)
    (ps : PageState) (s : State) :
  nth_error (pages (world s)) p = Some ps ->
  pg_closed ps = false ->
  filter (matches (world s) sel) (pg_dom ps) = [] ->
  page_eval p sel f s =
  (Throw (DriverError ("failed to find element matching selector " ++ sel)), s).
Proof.
  intros Hp Hc Hm. unfold page_eval, bind.
  rewrite (openPage_open p ps s Hp Hc). cbn. now rewrite Hm.
Qed.

(** C2. [safeRun] returns the result of an operation that succeeds; when
    the operation fails it throws the same failure if the merged
    [throwOnFail] is true, and otherwise logs the failure and returns
    [undefined] without throwing.  So reading an element whose selector
    matches nothing throws exactly when [throwOnFail] is true. *)
Theorem safeRun_returns_rethrows_or_swallows :
  forall (A : Type) (options : safeRunOptions) (operation : M A) (s : State),
    let s0 := if truthy (log options)
              then console_log (LogMessage (message options)) s else s in
    (forall v s', operation s0 = (Ok v, s') ->
                  safeRun options operation s = (Ok (Some v), s'))
    /\ (forall e s', operation s0 = (Throw e, s') ->
                     truthy (throwOnFail options) = true ->
                     safeRun options operation s = (Throw e, s'))
    /\ (forall e s', operation s0 = (Throw e, s') ->
                     truthy (throwOnFail options) = false ->
                     safeRun options operation s
                     = (Ok None, console_log (LogError e) s'))
    /\ (forall (el : PuppeteerSelector.t) (o : option actionOptions) ps,
          nth_error (pages (world s)) (PuppeteerSelector.page el) = Some ps ->
          pg_closed ps = false ->
          filter (matches (world s) (PuppeteerSelector.selectorString el))
                 (pg_dom ps) = [] ->
          let merged := callOptions "Getting HTML from element"
                          (PuppeteerSelector.actionOptions el) o in
          ((exists e s', PuppeteerSelector.getHTML el o s = (Throw e, s'))
           <-> truthy (throwOnFail merged) = true)
          /\ ((exists s', PuppeteerSelector.getHTML el o s = (Ok None, s'))
              <-> truthy (throwOnFail merged) = false)).
Proof.
  intros A options operation s s0.
  split; [|split; [|split]].
  - intros v s' H. rewrite safeRun_unfold. fold s0. now rewrite H.
  - intros e s' H Ht. rewrite safeRun_unfold. fold s0. now rewrite H, Ht.
  - intros e s' H Ht. rewrite safeRun_unfold. fold s0. now rewrite H, Ht.
  - intros el o ps Hp Hc Hm merged.
    unfold PuppeteerSelector.getHTML. fold merged.
    rewrite safeRun_unfold.
    rewrite (page_eval_none _ _ _ ps).
    + destruct (truthy (throwOnFail merged)); split; split;
        try discriminate; try reflexivity.
      * intros _. eauto.
      * intros (s' & H). discriminate.
      * intros (e & s' & H). discriminate.
      * intros _. eauto.
    + now rewrite world_logged.
    + exact Hc.
    + now rewrite world_logged.
Qed.

(** On a page without list items, reading the HTML of [li] throws under
    the default policy and returns [undefined] when the call site turns
    throwing off. *)
Lemma safeRun_returns_rethrows_or_swallows_witness :
  let s := Sample.puppeteer Sample.noConfig in
  let el := Sample.items in
  let o := {| message := "ok";
              options := getActionOptionsFromConfig Config.defaultConfig |} in
  safeRun o (ret 7) s = (Ok (Some 7), console_log (LogMessage "ok") s)
  /\ (exists e s',
        PuppeteerSelector.getHTML el (Sample.overrides true) s = (Throw e, s'))
  /\ (exists s',
        PuppeteerSelector.getHTML el (Sample.overrides false) s = (Ok None, s')).
Proof.
  intros s el o. split; [|split].
  - apply (safeRun_returns_rethrows_or_swallows Z o (ret 7) s). reflexivity.
  - apply (proj2 (proj2 (proj2
      (safeRun_returns_rethrows_or_swallows Z o (ret 7) s)))
      el (Sample.overrides true) blankPage); reflexivity.
  - apply (proj2 (proj2 (proj2
      (safeRun_returns_rethrows_or_swallows Z o (ret 7) s)))
      el (Sample.overrides false) blankPage); reflexivity.
Defined.

(* ===================================================================== *)
(** ** Arrays *)
(* ===================================================================== *)

Lemma get_in_range {A} (arr : list A) (i : Z) :
  0 <= i <= JS.length arr - 1 -> exists a, get arr i = Some a.
Proof.
  intros H. unfold get, JS.length in *.
  destruct (Z.ltb_spec i 0); [lia|].
  destruct (nth_error arr (Z.to_nat i)) eqn:E; [eauto|].
  apply nth_error_None in E. lia.
Qed.

Lemma get_out_of_range {A} (arr : list A) (i : Z) :
  i < 0 \/ i > JS.length arr - 1 -> get arr i = None.
Proof.
  intros H. unfold get, JS.length in *.
  destruct (Z.ltb_spec i 0); [reflexivity|].
  apply nth_error_None. lia.
Qed.

Lemma length_push {A} (arr : list A) (x : A) :
  JS.length (push arr x) = JS.length arr + 1.
Proof. unfold JS.length, push. rewrite length_app. cbn. lia. Qed.

Lemma get_push_last {A} (arr : list A) (x : A) :
  get (push arr x) (JS.length (push arr x) - 1) = Some x.
Proof.
  rewrite length_push. unfold get, JS.length, push.
  destruct (Z.ltb_spec (Z.of_nat (List.length arr) + 1 - 1) 0); [lia|].
  replace (Z.to_nat (Z.of_nat (List.length arr) + 1 - 1))
    with (List.length arr) by lia.
  rewrite nth_error_app2 by lia. now rewrite Nat.sub_diag.
Qed.

Lemma get_push_old {A} (arr : list A) (x : A) (i : Z) :
  0 <= i <= JS.length arr - 1 -> get (push arr x) i = get arr i.
Proof.
  intros H. unfold get, JS.length, push in *.
  destruct (Z.ltb_spec i 0); [lia|].
  apply nth_error_app1. lia.
Qed.

(** Removing one item at an index inside the array. *)
Lemma splice1_in_range {A} (arr : list A) (i : Z) :
  0 <= i <= JS.length arr - 1 ->
  splice1 arr i = (firstn (Z.to_nat i) arr ++ skipn (S (Z.to_nat i)) arr)%list
  /\ JS.length (splice1 arr i) = JS.length arr - 1.
Proof.
  intros H. unfold splice1.
  destruct (Z.ltb_spec i 0); [lia|].
  replace (Z.min i (JS.length arr)) with i by lia.
  replace (i + Z.min (Z.max 1 0) (JS.length arr - i)) with (i + 1) by lia.
  replace (Z.to_nat (i + 1)) with (S (Z.to_nat i)) by lia.
  split; [reflexivity|].
  unfold JS.length in *. rewrite length_app, length_firstn, length_skipn. lia.
Qed.

(* ===================================================================== *)
(** ** Switching tabs *)
(* ===================================================================== *)

Lemma switchToTab_body_out_of_range (tabNumber : Z) (s : State) :
  tabNumber < 0 \/ tabNumber > JS.length (Browser.tabs (session s)) - 1 ->
  PlaywrightBrowser.switchToTab_body tabNumber s
  = (Throw (Error ("Tab " ++ string_of_Z tabNumber ++ " does not exist")), s).
Proof.
  intros H. unfold PlaywrightBrowser.switchToTab_body, bind, this.
  rewrite Z.gtb_ltb.
  destruct (Z.ltb_spec tabNumber 0);
    destruct (Z.ltb_spec (JS.length (Browser.tabs (session s)) - 1) tabNumber);
    try reflexivity; lia.
Qed.

Lemma switchToTab_body_in_range (tabNumber : Z) (s : State) :
  0 <= tabNumber <= JS.length (Browser.tabs (session s)) - 1 ->
  exists p,
    get (Browser.tabs (session s)) tabNumber = Some p
    /\ PlaywrightBrowser.switchToTab_body tabNumber s
       = (Ok tt,
          {| session := set_page (Some p) (set_currentTab tabNumber (session s));
             world := world s;
             console := console s |}).
Proof.
  intros H. destruct (get_in_range _ _ H) as [p Hp].
  exists p. split; [exact Hp|].
  unfold PlaywrightBrowser.switchToTab_body, bind, this.
  rewrite Z.gtb_ltb.
  destruct (Z.ltb_spec tabNumber 0); [lia|].
  destruct (Z.ltb_spec (JS.length (Browser.tabs (session s)) - 1) tabNumber);
    [lia|].
  cbn. unfold assign. cbn. now rewrite Hp.
Qed.




(* ===================================================================== *)
(** ** The tab invariant *)
(* ===================================================================== *)

Lemma safeRun_session {A} (options : safeRunOptions) (operation : M A) s :
  session (snd (safeRun options operation s))
  = session (snd (operation
      (if truthy (log options)
       then console_log (LogMessage (message options)) s else s))).
Proof.
  rewrite safeRun_unfold.
  destruct (operation _) as [[v|e] s']; [reflexivity|].
  now destruct (truthy (throwOnFail options)).
Qed.

Lemma safeRun_world {A} (options : safeRunOptions) (operation : M A) s :
  world (snd (safeRun options operation s))
  = world (snd (operation
      (if truthy (log options)
       then console_log (LogMessage (message options)) s else s))).
Proof.
  rewrite safeRun_unfold.
  destruct (operation _) as [[v|e] s']; [reflexivity|].
  now destruct (truthy (throwOnFail options)).
Qed.

(** An index set to [tabs.length - 1] is inside a non-empty array. *)
Lemma last_index_in_range (b : Browser.t) :
  Browser.currentTab b = JS.length (Browser.tabs b) - 1 -> tabInvariant b.
Proof.
  intros H Hne. rewrite H. unfold JS.length.
  destruct (Browser.tabs b); [contradiction|cbn [List.length]; lia].
Qed.

Lemma page_goto_session (p : Page) (url : string) (s : State) :
  session (snd (page_goto p url s)) = session s.
Proof. run_M; reflexivity. Qed.

Lemma playwright_openTab_body_invariant (url : option string) (s : State) :
  tabInvariant (session s) ->
  tabInvariant (session (snd (PlaywrightBrowser.openTab_body url s))).
Proof.
  intros Hinv. unfold PlaywrightBrowser.openTab_body.
  run_M; try exact Hinv; apply last_index_in_range; reflexivity.
Qed.

Lemma playwright_closeTab_body_invariant (s : State) :
  tabInvariant (session s) ->
  tabInvariant (session (snd (PlaywrightBrowser.closeTab_body s))).
Proof.
  intros Hinv. unfold PlaywrightBrowser.closeTab_body.
  run_M; try exact Hinv; apply last_index_in_range; reflexivity.
Qed.

Lemma switchToTab_body_invariant (tabNumber : Z) (s : State) :
  tabInvariant (session s) ->
  tabInvariant (session (snd (PlaywrightBrowser.switchToTab_body tabNumber s))).
Proof.
  intros Hinv.
  destruct (Z_lt_ge_dec tabNumber 0) as [Hlt|Hge].
  - now rewrite switchToTab_body_out_of_range by (now left).
  - destruct (Z_gt_le_dec tabNumber (JS.length (Browser.tabs (session s)) - 1))
      as [Hgt|Hle].
    + now rewrite switchToTab_body_out_of_range by (now right).
    + destruct (switchToTab_body_in_range tabNumber s) as (p & _ & ->);
        [lia|].
      intros _. cbn. lia.
Qed.

(** Every tab-management call of a Playwright session keeps the current
    index inside a non-empty tab sequence. *)
Lemma playwright_step_invariant (op : tabOperation) (s : State) :
  tabInvariant (session s) ->
  tabInvariant (session (snd (runPlaywright op s))).
Proof.
  intros Hinv.
  destruct op as [url o|o|i o]; cbn;
    unfold PlaywrightBrowser.openTab, PlaywrightBrowser.closeTab,
           PlaywrightBrowser.switchToTab, policy, bind, this, ret;
    rewrite safeRun_session.
  - apply playwright_openTab_body_invariant. now rewrite session_logged.
  - apply playwright_closeTab_body_invariant. now rewrite session_logged.
  - apply switchToTab_body_invariant. now rewrite session_logged.
Qed.

(** A session that was started is the freshly constructed one, on the
    launched engine. *)
Lemma start_returned (l : launcher) (config : Config.baseConfig)
    (engine : World) (s0 : State) :
  start l config engine = Ok s0 ->
  launch engine l (read (Config.headless config))
    (read (Config.actionTimeout config)) = Ok tt
  /\ newContext engine = Ok tt
  /\ firstPage engine = Ok tt
  /\ s0 = {| session := newBrowser 0%nat config;
             world := launched engine;
             console := [] |}.
Proof.
  unfold start, awaited. intros H.
  destruct (launch engine l _ _) as [[]|e]; [|discriminate].
  destruct (newContext engine) as [[]|e]; [|discriminate].
  destruct (firstPage engine) as [[]|e]; [|discriminate].
  injection H as <-. repeat split.
Qed.

Lemma init_returned (config : Config.baseConfig) (engine : World) (s0 : State) :
  PlaywrightBrowser.init config engine = Ok s0
  \/ PuppeteerBrowser.init config engine = Ok s0 ->
  s0 = {| session := newBrowser 0%nat (Config.configOverrides config);
          world := launched engine;
          console := [] |}.
Proof.
  intros [Hinit|Hinit].
  - unfold PlaywrightBrowser.init in Hinit.
    destruct (PlaywrightBrowser.launcherOf _) as [l|]; [|discriminate].
    now apply start_returned in Hinit.
  - unfold PuppeteerBrowser.init in Hinit.
    now apply start_returned in Hinit.
Qed.

Lemma init_invariant (config : Config.baseConfig) (engine : World) (s0 : State) :
  PlaywrightBrowser.init config engine = Ok s0
  \/ PuppeteerBrowser.init config engine = Ok s0 ->
  tabInvariant (session s0).
Proof.
  intros Hinit. apply init_returned in Hinit. subst s0.
  intros _. cbn. lia.
Qed.

Lemma playwright_tab_invariant (config : Config.baseConfig) (engine : World)
    (s0 : State) (ops : list tabOperation) :
  PlaywrightBrowser.init config engine = Ok s0 ->
  tabInvariant (session (after runPlaywright ops s0)).
Proof.
  intros Hinit.
  assert (H0 : tabInvariant (session s0))
    by (eapply init_invariant; left; exact Hinit).
  clear Hinit. revert s0 H0. unfold after.
  induction ops as [|op ops IH]; intros s0 H0; [exact H0|].
  cbn. apply IH. now apply playwright_step_invariant.
Qed.

(** A Playwright session keeps its current page equal to the tab at the
    current index, also when that index has left the empty array. *)
Lemma playwright_step_page_is_current (op : tabOperation) (s : State) :
  pageIsCurrent (session s) ->
  pageIsCurrent (session (snd (runPlaywright op s))).
Proof.
  intros Hinv.
  destruct op as [url o|o|i o]; cbn [runPlaywright];
    unfold PlaywrightBrowser.openTab, PlaywrightBrowser.closeTab,
           PlaywrightBrowser.switchToTab;
    rewrite method_unfold, safeRun_session;
    set (s0 := if truthy _ then _ else s);
    assert (Hs : pageIsCurrent (session s0))
      by (unfold s0; now rewrite session_logged);
    clearbody s0.
  - unfold PlaywrightBrowser.openTab_body.
    run_M; try exact Hs; unfold pageIsCurrent; read_fields;
      symmetry; apply get_push_last.
  - unfold PlaywrightBrowser.closeTab_body.
    run_M; try exact Hs; reflexivity.
  - destruct (Z_lt_ge_dec i 0) as [Hlt|Hge].
    + now rewrite switchToTab_body_out_of_range by (now left).
    + destruct (Z_gt_le_dec i (JS.length (Browser.tabs (session s0)) - 1))
        as [Hgt|Hle].
      * now rewrite switchToTab_body_out_of_range by (now right).
      * destruct (switchToTab_body_in_range i s0) as (p & Hp & ->); [lia|].
        unfold pageIsCurrent. read_fields. now rewrite Hp.
Qed.

Lemma playwright_page_is_current (config : Config.baseConfig) (engine : World)
    (s0 : State) (ops : list tabOperation) :
  PlaywrightBrowser.init config engine = Ok s0 ->
  pageIsCurrent (session (after runPlaywright ops s0)).
Proof.
  intros Hinit.
  assert (H0 : pageIsCurrent (session s0)).
  { rewrite (init_returned config engine s0 (or_introl Hinit)). reflexivity. }
  clear Hinit. revert s0 H0. unfold after.
  induction ops as [|op ops IH]; intros s0 H0; [exact H0|].
  cbn. apply IH. now apply playwright_step_page_is_current.
Qed.

Lemma puppeteer_navigateTo_session (url : string) o (s : State) :
  session (snd (PuppeteerBrowser.navigateTo url o s)) = session s.
Proof.
  unfold PuppeteerBrowser.navigateTo.
  rewrite method_unfold, safeRun_session.
  run_M; now rewrite ?session_logged.
Qed.

Lemma puppeteer_openTab_body_invariant (url : option string) (s : State) :
  tabInvariant (session s) ->
  tabInvariant (session (snd (PuppeteerBrowser.openTab_body url s))).
Proof.
  intros Hinv. unfold PuppeteerBrowser.openTab_body.
  unfold bind at 1, context_newPage, bind at 1, getWorld at 1.
  destruct (contextClosed (world s) || browserClosed (world s));
    [exact Hinv|].
  cbn -[PuppeteerBrowser.navigateTo truthy_string].
  apply last_index_in_range.
  destruct url as [u|]; [|reflexivity].
  destruct (truthy_string (Some u)); [|reflexivity].
  unfold bind.
  match goal with
  | |- context [PuppeteerBrowser.navigateTo u None ?s1] =>
      pose proof (puppeteer_navigateTo_session u None s1) as Hs;
      destruct (PuppeteerBrowser.navigateTo u None s1) as [[r|e] s2]
  end; cbn in Hs |- *; now rewrite Hs.
Qed.

Lemma puppeteer_closeTab_body_invariant (s : State) :
  tabInvariant (session s) ->
  tabInvariant (session (snd (PuppeteerBrowser.closeTab_body s))).
Proof.
  intros Hinv. unfold PuppeteerBrowser.closeTab_body.
  run_M; try exact Hinv; apply last_index_in_range; reflexivity.
Qed.

(** So does every call of a Puppeteer session that goes through
    [openTab], [closeTab] or [switchToTab]. *)
Lemma puppeteer_step_invariant (op : tabOperation) (s : State) :
  tabInvariant (session s) ->
  tabInvariant (session (snd (runPuppeteer op s))).
Proof.
  intros Hinv.
  destruct op as [url o|o|i o]; cbn;
    unfold PuppeteerBrowser.openTab, PuppeteerBrowser.closeTab,
           PuppeteerBrowser.switchToTab, policy, bind, this, ret;
    rewrite safeRun_session.
  - apply puppeteer_openTab_body_invariant. now rewrite session_logged.
  - apply puppeteer_closeTab_body_invariant. now rewrite session_logged.
  - apply switchToTab_body_invariant. now rewrite session_logged.
Qed.

(** The Puppeteer-only setter [switchTab] stores whatever index it is
    given. *)
Lemma puppeteer_switchTab_stores_any_index (tabNumber : Z)
    (o : option actionOptions) (s : State) :
  Browser.currentTab (session (snd (PuppeteerBrowser.switchTab tabNumber o s)))
  = tabNumber
  /\ Browser.tabs (session (snd (PuppeteerBrowser.switchTab tabNumber o s)))
     = Browser.tabs (session s).
Proof.
  unfold PuppeteerBrowser.switchTab.
  rewrite method_unfold, safeRun_session.
  unfold PuppeteerBrowser.switchTab_body, assign. cbn.
  now rewrite session_logged.
Qed.

(** C1. What the code does where the invariant [0 <= currentTab <
    tabs.length] and the closing of the session are at stake.  A Playwright
    session that closes its only tab ends with an empty tab sequence, the
    index -1 and the current page read from the empty sequence
    ([undefined]), while the context and the browser stay open: the length
    test runs before the tab is removed.  The session is not terminal, a
    later [openTab] succeeds.  Puppeteer's [switchTab] stores whatever
    index it is given and keeps the tabs: [switchTab(5)] on one tab leaves
    the index 5.  (Through [openTab], [closeTab] and
    [switchToTab] alone the invariant is kept, see
    [playwright_tab_invariant] and [puppeteer_step_invariant].) *)
Theorem last_tab_close_and_switchTab_break_the_tab_invariant :
  let closed :=
    snd (PlaywrightBrowser.closeTab None
           (Sample.playwright Sample.noConfig)) in
  let switched :=
    snd (PuppeteerBrowser.switchTab 5 None
           (Sample.puppeteer Sample.noConfig)) in
  (forall (tabNumber : Z) (o : option actionOptions) (s : State),
      let s' := snd (PuppeteerBrowser.switchTab tabNumber o s) in
      Browser.currentTab (session s') = tabNumber
      /\ Browser.tabs (session s') = Browser.tabs (session s))
  /\ Browser.tabs (session closed) = []
  /\ Browser.currentTab (session closed) = -1
  /\ Browser.page (session closed) = get [] (-1)
  /\ contextClosed (world closed) = false
  /\ browserClosed (world closed) = false
  /\ fst (PlaywrightBrowser.openTab None None closed) = Ok (Some tt)
  /\ Browser.tabs (session switched) = [0%nat]
  /\ Browser.currentTab (session switched) = 5
  /\ ~ tabInvariant (session switched).
Proof.
  cbv zeta. split; [exact puppeteer_switchTab_stores_any_index|].
  repeat split; try reflexivity.
  intros H.
  assert (Hne : Browser.tabs
                  (session (snd (PuppeteerBrowser.switchTab 5 None
                                   (Sample.puppeteer Sample.noConfig)))) <> [])
    by (vm_compute; discriminate).
  specialize (H Hne). vm_compute in H. destruct H as [_ H]. discriminate.
Qed.

(* ===================================================================== *)
(** ** Closing a tab *)
(* ===================================================================== *)

(** What [closeTab] does to a Playwright session whose current page is
    [p]: the page is closed, the item at the current index leaves the tab
    array, the index becomes the last one and the page is read from it. *)
Lemma playwright_closeTab_body_run (s : State) (p : Page) :
  Browser.page (session s) = Some p ->
  Browser.tabs (session s) <> [] ->
  let tabs' := splice1 (Browser.tabs (session s))
                 (Browser.currentTab (session s)) in
  PlaywrightBrowser.closeTab_body s
  = (Ok tt,
     {| session :=
          set_page (get tabs' (JS.length tabs' - 1))
            (set_currentTab (JS.length tabs' - 1)
               (set_tabs tabs' (session s)));
        world := withPages (world s) (updateAt (pages (world s)) p closePage)
                   (contextClosed (world s)) (browserClosed (world s));
        console := console s |}).
Proof.
  intros Hp Hne tabs'.
  assert (Hlen : (JS.length (Browser.tabs (session s)) =? 0) = false).
  { apply Z.eqb_neq. unfold JS.length.
    destruct (Browser.tabs (session s)); [contradiction|].
    cbn [List.length]. lia. }
  unfold PlaywrightBrowser.closeTab_body.
  step_M. rewrite Hp. step_M. rewrite Hlen. reflexivity.
Qed.

(** On an open page of an open browser both engines close alike. *)
Lemma puppeteer_page_close_open (p : Page) (ps : PageState) (s : State) :
  browserClosed (world s) = false ->
  nth_error (pages (world s)) p = Some ps ->
  pg_closed ps = false ->
  puppeteer_page_close p s = page_close p s.
Proof.
  intros Hb Hps Hc. unfold puppeteer_page_close.
  unfold bind at 1. unfold getWorld at 1. rewrite Hb.
  unfold bind. now rewrite (openPage_open p ps s Hps Hc).
Qed.

(** The same for Puppeteer, which closes [tabs[currentTab]] and leaves
    [this.page] alone; the tab has to be an open page of an open browser. *)
Lemma puppeteer_closeTab_body_run (s : State) (p : Page) (ps : PageState) :
  get (Browser.tabs (session s)) (Browser.currentTab (session s)) = Some p ->
  browserClosed (world s) = false ->
  nth_error (pages (world s)) p = Some ps ->
  pg_closed ps = false ->
  let tabs' := splice1 (Browser.tabs (session s))
                 (Browser.currentTab (session s)) in
  PuppeteerBrowser.closeTab_body s
  = (Ok tt,
     {| session := set_currentTab (JS.length tabs' - 1)
                     (set_tabs tabs' (session s));
        world := withPages (world s) (updateAt (pages (world s)) p closePage)
                   (contextClosed (world s)) (browserClosed (world s));
        console := console s |}).
Proof.
  intros Hp Hb Hps Hc tabs'. unfold PuppeteerBrowser.closeTab_body.
  unfold bind at 1. unfold this at 1. unfold bind at 1. rewrite Hp.
  unfold deref, ret. unfold bind at 1.
  rewrite (puppeteer_page_close_open p ps s Hb Hps Hc). reflexivity.
Qed.

(** On a tab that is closed already, or in a closed browser, Puppeteer's
    [closeTab] fails before it touches the session. *)
Lemma puppeteer_closeTab_body_closed (s : State) (p : Page) :
  get (Browser.tabs (session s)) (Browser.currentTab (session s)) = Some p ->
  browserClosed (world s) = true
  \/ (forall ps, nth_error (pages (world s)) p = Some ps ->
                 pg_closed ps = true) ->
  PuppeteerBrowser.closeTab_body s = (Throw targetClosed, s).
Proof.
  intros Hp Hclosed. unfold PuppeteerBrowser.closeTab_body.
  step_M. rewrite Hp. step_M.
  destruct (browserClosed (world s)) eqn:Hb; [reflexivity|].
  destruct Hclosed as [Hclosed|Hclosed]; [discriminate|].
  destruct (nth_error (pages (world s)) p) as [ps|]; [|reflexivity].
  now rewrite (Hclosed ps eq_refl).
Qed.

(** C3. What [closeTab] does about the release.  On a session whose tab
    sequence is not empty, [closeTab] of either backend leaves the context
    and the browser process as they were, also when the removal empties
    the sequence: Playwright tests [tabs.length === 0] before it removes
    the tab, Puppeteer has no release at all. *)
Theorem closeTab_releases_neither_context_nor_browser :
  forall (o : option actionOptions) (s : State),
    Browser.tabs (session s) <> [] ->
    let playwright := snd (PlaywrightBrowser.closeTab o s) in
    let puppeteer := snd (PuppeteerBrowser.closeTab o s) in
    contextClosed (world playwright) = contextClosed (world s)
    /\ browserClosed (world playwright) = browserClosed (world s)
    /\ contextClosed (world puppeteer) = contextClosed (world s)
    /\ browserClosed (world puppeteer) = browserClosed (world s).
Proof.
  intros o s Hne playwright puppeteer. subst playwright puppeteer.
  unfold PlaywrightBrowser.closeTab, PuppeteerBrowser.closeTab.
  rewrite !method_unfold, !safeRun_world.
  set (s0 := if truthy _ then _ else s).
  assert (Hs : session s0 = session s) by apply session_logged.
  assert (Hw : world s0 = world s) by apply world_logged.
  rewrite <- Hw. rewrite <- Hs in Hne. clearbody s0. clear Hs Hw.
  split; [|split; [|split]].
  - destruct (Browser.page (session s0)) as [p|] eqn:Hp.
    + now rewrite (playwright_closeTab_body_run s0 p Hp Hne).
    + unfold PlaywrightBrowser.closeTab_body. step_M. now rewrite Hp.
  - destruct (Browser.page (session s0)) as [p|] eqn:Hp.
    + now rewrite (playwright_closeTab_body_run s0 p Hp Hne).
    + unfold PlaywrightBrowser.closeTab_body. step_M. now rewrite Hp.
  - unfold PuppeteerBrowser.closeTab_body. run_M; read_fields; congruence.
  - unfold PuppeteerBrowser.closeTab_body. run_M; read_fields; congruence.
Qed.

(** A fresh Playwright session closes its only tab: the tab sequence is
    empty afterwards, context and browser are still open. *)
Lemma closeTab_releases_neither_context_nor_browser_witness :
  let s := Sample.playwright Sample.noConfig in
  let s' := snd (PlaywrightBrowser.closeTab None s) in
  Browser.tabs (session s) = [0%nat]
  /\ Browser.tabs (session s') = []
  /\ contextClosed (world s') = false
  /\ browserClosed (world s') = false.
Proof.
  intros s s'.
  assert (Hne : Browser.tabs (session s) <> []) by discriminate.
  destruct (closeTab_releases_neither_context_nor_browser None s Hne)
    as (Hc & Hb & _).
  split; [reflexivity|]. split; [reflexivity|].
  unfold s'. rewrite Hc, Hb. split; reflexivity.
Defined.

(* ===================================================================== *)
(** ** Opening a tab *)
(* ===================================================================== *)

(** What [openTab] does to a Playwright session with an open context: the
    new page goes to the end of the tab array and becomes the current
    index and page; the tabs that were there keep their index. *)
Lemma playwright_openTab_body_run (s : State) :
  contextClosed (world s) = false ->
  browserClosed (world s) = false ->
  let newPage := List.length (pages (world s)) in
  let tabs' := push (Browser.tabs (session s)) newPage in
  PlaywrightBrowser.openTab_body None s
  = (Ok tt,
     {| session := set_page (Some newPage)
                     (set_currentTab (JS.length tabs' - 1)
                        (set_tabs tabs' (session s)));
        world := withPages (world s) (pages (world s) ++ [blankPage])
                   false false;
        console := console s |})
  /\ get tabs' (JS.length tabs' - 1) = Some newPage
  /\ (forall i, 0 <= i <= JS.length (Browser.tabs (session s)) - 1 ->
                get tabs' i = get (Browser.tabs (session s)) i).
Proof.
  intros Hc Hb newPage tabs'. split; [|split].
  - unfold PlaywrightBrowser.openTab_body. step_M. rewrite Hc, Hb. reflexivity.
  - apply get_push_last.
  - intros i Hi. now apply get_push_old.
Qed.

(** With a URL that is served, the new page, and only it, is loaded; it
    shows the URL the engine reports for the one it was sent to. *)
Lemma playwright_openTab_navigates_new_tab (u : string) (dom : list node)
    (s : State) :
  contextClosed (world s) = false ->
  browserClosed (world s) = false ->
  truthy_string (Some u) = true ->
  site (world s) u = Some dom ->
  let newPage := List.length (pages (world s)) in
  fst (PlaywrightBrowser.openTab_body (Some u) s) = Ok tt
  /\ Browser.page (session (snd (PlaywrightBrowser.openTab_body (Some u) s)))
     = Some newPage
  /\ pages (world (snd (PlaywrightBrowser.openTab_body (Some u) s)))
     = (pages (world s)
        ++ [loadPage (landing (world s) u) dom blankPage])%list.
Proof.
  intros Hc Hb Hu Hsite newPage.
  unfold PlaywrightBrowser.openTab_body. step_M. rewrite Hc, Hb, Hu.
  cbn [orb]. step_M. read_fields.
  rewrite nth_error_app2 by lia. rewrite Nat.sub_diag. cbn [nth_error].
  cbn [pg_closed blankPage]. read_fields. rewrite Hsite. read_fields.
  repeat split.
  clear. induction (pages (world s)) as [|x l IH]; [reflexivity|].
  cbn. now rewrite IH.
Qed.

(** The scenario of the specification on Playwright: the second URL is
    current after [openTab], the first one again after [switchToTab(0)],
    in the form the first tab reports it. *)
Lemma playwright_openTab_scenario :
  let s1 := snd (PlaywrightBrowser.navigateTo "https://example.test" None
                   (Sample.playwright Sample.noConfig)) in
  let s2 := snd (PlaywrightBrowser.openTab (Some "https://example.test/2") None s1) in
  let s3 := snd (PlaywrightBrowser.switchToTab 0 None s2) in
  fst (PlaywrightBrowser.getUrl None s2) = Ok (Some "https://example.test/2")
  /\ fst (PlaywrightBrowser.getUrl None s3) = Ok (Some "https://example.test/").
Proof. split; reflexivity. Qed.

Lemma puppeteer_openTab_body_page (url : option string) (s : State) :
  Browser.page (session (snd (PuppeteerBrowser.openTab_body url s)))
  = Browser.page (session s).
Proof.
  unfold PuppeteerBrowser.openTab_body.
  unfold bind at 1, context_newPage, bind at 1, getWorld at 1.
  destruct (contextClosed (world s) || browserClosed (world s));
    [reflexivity|].
  cbn -[PuppeteerBrowser.navigateTo truthy_string].
  destruct url as [u|]; [|reflexivity].
  destruct (truthy_string (Some u)); [|reflexivity].
  unfold bind.
  match goal with
  | |- context [PuppeteerBrowser.navigateTo u None ?s1] =>
      pose proof (puppeteer_navigateTo_session u None s1) as Hs;
      destruct (PuppeteerBrowser.navigateTo u None s1) as [[r|e] s2]
  end; cbn in Hs |- *; now rewrite Hs.
Qed.

(** C4. What Puppeteer's [openTab] does.  It appends the new page and
    moves the index to it, but never reassigns [this.page]: for every
    session, URL and option object the current page after [openTab] is the
    one before.  On a fresh session that went to ["https://example.test"],
    [openTab("https://example.test/2")] therefore loads the second URL in
    the old tab and leaves the new tab blank; [getUrl()] answers the second
    URL from the old tab, and still answers it after [switchToTab(0)],
    where the scenario expects the first URL. *)
Theorem puppeteer_openTab_keeps_the_old_page_current :
  (forall (url : option string) (o : option actionOptions) (s : State),
      Browser.page (session (snd (PuppeteerBrowser.openTab url o s)))
      = Browser.page (session s))
  /\ let s1 := snd (PuppeteerBrowser.navigateTo "https://example.test" None
                      (Sample.puppeteer Sample.noConfig)) in
     let s2 := snd (PuppeteerBrowser.openTab
                      (Some "https://example.test/2") None s1) in
     let s3 := snd (PuppeteerBrowser.switchToTab 0 None s2) in
     Browser.tabs (session s2) = [0%nat; 1%nat]
     /\ Browser.currentTab (session s2) = 1
     /\ Browser.page (session s2) = Some 0%nat
     /\ List.map pg_url (pages (world s2))
        = ["https://example.test/2"; "about:blank"]
     /\ fst (PuppeteerBrowser.getUrl None s2)
        = Ok (Some "https://example.test/2")
     /\ fst (PuppeteerBrowser.getUrl None s3)
        = Ok (Some "https://example.test/2").
Proof.
  split.
  - intros url o s. unfold PuppeteerBrowser.openTab.
    rewrite method_unfold, safeRun_session, puppeteer_openTab_body_page.
    now rewrite session_logged.
  - cbv zeta. repeat split; reflexivity.
Qed.

(* ===================================================================== *)
(** ** Collections *)
(* ===================================================================== *)

(** A property of the accumulator that every successful iteration keeps
    holds of what the loop returns. *)
Lemma forIndexed_invariant {A Acc} (P : Acc -> Prop)
    (body : A -> nat -> Acc -> M Acc) :
  (forall el i acc s acc' s',
      P acc -> body el i acc s = (Ok acc', s') -> P acc') ->
  forall elements i acc s r s',
    P acc -> forIndexed elements i body acc s = (Ok r, s') -> P r.
Proof.
  intros Hbody elements.
  induction elements as [|el rest IH]; intros i acc s r s' Hacc Hrun.
  - cbn in Hrun. injection Hrun as <- _. exact Hacc.
  - cbn in Hrun. unfold bind in Hrun.
    destruct (body el i acc s) as [[acc'|e] s1] eqn:Hb; [|discriminate].
    eapply IH; [|exact Hrun]. eapply Hbody; eassumption.
Qed.

(** A body that only pushes a value computed from the item and its index
    visits the items in order, with the indices in ascending order. *)
Lemma forIndexed_push {A B} (g : A -> nat -> B)
    (body : A -> nat -> list B -> M (list B)) :
  (forall el i acc s, body el i acc s = (Ok (push acc (g el i)), s)) ->
  forall elements i acc s,
    forIndexed elements i body acc s
    = (Ok (acc ++ indexedFrom g i elements)%list, s).
Proof.
  intros Hbody elements.
  induction elements as [|el rest IH]; intros i acc s.
  - cbn. unfold ret. now rewrite app_nil_r.
  - cbn. unfold bind. rewrite Hbody, IH. unfold push.
    now rewrite <- app_assoc.
Qed.

Lemma forRange_push {B} (g : nat -> list B)
    (body : nat -> list B -> M (list B)) :
  (forall i acc s, body i acc s = (Ok (acc ++ g i)%list, s)) ->
  forall k i acc s,
    forRange k i body acc s
    = (Ok (acc ++ flat_map g (seq i k))%list, s).
Proof.
  intros Hbody k.
  induction k as [|k IH]; intros i acc s.
  - cbn. unfold ret. now rewrite app_nil_r.
  - cbn. unfold bind. rewrite Hbody, IH. now rewrite <- app_assoc.
Qed.

Lemma page_queryAll_open (p : Page) (sel : string) (ps : PageState) (s : State) :
  nth_error (pages (world s)) p = Some ps ->
  pg_closed ps = false ->
  page_queryAll p sel s = (Ok (matching (world s) sel (pg_dom ps)), s).
Proof.
  intros Hp Hc. unfold page_queryAll, bind.
  now rewrite (openPage_open p ps s Hp Hc).
Qed.

Lemma page_query_state (p : Page) (sel : string) (s : State) :
  exists pr, page_query p sel s = (Ok pr, s).
Proof. unfold page_query, unawaited. eauto. Qed.

(** [forEach], [filter] and [map] of Puppeteer ask the page again for the
    matches when they are called, and call back once per match, in
    document order, with the index of the match and a child that holds
    the handle of that match. *)
Lemma puppeteer_map_visits_matches_in_order (self : PuppeteerSelector.t)
    (o : option actionOptions) (ps : PageState) (s : State) :
  nth_error (pages (world s)) (PuppeteerSelector.page self) = Some ps ->
  pg_closed ps = false ->
  fst (PuppeteerSelector.map self
         (fun c i => ret (PuppeteerSelector.elementHandle c, i)) o s)
  = Ok (Some (indexedFrom (fun h i => (PuppeteerSelector.Handle h, i)) 0
                (matching (world s) (PuppeteerSelector.selectorString self)
                   (pg_dom ps)))).
Proof.
  intros Hp Hc. unfold PuppeteerSelector.map. rewrite safeRun_unfold.
  unfold bind at 1.
  rewrite (page_queryAll_open _ _ ps) by (rewrite ?world_logged; assumption).
  rewrite (forIndexed_push (fun h i => (PuppeteerSelector.Handle h, i))).
  - now rewrite world_logged.
  - intros el i acc s1. unfold bind, PuppeteerSelector.child, bind.
    destruct (page_query_state (PuppeteerSelector.page self)
                (PuppeteerSelector.selectorString self) s1) as [pr ->].
    reflexivity.
Qed.

(** The sibling: Playwright's [filter] returns the children it called
    back with, those the callback kept, in ascending index order. *)
Lemma playwright_filter_returns_children (self : PlaywrightSelector.t)
    (keep : nat -> bool) (n : nat) (s : State) :
  locatorCount (world s) (PlaywrightSelector.locator self) (pages (world s))
  = Ok n ->
  PlaywrightSelector.filter self (fun _ i => ret (keep i)) s
  = (Ok (List.map
           (fun i => PlaywrightSelector.new
                       (NthLocator (PlaywrightSelector.locator self) (Z.of_nat i))
                       (PlaywrightSelector.config self))
           (List.filter keep (seq 0 n))), s).
Proof.
  intros Hn. unfold PlaywrightSelector.filter, PlaywrightSelector.locator_count.
  step_M. rewrite Hn.
  rewrite (forRange_push
    (fun i => if keep i
              then [PlaywrightSelector.new
                      (NthLocator (PlaywrightSelector.locator self) (Z.of_nat i))
                      (PlaywrightSelector.config self)]
              else [])).
  - cbn [app]. f_equal. f_equal.
    induction (seq 0 n) as [|i l IH]; [reflexivity|].
    cbn. destruct (keep i); cbn; now rewrite IH.
  - intros i acc s1. step_M. destruct (keep i); [reflexivity|].
    now rewrite app_nil_r.
Qed.

(** C7. What Puppeteer's [filter] returns.  Whatever the element, the
    callback, the options and the state, every item of the array a
    successful [filter] returns is a bare engine handle cast to
    [IBaseElement], never one of the child elements the callback was
    given: the loop pushes [element], not the child it built. *)
Theorem puppeteer_filter_returns_engine_handles :
  forall (self : PuppeteerSelector.t)
         (callback : PuppeteerSelector.t -> nat -> M bool)
         (o : option actionOptions) (s s' : State)
         (kept : list PuppeteerSelector.IBaseElement),
    PuppeteerSelector.filter self callback o s = (Ok (Some kept), s') ->
    forall x, In x kept -> exists h, x = PuppeteerSelector.CastHandle h.
Proof.
  intros self callback o s s' kept Hrun.
  unfold PuppeteerSelector.filter in Hrun. rewrite safeRun_unfold in Hrun.
  match type of Hrun with
  | context [bind ?c ?k ?s0] =>
      destruct (bind c k s0) as [[r|e] s1] eqn:Hbody
  end.
  2: { destruct (truthy _) in Hrun; [discriminate|].
       injection Hrun as Hk _. discriminate. }
  injection Hrun as -> ->.
  unfold bind at 1 in Hbody.
  destruct (page_queryAll _ _ _) as [[elements|e] s2]; [|discriminate].
  revert Hbody.
  apply (forIndexed_invariant
           (fun acc => forall x, In x acc ->
                                 exists h, x = PuppeteerSelector.CastHandle h)).
  - intros el i acc s3 acc' s4 Hacc Hstep. unfold bind in Hstep.
    destruct (PuppeteerSelector.child self el s3) as [[c|e] s5];
      [|discriminate].
    destruct (callback c i s5) as [[b|e] s6]; [|discriminate].
    injection Hstep as <- _.
    destruct b; [|exact Hacc].
    intros x Hx. apply in_app_or in Hx. destruct Hx as [Hx|[<-|[]]]; eauto.
  - intros x [].
Qed.

(** On the list page, keeping every [li] yields the two handles. *)
Lemma puppeteer_filter_returns_engine_handles_witness :
  fst (PuppeteerSelector.filter Sample.items (fun _ _ => ret true) None
         Sample.listPage)
  = Ok (Some [PuppeteerSelector.CastHandle 1%nat;
              PuppeteerSelector.CastHandle 2%nat])
  /\ forall x,
       In x [PuppeteerSelector.CastHandle 1%nat;
             PuppeteerSelector.CastHandle 2%nat] ->
       exists h, x = PuppeteerSelector.CastHandle h.
Proof.
  split; [reflexivity|].
  apply (puppeteer_filter_returns_engine_handles Sample.items
           (fun _ _ => ret true) None Sample.listPage
           (snd (PuppeteerSelector.filter Sample.items (fun _ _ => ret true)
                   None Sample.listPage))).
  reflexivity.
Defined.

(* ===================================================================== *)
(** ** [nth] *)
(* ===================================================================== *)

(** An element without a handle cannot read a property of its node. *)
Lemma getText_without_handle (el : PuppeteerSelector.t)
    (o : option actionOptions) (s : State) :
  PuppeteerSelector.elementHandle el = PuppeteerSelector.NoHandle ->
  fst (PuppeteerSelector.getText el o s)
  = (if truthy (throwOnFail (callOptions "Getting text from element"
                               (PuppeteerSelector.actionOptions el) o))
     then Throw (TypeError
                   "Cannot read properties of undefined (reading 'getProperty')")
     else Ok None).
Proof.
  intros Hh. unfold PuppeteerSelector.getText. rewrite safeRun_unfold.
  rewrite Hh. cbn. now destruct (truthy _).
Qed.

(** The sibling: Playwright's [nth] scopes the recipe to the index and
    checks nothing. *)
Lemma playwright_nth_scopes_locator (self : PlaywrightSelector.t) (index : Z) :
  PlaywrightSelector.locator (PlaywrightSelector.nth self index)
  = NthLocator (PlaywrightSelector.locator self) index.
Proof. reflexivity. Qed.

(** C8. What Puppeteer's [nth] returns.  For every element, index and
    state, [nth(index)] returns, without failing and without changing
    anything, an element with the selector and page of its parent and no
    handle at all: the handle is read off the promise of [page.$$], not
    off its array.  Reading the text of that element fails with a
    [TypeError] for every index, in range or not (thrown or swallowed as
    the policy says).  On the list page, where [li] matches two nodes,
    [nth(1).getText()] throws, and [nth(1).getHTML()] answers the HTML of
    the first match, while the child that [forEach] builds for the second
    match reads the text of the second match. *)
Theorem puppeteer_nth_captures_no_handle :
  (forall (self : PuppeteerSelector.t) (index : Z) (s : State),
      exists el,
        PuppeteerSelector.nth self index s = (Ok el, s)
        /\ PuppeteerSelector.elementHandle el = PuppeteerSelector.NoHandle
        /\ PuppeteerSelector.selectorString el
           = PuppeteerSelector.selectorString self
        /\ PuppeteerSelector.page el = PuppeteerSelector.page self
        /\ forall o s1,
             fst (PuppeteerSelector.getText el o s1)
             = (if truthy (throwOnFail
                             (callOptions "Getting text from element"
                                (PuppeteerSelector.actionOptions el) o))
                then Throw (TypeError
                  "Cannot read properties of undefined (reading 'getProperty')")
                else Ok None))
  /\ fst (PuppeteerSelector.count Sample.items None Sample.listPage)
     = Ok (Some 2%nat)
  /\ (exists second,
        fst (PuppeteerSelector.nth Sample.items 1 Sample.listPage) = Ok second
        /\ fst (PuppeteerSelector.getText second None Sample.listPage)
           = Throw (TypeError
               "Cannot read properties of undefined (reading 'getProperty')")
        /\ fst (PuppeteerSelector.getHTML second None Sample.listPage)
           = Ok (Some (innerHTML Sample.item1)))
  /\ (exists child,
        fst (PuppeteerSelector.child Sample.items 2%nat Sample.listPage)
        = Ok child
        /\ fst (PuppeteerSelector.getText child None Sample.listPage)
           = Ok (Some ("JSHandle:" ++ innerText Sample.item2))).
Proof.
  split; [|split; [|split]].
  - intros self index s.
    unfold PuppeteerSelector.nth, bind.
    destruct (page_query_state (PuppeteerSelector.page self)
                (PuppeteerSelector.selectorString self) s) as [pr ->].
    unfold unawaited, ret.
    eexists. split; [reflexivity|].
    repeat split.
    intros o s1. now apply getText_without_handle.
  - reflexivity.
  - eexists. split; [reflexivity|]. split; reflexivity.
  - eexists. split; reflexivity.
Qed.

(* ===================================================================== *)
(** ** [isEnabled] of Puppeteer *)
(* ===================================================================== *)

(** C10. For every Puppeteer element on an open page, [isEnabled] looks at
    the first node of the page that matches the fixed selector
    ["button"]: it returns the [disabled] property of that node, so [true]
    exactly when that button is disabled; when the page has no such node
    the operation fails, which [safeRun] throws or swallows.  Neither the
    selector, nor the locator, nor the handle of the element takes part:
    two elements on the same page with the same options get the same
    answer. *)
Theorem puppeteer_isEnabled_reads_first_button_disabled :
  forall (self : PuppeteerSelector.t) (o : option actionOptions)
         (ps : PageState) (s : State),
    nth_error (pages (world s)) (PuppeteerSelector.page self) = Some ps ->
    pg_closed ps = false ->
    let merged := callOptions "Checking if element is enabled"
                    (PuppeteerSelector.actionOptions self) o in
    (forall button rest,
        filter (matches (world s) "button") (pg_dom ps) = button :: rest ->
        fst (PuppeteerSelector.isEnabled self o s) = Ok (Some (disabled button)))
    /\ (filter (matches (world s) "button") (pg_dom ps) = [] ->
        fst (PuppeteerSelector.isEnabled self o s)
        = (if truthy (throwOnFail merged)
           then Throw (DriverError
                         "failed to find element matching selector button")
           else Ok None))
    /\ (forall other : PuppeteerSelector.t,
          PuppeteerSelector.page other = PuppeteerSelector.page self ->
          PuppeteerSelector.actionOptions other
          = PuppeteerSelector.actionOptions self ->
          PuppeteerSelector.isEnabled other o s
          = PuppeteerSelector.isEnabled self o s).
Proof.
  intros self o ps s Hp Hc merged. split; [|split].
  - intros button rest Hm. unfold PuppeteerSelector.isEnabled.
    rewrite safeRun_unfold.
    rewrite (page_eval_first _ _ _ ps button rest);
      rewrite ?world_logged; try assumption. reflexivity.
  - intros Hm. unfold PuppeteerSelector.isEnabled. fold merged.
    rewrite safeRun_unfold.
    rewrite (page_eval_none _ _ _ ps);
      rewrite ?world_logged; try assumption.
    now destruct (truthy (throwOnFail merged)).
  - intros other Hpage Hopts. unfold PuppeteerSelector.isEnabled.
    now rewrite Hpage, Hopts.
Qed.

(** On the list page the only button is disabled: [isEnabled] of the list
    items answers [true]. *)
Lemma puppeteer_isEnabled_reads_first_button_disabled_witness :
  disabled Sample.submit = true
  /\ fst (PuppeteerSelector.isEnabled Sample.items None Sample.listPage)
     = Ok (Some true).
Proof.
  split; [reflexivity|].
  apply (proj1 (puppeteer_isEnabled_reads_first_button_disabled
                  Sample.items None
                  {| pg_url := "https://example.test/list";
                     pg_closed := false;
                     pg_dom := [Sample.item1; Sample.item2; Sample.submit] |}
                  Sample.listPage eq_refl eq_refl)
           Sample.submit []).
  reflexivity.
Defined.

(* ===================================================================== *)
(** ** Reachable sessions *)
(* ===================================================================== *)

Lemma nth_error_updateAt {A} (l : list A) (i j : nat) (f : A -> A) :
  nth_error (updateAt l i f) j
  = if Nat.eqb i j then option_map f (nth_error l j) else nth_error l j.
Proof.
  revert i j. induction l as [|x l IH]; intros i j.
  - destruct i, j; cbn; try reflexivity; now destruct (Nat.eqb _ _).
  - destruct i as [|i], j as [|j]; cbn; try reflexivity. apply IH.
Qed.

Lemma updateAt_last {A} (l : list A) (x : A) (f : A -> A) :
  updateAt (l ++ [x]) (List.length l) f = (l ++ [f x])%list.
Proof.
  induction l as [|y l IH]; [reflexivity|]. cbn. now rewrite IH.
Qed.

(** The array without the item at an index that holds [p]. *)
Lemma splice1_removes {A} (arr : list A) (i : Z) (p : A) :
  get arr i = Some p ->
  exists before after_,
    arr = (before ++ p :: after_)%list
    /\ Z.of_nat (List.length before) = i
    /\ splice1 arr i = (before ++ after_)%list.
Proof.
  intros Hg. unfold get in Hg.
  destruct (Z.ltb_spec i 0) as [|Hi]; [discriminate|].
  destruct (nth_error_split _ _ Hg) as (l1 & l2 & Harr & Hlen).
  exists l1, l2. split; [exact Harr|]. split; [lia|].
  assert (Hr : 0 <= i <= JS.length arr - 1).
  { unfold JS.length. rewrite Harr, length_app. cbn [List.length]. lia. }
  destruct (splice1_in_range arr i Hr) as [-> _].
  rewrite Harr, <- Hlen.
  rewrite firstn_app, firstn_all, Nat.sub_diag. cbn [firstn].
  rewrite app_nil_r.
  change (S (List.length l1)) with (1 + List.length l1)%nat.
  rewrite <- skipn_skipn.
  rewrite skipn_app, skipn_all, Nat.sub_diag. reflexivity.
Qed.

Lemma tabsLive_remove (tabs : list Page) (w : World) (i : Z) (p : Page) :
  tabsLive tabs w ->
  get tabs i = Some p ->
  tabsLive (splice1 tabs i)
    (withPages w (updateAt (pages w) p closePage)
       (contextClosed w) (browserClosed w)).
Proof.
  intros [Hnd Hlive] Hg.
  destruct (splice1_removes tabs i p Hg) as (l1 & l2 & -> & _ & ->).
  apply NoDup_remove in Hnd. destruct Hnd as [Hnd Hnotin].
  split; [exact Hnd|].
  intros t Ht.
  destruct (Hlive t) as (ps & Hps & Hc).
  { apply in_app_or in Ht. apply in_or_app.
    destruct Ht; [now left|right; now right]. }
  exists ps. split; [|exact Hc].
  cbn [pages withPages]. rewrite nth_error_updateAt.
  destruct (Nat.eqb_spec p t) as [->|]; [contradiction|exact Hps].
Qed.

Lemma nth_error_in_range {A} (l : list A) (i : nat) (a : A) :
  nth_error l i = Some a -> (i < List.length l)%nat.
Proof. intros H. apply nth_error_Some. now rewrite H. Qed.

Lemma tabsLive_push (tabs : list Page) (w : World) (x : PageState) :
  tabsLive tabs w ->
  pg_closed x = false ->
  tabsLive (push tabs (List.length (pages w)))
    (withPages w (pages w ++ [x]) (contextClosed w) (browserClosed w)).
Proof.
  intros [Hnd Hlive] Hx. unfold push. split.
  - apply NoDup_app; [exact Hnd|repeat constructor; intros []|].
    intros t Ht [<-|[]].
    destruct (Hlive _ Ht) as (ps & Hps & _).
    apply nth_error_in_range in Hps. lia.
  - intros t Ht. cbn [pages withPages].
    apply in_app_or in Ht. destruct Ht as [Ht|[<-|[]]].
    + destruct (Hlive _ Ht) as (ps & Hps & Hc).
      exists ps. split; [|exact Hc].
      rewrite nth_error_app1; [exact Hps|].
      now apply nth_error_in_range in Hps.
    + exists x. split; [|exact Hx].
      rewrite nth_error_app2 by lia. now rewrite Nat.sub_diag.
Qed.

Lemma page_goto_live (p : Page) (url : string) (s : State) (tabs : list Page) :
  tabsLive tabs (world s) ->
  tabsLive tabs (world (snd (page_goto p url s))).
Proof.
  intros [Hnd Hlive]. run_M; try (split; assumption).
  split; [exact Hnd|]. intros t Ht. read_fields.
  destruct (Hlive t Ht) as (ps & Hps & Hc).
  rewrite nth_error_updateAt.
  destruct (Nat.eqb_spec p t) as [->|].
  - rewrite Hps. cbn. eexists. split; [reflexivity|exact Hc].
  - eauto.
Qed.

Lemma page_goto_wellFormed (p : Page) (url : string) (s : State) :
  wellFormed s -> wellFormed (snd (page_goto p url s)).
Proof.
  intros (Hi & Hp & Hl). unfold wellFormed.
  rewrite page_goto_session. split; [exact Hi|]. split; [exact Hp|].
  now apply page_goto_live.
Qed.

(** Logging does not touch what well-formedness speaks of. *)
Lemma wellFormed_same (s s' : State) :
  session s' = session s -> world s' = world s ->
  wellFormed s -> wellFormed s'.
Proof. unfold wellFormed. now intros -> ->. Qed.

Lemma playwright_openTab_body_wellFormed (url : option string) (s : State) :
  wellFormed s -> wellFormed (snd (PlaywrightBrowser.openTab_body url s)).
Proof.
  intros (Hi & Hp & Hl). unfold PlaywrightBrowser.openTab_body.
  cbv beta iota delta
    [bind ret throw this assign getWorld putWorld deref context_newPage].
  cbn [fst snd session world console].
  destruct (contextClosed (world s) || browserClosed (world s)).
  { exact (conj Hi (conj Hp Hl)). }
  cbn [fst snd session world console].
  match goal with |- wellFormed (snd (_ ?s1)) => set (s2 := s1) end.
  assert (H2 : wellFormed s2).
  { unfold s2, wellFormed. read_fields. split; [|split].
    - apply last_index_in_range. reflexivity.
    - unfold pageIsCurrent. read_fields. symmetry. apply get_push_last.
    - apply tabsLive_push; [exact Hl|reflexivity]. }
  clearbody s2.
  destruct url as [u|]; [destruct (truthy_string (Some u))|]; try exact H2.
  destruct (Browser.page (session s2)) as [p|]; [|exact H2].
  now apply page_goto_wellFormed.
Qed.

Lemma playwright_closeTab_body_wellFormed (s : State) :
  wellFormed s -> wellFormed (snd (PlaywrightBrowser.closeTab_body s)).
Proof.
  intros (Hi & Hp & Hl).
  destruct (Browser.page (session s)) as [p|] eqn:Hpage.
  - assert (Hg : get (Browser.tabs (session s))
                   (Browser.currentTab (session s)) = Some p)
      by (now rewrite <- Hp).
    assert (Hne : Browser.tabs (session s) <> []).
    { intros He. rewrite He in Hg. unfold get in Hg.
      destruct (_ <? 0); [discriminate|].
      now destruct (Z.to_nat _). }
    rewrite (playwright_closeTab_body_run s p Hpage Hne).
    unfold wellFormed. read_fields. split; [|split].
    + apply last_index_in_range. reflexivity.
    + reflexivity.
    + now apply tabsLive_remove.
  - unfold PlaywrightBrowser.closeTab_body. step_M. rewrite Hpage.
    exact (conj Hi (conj Hp Hl)).
Qed.

Lemma switchToTab_body_wellFormed (tabNumber : Z) (s : State) :
  wellFormed s ->
  wellFormed (snd (PlaywrightBrowser.switchToTab_body tabNumber s)).
Proof.
  intros (Hi & Hp & Hl).
  destruct (Z_lt_ge_dec tabNumber 0) as [Hlt|Hge].
  { rewrite switchToTab_body_out_of_range by (now left).
    exact (conj Hi (conj Hp Hl)). }
  destruct (Z_gt_le_dec tabNumber (JS.length (Browser.tabs (session s)) - 1))
    as [Hgt|Hle].
  { rewrite switchToTab_body_out_of_range by (now right).
    exact (conj Hi (conj Hp Hl)). }
  destruct (switchToTab_body_in_range tabNumber s) as (p & Hg & ->); [lia|].
  unfold wellFormed, pageIsCurrent, tabInvariant. read_fields.
  split; [intros _; lia|]. split; [now rewrite Hg|exact Hl].
Qed.

Lemma playwright_step_wellFormed (op : tabOperation) (s : State) :
  wellFormed s -> wellFormed (snd (runPlaywright op s)).
Proof.
  intros Hwf.
  assert (Hlog : forall b e, wellFormed (if b : bool then console_log e s else s)).
  { intros b e. apply (wellFormed_same s); [apply session_logged|
      apply world_logged|exact Hwf]. }
  destruct op as [url o|o|i o]; cbn [runPlaywright];
    unfold PlaywrightBrowser.openTab, PlaywrightBrowser.closeTab,
           PlaywrightBrowser.switchToTab;
    rewrite method_unfold;
    match goal with
    | |- wellFormed (snd (safeRun ?opts ?body s)) =>
        apply (wellFormed_same
                 (snd (body (if truthy (log opts)
                             then console_log (LogMessage (message opts)) s
                             else s))));
          [apply safeRun_session|apply safeRun_world|]
    end.
  - apply playwright_openTab_body_wellFormed, Hlog.
  - apply playwright_closeTab_body_wellFormed, Hlog.
  - apply switchToTab_body_wellFormed, Hlog.
Qed.

(** X1. Whatever sequence of [openTab], [closeTab] and [switchToTab] calls
    a Playwright session has gone through since [init], with whatever
    URLs, indices and options and whether or not the calls failed: the
    current index points into the tab array when that is not empty, the
    current page is the tab at the current index, no page is listed twice,
    and every listed tab is a page that is still open. *)
Theorem playwright_sessions_stay_well_formed :
  forall (config : Config.baseConfig) (engine : World) (s0 : State)
         (ops : list tabOperation),
    PlaywrightBrowser.init config engine = Ok s0 ->
    let s := after runPlaywright ops s0 in
    let tabs := Browser.tabs (session s) in
    (tabs <> [] -> 0 <= Browser.currentTab (session s) < JS.length tabs)
    /\ Browser.page (session s) = get tabs (Browser.currentTab (session s))
    /\ NoDup tabs
    /\ (forall t, In t tabs ->
          exists ps, nth_error (pages (world s)) t = Some ps
                     /\ pg_closed ps = false).
Proof.
  intros config engine s0 ops Hinit.
  assert (H0 : wellFormed s0).
  { rewrite (init_returned config engine s0 (or_introl Hinit)).
    split; [|split].
    - intros _. cbn. lia.
    - reflexivity.
    - split.
      + cbn. repeat constructor. intros [].
      + intros t [<-|[]]. exists blankPage. split; reflexivity. }
  clear Hinit.
  assert (H : wellFormed (after runPlaywright ops s0)).
  { revert s0 H0. unfold after.
    induction ops as [|op ops IH]; intros s0 H0; [exact H0|].
    cbn. apply IH. now apply playwright_step_wellFormed. }
  destruct H as (Hi & Hp & Hnd & Hl).
  exact (conj Hi (conj Hp (conj Hnd Hl))).
Qed.

(** Three calls on a fresh session with the default configuration. *)
Lemma playwright_sessions_stay_well_formed_witness :
  let s := after runPlaywright
             [OpenTab (Some "https://example.test") None;
              SwitchToTab 0 None; CloseTab None]
             (Sample.playwright Sample.noConfig) in
  Browser.tabs (session s) = [1%nat]
  /\ Browser.page (session s)
     = get (Browser.tabs (session s)) (Browser.currentTab (session s))
  /\ NoDup (Browser.tabs (session s)).
Proof.
  intros s.
  destruct (playwright_sessions_stay_well_formed Sample.noConfig Sample.engine
              (Sample.playwright Sample.noConfig)
              [OpenTab (Some "https://example.test") None;
               SwitchToTab 0 None; CloseTab None] eq_refl)
    as (_ & Hp & Hnd & _).
  split; [reflexivity|]. split; [exact Hp|exact Hnd].
Defined.

Lemma puppeteer_navigateTo_live (url : string) (o : option actionOptions)
    (s : State) (tabs : list Page) :
  tabsLive tabs (world s) ->
  tabsLive tabs (world (snd (PuppeteerBrowser.navigateTo url o s))).
Proof.
  intros Hl. unfold PuppeteerBrowser.navigateTo.
  rewrite method_unfold, safeRun_world.
  set (s0 := if truthy _ then _ else s).
  assert (H0 : tabsLive tabs (world s0))
    by (unfold s0; now rewrite world_logged).
  clearbody s0.
  cbv beta iota delta [bind this deref ret throw].
  destruct (Browser.page (session s0)) as [p|]; [|exact H0].
  now apply page_goto_live.
Qed.

Lemma puppeteer_openTab_body_good (url : option string) (s : State) :
  tabInvariant (session s) /\ tabsLive (Browser.tabs (session s)) (world s) ->
  let s' := snd (PuppeteerBrowser.openTab_body url s) in
  tabInvariant (session s') /\ tabsLive (Browser.tabs (session s')) (world s').
Proof.
  intros [Hi Hl]. split; [now apply puppeteer_openTab_body_invariant|].
  unfold PuppeteerBrowser.openTab_body.
  cbv beta iota delta
    [bind ret throw this assign getWorld putWorld deref context_newPage].
  cbn [fst snd session world console].
  destruct (contextClosed (world s) || browserClosed (world s)); [exact Hl|].
  cbn [fst snd session world console].
  match goal with |- context [snd (_ ?s1)] => set (s2 := s1) end.
  assert (H2 : tabsLive (Browser.tabs (session s2)) (world s2)).
  { unfold s2. read_fields. apply tabsLive_push; [exact Hl|reflexivity]. }
  clearbody s2.
  destruct url as [u|]; [destruct (truthy_string (Some u))|]; try exact H2.
  pose proof (puppeteer_navigateTo_session u None s2) as Hs.
  pose proof (puppeteer_navigateTo_live u None s2 _ H2) as Hw.
  destruct (PuppeteerBrowser.navigateTo u None s2) as [[r|e] s3];
    cbn [fst snd] in *; now rewrite Hs.
Qed.

Lemma get_In {A} (arr : list A) (i : Z) (a : A) :
  get arr i = Some a -> In a arr.
Proof.
  unfold get. destruct (i <? 0); [discriminate|]. apply nth_error_In.
Qed.

Lemma puppeteer_closeTab_body_good (s : State) :
  tabInvariant (session s) /\ tabsLive (Browser.tabs (session s)) (world s) ->
  let s' := snd (PuppeteerBrowser.closeTab_body s) in
  tabInvariant (session s') /\ tabsLive (Browser.tabs (session s')) (world s').
Proof.
  intros [Hi Hl]. split; [now apply puppeteer_closeTab_body_invariant|].
  destruct (get (Browser.tabs (session s)) (Browser.currentTab (session s)))
    as [p|] eqn:Hg.
  - destruct (browserClosed (world s)) eqn:Hb.
    + rewrite (puppeteer_closeTab_body_closed s p Hg) by now left.
      exact Hl.
    + destruct (proj2 Hl p (get_In _ _ _ Hg)) as (ps & Hps & Hc).
      rewrite (puppeteer_closeTab_body_run s p ps Hg Hb Hps Hc). read_fields.
      now apply tabsLive_remove.
  - unfold PuppeteerBrowser.closeTab_body. step_M. now rewrite Hg.
Qed.

Lemma puppeteer_step_good (op : tabOperation) (s : State) :
  tabInvariant (session s) /\ tabsLive (Browser.tabs (session s)) (world s) ->
  let s' := snd (runPuppeteer op s) in
  tabInvariant (session s') /\ tabsLive (Browser.tabs (session s')) (world s').
Proof.
  intros H.
  assert (Hlog : forall b e,
    let s0 := if b : bool then console_log e s else s in
    tabInvariant (session s0)
    /\ tabsLive (Browser.tabs (session s0)) (world s0)).
  { intros b e. cbv zeta. now rewrite session_logged, world_logged. }
  destruct op as [url o|o|i o]; cbn [runPuppeteer];
    unfold PuppeteerBrowser.openTab, PuppeteerBrowser.closeTab,
           PuppeteerBrowser.switchToTab;
    rewrite method_unfold; cbv zeta;
    rewrite safeRun_session, safeRun_world.
  - apply puppeteer_openTab_body_good, Hlog.
  - apply puppeteer_closeTab_body_good, Hlog.
  - set (s0 := if truthy _ then _ else s).
    destruct (Hlog (truthy (log (callOptions
                ("Switching to tab " ++ string_of_Z i)
                (Browser.actionOptions (session s)) o)))
               (LogMessage (message (callOptions
                ("Switching to tab " ++ string_of_Z i)
                (Browser.actionOptions (session s)) o)))) as [Hi Hl].
    fold s0 in Hi, Hl. clearbody s0.
    split; [now apply switchToTab_body_invariant|].
    change PuppeteerBrowser.switchToTab_body
      with PlaywrightBrowser.switchToTab_body.
    destruct (Z_lt_ge_dec i 0) as [Hlt|Hge].
    { now rewrite switchToTab_body_out_of_range by (now left). }
    destruct (Z_gt_le_dec i (JS.length (Browser.tabs (session s0)) - 1))
      as [Hgt|Hle].
    { now rewrite switchToTab_body_out_of_range by (now right). }
    destruct (switchToTab_body_in_range i s0) as (p & Hg & ->); [lia|].
    exact Hl.
Qed.

(** X2. Whatever sequence of [openTab], [closeTab] and [switchToTab] calls
    a Puppeteer session has gone through since [init]: the current index
    points into the tab array when that is not empty, no page is listed
    twice, and every listed tab is a page that is still open. *)
Theorem puppeteer_sessions_keep_index_and_tabs :
  forall (config : Config.baseConfig) (engine : World) (s0 : State)
         (ops : list tabOperation),
    PuppeteerBrowser.init config engine = Ok s0 ->
    let s := after runPuppeteer ops s0 in
    let tabs := Browser.tabs (session s) in
    (tabs <> [] -> 0 <= Browser.currentTab (session s) < JS.length tabs)
    /\ NoDup tabs
    /\ (forall t, In t tabs ->
          exists ps, nth_error (pages (world s)) t = Some ps
                     /\ pg_closed ps = false).
Proof.
  intros config engine s0 ops Hinit.
  assert (H0 : tabInvariant (session s0)
               /\ tabsLive (Browser.tabs (session s0)) (world s0)).
  { rewrite (init_returned config engine s0 (or_intror Hinit)). split.
    - intros _. cbn. lia.
    - split.
      + cbn. repeat constructor. intros [].
      + intros t [<-|[]]. exists blankPage. split; reflexivity. }
  clear Hinit.
  assert (H : tabInvariant (session (after runPuppeteer ops s0))
              /\ tabsLive (Browser.tabs (session (after runPuppeteer ops s0)))
                   (world (after runPuppeteer ops s0))).
  { revert s0 H0. unfold after.
    induction ops as [|op ops IH]; intros s0 H0; [exact H0|].
    cbn. apply IH. now apply puppeteer_step_good. }
  destruct H as (Hi & Hnd & Hl).
  exact (conj Hi (conj Hnd Hl)).
Qed.

Lemma puppeteer_sessions_keep_index_and_tabs_witness :
  let s := after runPuppeteer
             [OpenTab (Some "https://example.test") None;
              SwitchToTab 0 None; CloseTab None]
             (Sample.puppeteer Sample.noConfig) in
  Browser.tabs (session s) = [1%nat]
  /\ Browser.currentTab (session s) = 0
  /\ NoDup (Browser.tabs (session s)).
Proof.
  intros s.
  destruct (puppeteer_sessions_keep_index_and_tabs Sample.noConfig Sample.engine
              (Sample.puppeteer Sample.noConfig)
              [OpenTab (Some "https://example.test") None;
               SwitchToTab 0 None; CloseTab None] eq_refl)
    as (_ & Hnd & _).
  split; [reflexivity|]. split; [reflexivity|exact Hnd].
Defined.

(* ===================================================================== *)
(** ** Starting a session *)
(* ===================================================================== *)

Lemma launcherOf_chosen (b : prop string) :
  match PlaywrightBrowser.launcherOf b with
  | Some Chromium => b = Value "chromium"
  | Some Firefox => b = Value "firefox"
  | Some Webkit => b = Value "webkit"
  | Some Puppeteer => False
  | None =>
      b <> Value "chromium" /\ b <> Value "firefox" /\ b <> Value "webkit"
  end.
Proof.
  destruct b as [| |name]; cbn; try (repeat split; discriminate).
  destruct (String.eqb_spec name "chromium") as [->|H1]; [reflexivity|].
  destruct (String.eqb_spec name "firefox") as [->|H2]; [reflexivity|].
  destruct (String.eqb_spec name "webkit") as [->|H3]; [reflexivity|].
  repeat split; intros H; injection H as ->; contradiction.
Qed.

(** [start] hands on the first failure of its three calls, and returns
    the fresh session when there is none. *)
Lemma start_outcome (l : launcher) (config : Config.baseConfig)
    (engine : World) :
  let launching := launch engine l (read (Config.headless config))
                     (read (Config.actionTimeout config)) in
  (forall e, launching = Throw e -> start l config engine = Throw e)
  /\ (launching = Ok tt ->
      forall e, newContext engine = Throw e ->
                start l config engine = Throw e)
  /\ (launching = Ok tt -> newContext engine = Ok tt ->
      forall e, firstPage engine = Throw e ->
                start l config engine = Throw e)
  /\ (launching = Ok tt -> newContext engine = Ok tt ->
      firstPage engine = Ok tt ->
      start l config engine
      = Ok {| session := newBrowser 0%nat config;
              world := launched engine;
              console := [] |}).
Proof.
  cbv zeta. unfold start, awaited.
  split; [|split; [|split]].
  - now intros e ->.
  - now intros -> e ->.
  - now intros -> -> e ->.
  - now intros -> -> ->.
Qed.

(** X3. [PlaywrightBrowser.init] looks at the browser of the resolved
    configuration before it asks the engine anything: unless that is
    ["chromium"], ["firefox"] or ["webkit"] it throws "Browser ... is not
    supported for playwright", whatever the engine would do.  Otherwise
    it launches that browser with the resolved [headless] and
    [actionTimeout], and the first of the launch, the context and the
    first page that fails is what [init] throws; it returns a session
    exactly when the three succeed.  [PuppeteerBrowser.init] does the
    same with its own launcher and never looks at the browser of the
    configuration.  The session either returns is built from the
    resolved configuration and has one blank open tab, which is the
    current one, and nothing logged. *)
Theorem playwright_init_accepts_three_browsers :
  forall (config : Config.baseConfig) (engine : World),
    let resolved := Config.configOverrides config in
    let b := Config.browser resolved in
    let launching l :=
      launch engine l (read (Config.headless resolved))
        (read (Config.actionTimeout resolved)) in
    let started l :=
      launching l = Ok tt /\ newContext engine = Ok tt
      /\ firstPage engine = Ok tt in
    let chosen l :=
      (b = Value "chromium" /\ l = Chromium)
      \/ (b = Value "firefox" /\ l = Firefox)
      \/ (b = Value "webkit" /\ l = Webkit) in
    let outcome (init : result State) l :=
      (forall e, launching l = Throw e -> init = Throw e)
      /\ (launching l = Ok tt ->
          forall e, newContext engine = Throw e -> init = Throw e)
      /\ (launching l = Ok tt -> newContext engine = Ok tt ->
          forall e, firstPage engine = Throw e -> init = Throw e)
      /\ ((exists s, init = Ok s) <-> started l)
      /\ (forall s, init = Ok s ->
            Browser.tabs (session s) = [0%nat]
            /\ Browser.currentTab (session s) = 0
            /\ Browser.page (session s) = Some 0%nat
            /\ Browser.config (session s) = resolved
            /\ pages (world s) = [blankPage]
            /\ contextClosed (world s) = false
            /\ browserClosed (world s) = false
            /\ console s = []) in
    (b <> Value "chromium" -> b <> Value "firefox" -> b <> Value "webkit" ->
     PlaywrightBrowser.init config engine
     = Throw (Error ("Browser "
                     ++ match b with Value name => name | _ => "undefined" end
                     ++ " is not supported for playwright")))
    /\ (forall l, chosen l -> outcome (PlaywrightBrowser.init config engine) l)
    /\ (Config.browser config = Absent -> chosen Chromium)
    /\ outcome (PuppeteerBrowser.init config engine) Puppeteer.
Proof.
  intros config engine resolved b launching started chosen outcome.
  assert (Hout : forall l, outcome (start l resolved engine) l).
  { intros l.
    destruct (start_outcome l resolved engine) as (H1 & H2 & H3 & H4).
    unfold outcome, started, launching.
    split; [exact H1|]. split; [exact H2|]. split; [exact H3|]. split.
    - split.
      + intros [s Hs]. apply start_returned in Hs. tauto.
      + intros (Ha & Hb & Hc). eexists. now apply H4.
    - intros s Hs. apply start_returned in Hs.
      destruct Hs as (_ & _ & _ & ->). repeat split. }
  pose proof (launcherOf_chosen b) as Hb.
  split; [|split; [|split]].
  - intros H1 H2 H3. unfold PlaywrightBrowser.init. fold resolved. fold b.
    destruct (PlaywrightBrowser.launcherOf b) as [[| | |]|];
      try contradiction; reflexivity.
  - intros l Hl. unfold PlaywrightBrowser.init. fold resolved. fold b.
    destruct Hl as [[E ->]|[[E ->]|[E ->]]]; rewrite E; apply Hout.
  - intros Habs. left. split; [|reflexivity].
    unfold b, resolved. cbn. now rewrite Habs.
  - apply Hout.
Qed.

(** With the defaults Playwright launches chromium; it refuses opera
    without asking the engine, where Puppeteer starts; and a launch that
    times out is what [init] throws. *)
Lemma playwright_init_accepts_three_browsers_witness :
  PlaywrightBrowser.init Cases.operaConfig Cases.stalled
  = Throw (Error "Browser opera is not supported for playwright")
  /\ (exists s, PlaywrightBrowser.init Sample.noConfig Sample.engine = Ok s)
  /\ PlaywrightBrowser.init Sample.noConfig Cases.stalled
     = Throw (DriverError "Timeout 5000ms exceeded")
  /\ (exists s, PuppeteerBrowser.init Cases.operaConfig Sample.engine = Ok s).
Proof.
  split; [|split; [|split]].
  - apply (proj1 (playwright_init_accepts_three_browsers
                    Cases.operaConfig Cases.stalled)); discriminate.
  - apply (proj1 (proj2 (proj2 (proj2 (proj1 (proj2
             (playwright_init_accepts_three_browsers
                Sample.noConfig Sample.engine)) Chromium
             (or_introl (conj eq_refl eq_refl))))))).
    repeat split.
  - apply (proj1 (proj1 (proj2
             (playwright_init_accepts_three_browsers
                Sample.noConfig Cases.stalled)) Chromium
             (or_introl (conj eq_refl eq_refl)))).
    reflexivity.
  - apply (proj1 (proj2 (proj2 (proj2 (proj2 (proj2 (proj2
             (playwright_init_accepts_three_browsers
                Cases.operaConfig Sample.engine)))))))).
    repeat split.
Defined.

(* ===================================================================== *)
(** ** Opening and closing tabs, composed *)
(* ===================================================================== *)

Lemma splice1_push_last {A} (arr : list A) (x : A) :
  splice1 (push arr x) (JS.length (push arr x) - 1) = arr.
Proof.
  destruct (splice1_removes (push arr x) (JS.length (push arr x) - 1) x
              (get_push_last arr x)) as (l1 & l2 & Heq & Hlen & ->).
  unfold push in Heq. rewrite length_push in Hlen. unfold JS.length in Hlen.
  assert (Hl2 : l2 = []).
  { apply (f_equal (@List.length A)) in Heq.
    rewrite !length_app in Heq. cbn [List.length] in Heq.
    destruct l2; [reflexivity|cbn [List.length] in Heq; lia]. }
  subst l2. apply app_inv_tail in Heq. now rewrite app_nil_r.
Qed.

(** The session a Playwright [openTab] leaves when the context is open,
    whether or not the new tab could be loaded. *)
Lemma playwright_openTab_body_opened (url : option string) (s : State) :
  contextClosed (world s) = false ->
  browserClosed (world s) = false ->
  let newPage := List.length (pages (world s)) in
  let tabs' := push (Browser.tabs (session s)) newPage in
  session (snd (PlaywrightBrowser.openTab_body url s))
  = set_page (Some newPage)
      (set_currentTab (JS.length tabs' - 1) (set_tabs tabs' (session s)))
  /\ contextClosed (world (snd (PlaywrightBrowser.openTab_body url s))) = false
  /\ browserClosed (world (snd (PlaywrightBrowser.openTab_body url s))) = false.
Proof.
  intros Hc Hb newPage tabs'. unfold PlaywrightBrowser.openTab_body.
  cbv beta iota delta
    [bind ret throw this assign getWorld putWorld deref context_newPage].
  cbn [fst snd session world console]. rewrite Hc, Hb. cbn [orb].
  cbn [fst snd session world console].
  destruct url as [u|]; [destruct (truthy_string (Some u))|];
    try (repeat split; read_fields; assumption).
  read_fields. run_M; read_fields; repeat split; assumption.
Qed.

(** What a method leaves and returns, in terms of its operation run from
    a state that differs from the caller's by the logged message only. *)
Lemma method_state {A} (m : string) (o : option actionOptions)
    (operation : M A) (s : State) :
  exists s0,
    session s0 = session s
    /\ world s0 = world s
    /\ session (snd ((r <- policy m o ;; safeRun r operation) s))
       = session (snd (operation s0))
    /\ world (snd ((r <- policy m o ;; safeRun r operation) s))
       = world (snd (operation s0))
    /\ fst ((r <- policy m o ;; safeRun r operation) s)
       = match fst (operation s0) with
         | Ok v => Ok (Some v)
         | Throw e =>
             if truthy (throwOnFail
                          (callOptions m (Browser.actionOptions (session s)) o))
             then Throw e else Ok None
         end.
Proof.
  rewrite method_unfold.
  set (opts := callOptions m (Browser.actionOptions (session s)) o).
  exists (if truthy (log opts)
          then console_log (LogMessage (message opts)) s else s).
  split; [apply session_logged|]. split; [apply world_logged|].
  split; [apply safeRun_session|]. split; [apply safeRun_world|].
  rewrite safeRun_unfold.
  destruct (operation _) as [[v|e] s']; [reflexivity|].
  now destruct (truthy (throwOnFail opts)).
Qed.

Lemma puppeteer_openTab_body_opened (url : option string) (s : State) :
  contextClosed (world s) = false ->
  browserClosed (world s) = false ->
  let tabs' := push (Browser.tabs (session s)) (List.length (pages (world s))) in
  session (snd (PuppeteerBrowser.openTab_body url s))
  = set_currentTab (JS.length tabs' - 1) (set_tabs tabs' (session s)).
Proof.
  intros Hc Hb tabs'. unfold PuppeteerBrowser.openTab_body.
  cbv beta iota delta
    [bind ret throw this assign getWorld putWorld deref context_newPage].
  cbn [fst snd session world console]. rewrite Hc, Hb. cbn [orb].
  cbn [fst snd session world console].
  destruct url as [u|]; [destruct (truthy_string (Some u))|];
    try reflexivity.
  match goal with
  | |- context [PuppeteerBrowser.navigateTo u None ?s1] =>
      pose proof (puppeteer_navigateTo_session u None s1) as Hs;
      destruct (PuppeteerBrowser.navigateTo u None s1) as [[r|e] s2]
  end; cbn [fst snd] in *; exact Hs.
Qed.

(** A navigation closes nothing: the browser and every page stay open or
    closed as they were. *)
Lemma page_goto_keeps (p : Page) (url : string) (s : State) :
  let w' := world (snd (page_goto p url s)) in
  browserClosed w' = browserClosed (world s)
  /\ forall q ps, nth_error (pages (world s)) q = Some ps ->
                  exists ps', nth_error (pages w') q = Some ps'
                              /\ pg_closed ps' = pg_closed ps.
Proof.
  cbv zeta. run_M; read_fields; (split; [reflexivity|]); eauto.
  intros q ps Hq. rewrite nth_error_updateAt.
  destruct (Nat.eqb p q); [|eauto].
  rewrite Hq. cbn. eauto.
Qed.

Lemma puppeteer_navigateTo_keeps (url : string) (o : option actionOptions)
    (s : State) :
  let w' := world (snd (PuppeteerBrowser.navigateTo url o s)) in
  browserClosed w' = browserClosed (world s)
  /\ forall q ps, nth_error (pages (world s)) q = Some ps ->
                  exists ps', nth_error (pages w') q = Some ps'
                              /\ pg_closed ps' = pg_closed ps.
Proof.
  cbv zeta. unfold PuppeteerBrowser.navigateTo.
  rewrite method_unfold, safeRun_world.
  set (s0 := if truthy _ then _ else s).
  assert (Hw : world s0 = world s) by apply world_logged.
  rewrite <- Hw. clearbody s0.
  cbv beta iota delta [bind this deref ret throw].
  destruct (Browser.page (session s0)) as [p|]; [apply page_goto_keeps|].
  cbn [snd]. split; eauto.
Qed.

(** The page that Puppeteer's [openTab] created on an open context is
    open afterwards, and so is the browser. *)
Lemma puppeteer_openTab_body_new_page (url : option string) (s : State) :
  contextClosed (world s) = false ->
  browserClosed (world s) = false ->
  let w' := world (snd (PuppeteerBrowser.openTab_body url s)) in
  browserClosed w' = false
  /\ exists ps, nth_error (pages w') (List.length (pages (world s))) = Some ps
                /\ pg_closed ps = false.
Proof.
  intros Hc Hb. cbv zeta. unfold PuppeteerBrowser.openTab_body.
  cbv beta iota delta
    [bind ret throw this assign getWorld putWorld deref context_newPage].
  cbn [fst snd session world console]. rewrite Hc, Hb. cbn [orb].
  cbn [fst snd session world console].
  match goal with |- context [snd (_ ?s1)] => set (s2 := s1) end.
  assert (H2 : browserClosed (world s2) = false
               /\ nth_error (pages (world s2)) (List.length (pages (world s)))
                  = Some blankPage).
  { unfold s2. read_fields. split; [reflexivity|].
    rewrite nth_error_app2 by lia. now rewrite Nat.sub_diag. }
  clearbody s2. destruct H2 as [Hb2 Hp2].
  destruct url as [u|]; [destruct (truthy_string (Some u))|];
    try (split; [exact Hb2|exists blankPage; split; [exact Hp2|reflexivity]]).
  destruct (puppeteer_navigateTo_keeps u None s2) as [Hkb Hkp].
  destruct (Hkp _ _ Hp2) as (ps' & Hps' & Hcl).
  destruct (PuppeteerBrowser.navigateTo u None s2) as [[r|e] s3];
    cbn [fst snd] in *; (split; [congruence|eauto]).
Qed.

(** X4. In a session whose context and browser are open, [openTab]
    followed by [closeTab] gives back the tab array as it was, whatever
    URL and options the calls got and whether or not the new tab could be
    loaded; the current index is then the last one, whichever tab was
    current before.  Playwright makes that last tab the current page,
    Puppeteer keeps the page it had. *)
Theorem openTab_then_closeTab_restores_the_tabs :
  forall (url : option string) (o1 o2 : option actionOptions) (s : State),
    contextClosed (world s) = false ->
    browserClosed (world s) = false ->
    let tabs := Browser.tabs (session s) in
    let pw := session (snd (PlaywrightBrowser.closeTab o2
                              (snd (PlaywrightBrowser.openTab url o1 s)))) in
    let pp := session (snd (PuppeteerBrowser.closeTab o2
                              (snd (PuppeteerBrowser.openTab url o1 s)))) in
    Browser.tabs pw = tabs
    /\ Browser.currentTab pw = JS.length tabs - 1
    /\ Browser.page pw = get tabs (JS.length tabs - 1)
    /\ Browser.tabs pp = tabs
    /\ Browser.currentTab pp = JS.length tabs - 1
    /\ Browser.page pp = Browser.page (session s).
Proof.
  intros url o1 o2 s Hc Hb tabs pw pp.
  assert (Hpw : pw = set_page (get tabs (JS.length tabs - 1))
                       (set_currentTab (JS.length tabs - 1)
                          (set_tabs tabs (session s)))).
  { unfold pw, PlaywrightBrowser.closeTab, PlaywrightBrowser.openTab.
    destruct (method_state "Opening new tab" o1
                (PlaywrightBrowser.openTab_body url) s)
      as (s0 & Hs0 & Hw0 & Hs1 & Hw1 & _).
    destruct (playwright_openTab_body_opened url s0) as (Hopen & Hc1 & Hb1);
      try (rewrite Hw0; assumption).
    rewrite Hs0, Hw0 in Hopen.
    destruct (method_state "Closing tab" o2 PlaywrightBrowser.closeTab_body
                (snd ((r <- policy "Opening new tab" o1 ;;
                       safeRun r (PlaywrightBrowser.openTab_body url)) s)))
      as (s2 & Hs2 & Hw2 & -> & _).
    rewrite Hs1, Hopen in Hs2.
    rewrite (playwright_closeTab_body_run s2 (List.length (pages (world s)))).
    - read_fields. rewrite Hs2. read_fields.
      fold tabs. rewrite splice1_push_last. reflexivity.
    - now rewrite Hs2.
    - rewrite Hs2. read_fields. unfold push. intros He.
      apply app_eq_nil in He. destruct He. discriminate. }
  assert (Hpp : pp = set_currentTab (JS.length tabs - 1)
                       (set_tabs tabs (session s))).
  { unfold pp, PuppeteerBrowser.closeTab, PuppeteerBrowser.openTab.
    destruct (method_state "Opening new tab" o1
                (PuppeteerBrowser.openTab_body url) s)
      as (s0 & Hs0 & Hw0 & Hs1 & Hw1 & _).
    pose proof (puppeteer_openTab_body_opened url s0) as Hopen.
    rewrite Hs0, Hw0 in Hopen. specialize (Hopen Hc Hb). cbv zeta in Hopen.
    destruct (puppeteer_openTab_body_new_page url s0)
      as (Hb1 & ps & Hps & Hcl); try (rewrite Hw0; assumption).
    rewrite Hw0 in Hps.
    destruct (method_state "Closing tab" o2 PuppeteerBrowser.closeTab_body
                (snd ((r <- policy "Opening new tab" o1 ;;
                       safeRun r (PuppeteerBrowser.openTab_body url)) s)))
      as (s2 & Hs2 & Hw2 & -> & _).
    rewrite Hs1, Hopen in Hs2. rewrite Hw1 in Hw2.
    rewrite (puppeteer_closeTab_body_run s2 (List.length (pages (world s))) ps).
    - read_fields. rewrite Hs2. read_fields.
      fold tabs. rewrite splice1_push_last. reflexivity.
    - rewrite Hs2. read_fields. apply get_push_last.
    - now rewrite Hw2.
    - now rewrite Hw2.
    - exact Hcl. }
  rewrite Hpw, Hpp. repeat split.
Qed.

(** From the middle one of three tabs: the tabs are back, the last one is
    current. *)
Lemma openTab_then_closeTab_restores_the_tabs_witness :
  let s := Cases.threeTabs in
  let s' := snd (PlaywrightBrowser.closeTab None
                   (snd (PlaywrightBrowser.openTab None None s))) in
  Browser.currentTab (session s) = 1
  /\ Browser.tabs (session s') = [0%nat; 1%nat; 2%nat]
  /\ Browser.currentTab (session s') = 2.
Proof.
  intros s s'.
  destruct (openTab_then_closeTab_restores_the_tabs None None None s
              eq_refl eq_refl) as (Ht & Hc & _).
  split; [reflexivity|]. split; [exact Ht|exact Hc].
Defined.

(** X5. [closeTab] on a session whose current index holds the page [p].
    Playwright closes [this.page]: when that is [p], the call succeeds,
    removes exactly the item at that index from the tab array and keeps
    the other tabs in their order; in the world it closes [p] and touches
    no other page.  Puppeteer closes [tabs[currentTab]] and does the same
    when [p] is an open page of an open browser; when [p] is closed
    already or the browser is, its call fails (thrown or swallowed as the
    policy says) and leaves the tab array, the index and every page as
    they were. *)
Theorem closeTab_removes_exactly_the_current_tab :
  forall (o : option actionOptions) (s : State) (p : Page),
    get (Browser.tabs (session s)) (Browser.currentTab (session s)) = Some p ->
    exists before after_,
      Browser.tabs (session s) = (before ++ p :: after_)%list
      /\ Z.of_nat (List.length before) = Browser.currentTab (session s)
      /\ (Browser.page (session s) = Some p ->
          let s' := snd (PlaywrightBrowser.closeTab o s) in
          fst (PlaywrightBrowser.closeTab o s) = Ok (Some tt)
          /\ Browser.tabs (session s') = (before ++ after_)%list
          /\ nth_error (pages (world s')) p
             = option_map closePage (nth_error (pages (world s)) p)
          /\ forall q, q <> p ->
               nth_error (pages (world s')) q = nth_error (pages (world s)) q)
      /\ (forall ps,
            browserClosed (world s) = false ->
            nth_error (pages (world s)) p = Some ps ->
            pg_closed ps = false ->
            let s' := snd (PuppeteerBrowser.closeTab o s) in
            fst (PuppeteerBrowser.closeTab o s) = Ok (Some tt)
            /\ Browser.tabs (session s') = (before ++ after_)%list
            /\ nth_error (pages (world s')) p = Some (closePage ps)
            /\ forall q, q <> p ->
                 nth_error (pages (world s')) q = nth_error (pages (world s)) q)
      /\ (browserClosed (world s) = true
          \/ (forall ps, nth_error (pages (world s)) p = Some ps ->
                         pg_closed ps = true) ->
          let r := PuppeteerBrowser.closeTab o s in
          fst r = (if truthy (throwOnFail
                                (callOptions "Closing tab"
                                   (Browser.actionOptions (session s)) o))
                   then Throw targetClosed else Ok None)
          /\ session (snd r) = session s
          /\ world (snd r) = world s).
Proof.
  intros o s p Hg.
  destruct (splice1_removes _ _ _ Hg) as (l1 & l2 & Heq & Hlen & Hsp).
  exists l1, l2. split; [exact Heq|]. split; [exact Hlen|].
  assert (Hpages : forall w q,
    nth_error (pages (withPages w (updateAt (pages w) p closePage)
                        (contextClosed w) (browserClosed w))) p
    = option_map closePage (nth_error (pages w) p)
    /\ (q <> p ->
        nth_error (pages (withPages w (updateAt (pages w) p closePage)
                            (contextClosed w) (browserClosed w))) q
        = nth_error (pages w) q)).
  { intros w q. cbn [pages withPages]. rewrite !nth_error_updateAt.
    rewrite Nat.eqb_refl. split; [reflexivity|].
    intros Hq. destruct (Nat.eqb_spec p q); [congruence|reflexivity]. }
  split; [|split].
  - intros Hp. cbv zeta. unfold PlaywrightBrowser.closeTab.
    destruct (method_state "Closing tab" o PlaywrightBrowser.closeTab_body s)
      as (s0 & Hs0 & Hw0 & -> & -> & ->).
    rewrite (playwright_closeTab_body_run s0 p).
    + read_fields. cbn [fst]. rewrite Hs0, Hw0, Hsp.
      split; [reflexivity|]. split; [reflexivity|].
      split; [apply (Hpages (world s) p)|intros q; apply Hpages].
    + now rewrite Hs0.
    + rewrite Hs0, Heq. now destruct l1.
  - intros ps Hb Hps Hc. cbv zeta. unfold PuppeteerBrowser.closeTab.
    destruct (method_state "Closing tab" o PuppeteerBrowser.closeTab_body s)
      as (s0 & Hs0 & Hw0 & -> & -> & ->).
    rewrite (puppeteer_closeTab_body_run s0 p ps)
      by (rewrite ?Hs0, ?Hw0; assumption).
    read_fields. cbn [fst]. rewrite Hs0, Hw0, Hsp.
    split; [reflexivity|]. split; [reflexivity|].
    split; [|intros q; apply Hpages].
    pose proof (proj1 (Hpages (world s) p)) as Hcl.
    rewrite Hps in Hcl. exact Hcl.
  - intros Hclosed. cbv zeta. unfold PuppeteerBrowser.closeTab.
    destruct (method_state "Closing tab" o PuppeteerBrowser.closeTab_body s)
      as (s0 & Hs0 & Hw0 & -> & -> & ->).
    rewrite (puppeteer_closeTab_body_closed s0 p)
      by (rewrite ?Hs0, ?Hw0; assumption).
    cbn [fst snd]. now rewrite Hs0, Hw0.
Qed.

(** Closing the middle one of three tabs leaves the outer two.  With two
    tabs, Puppeteer closes the second and keeps the first; once the
    browser is closed its [closeTab] throws and keeps both. *)
Lemma closeTab_removes_exactly_the_current_tab_witness :
  Browser.tabs (session Cases.threeTabs) = [0%nat; 1%nat; 2%nat]
  /\ Browser.tabs (session (snd (PlaywrightBrowser.closeTab None Cases.threeTabs)))
     = [0%nat; 2%nat]
  /\ List.map pg_closed
       (pages (world (snd (PlaywrightBrowser.closeTab None Cases.threeTabs))))
     = [false; true; false]
  /\ fst (PuppeteerBrowser.closeTab None Cases.twoTabs) = Ok (Some tt)
  /\ (let r := PuppeteerBrowser.closeTab None
                 (snd (PuppeteerBrowser.closeBrowser None Cases.twoTabs)) in
      fst r = Throw targetClosed
      /\ Browser.tabs (session (snd r)) = [0%nat; 1%nat]).
Proof.
  destruct (closeTab_removes_exactly_the_current_tab None Cases.threeTabs 1%nat
              eq_refl) as (l1 & l2 & Heq & Hlen & Hpw & _).
  destruct (Hpw eq_refl) as (_ & Ht & _).
  split; [reflexivity|]. split; [|split; [reflexivity|split]].
  - rewrite Ht.
    change (Browser.currentTab (session Cases.threeTabs)) with 1 in Hlen.
    change (Browser.tabs (session Cases.threeTabs))
      with [0%nat; 1%nat; 2%nat] in Heq.
    destruct l1 as [|a [|b l1]]; cbn [List.length] in Hlen; try lia.
    cbn in Heq. injection Heq as <- <-. reflexivity.
  - destruct (closeTab_removes_exactly_the_current_tab None Cases.twoTabs
                1%nat eq_refl) as (m1 & m2 & _ & _ & _ & Hpp & _).
    exact (proj1 (Hpp blankPage eq_refl eq_refl eq_refl)).
  - destruct (closeTab_removes_exactly_the_current_tab None
                (snd (PuppeteerBrowser.closeBrowser None Cases.twoTabs))
                1%nat eq_refl) as (m1 & m2 & _ & _ & _ & _ & Hcl).
    destruct (Hcl (or_introl eq_refl)) as (Hr & Hs & _).
    cbv zeta. split; [exact Hr|]. now rewrite Hs.
Defined.

(** X6. After [openTab], with any URL and options and whether or not the
    new tab could be loaded, every tab that was listed before is still
    reached by its old index: [switchToTab(i)] succeeds for it and makes
    that tab the current page.  This holds for both backends. *)
Theorem earlier_tabs_keep_their_index_after_openTab :
  forall (url : option string) (o1 o2 : option actionOptions) (s : State)
         (i : Z),
    contextClosed (world s) = false ->
    browserClosed (world s) = false ->
    0 <= i <= JS.length (Browser.tabs (session s)) - 1 ->
    let pw := PlaywrightBrowser.switchToTab i o2
                (snd (PlaywrightBrowser.openTab url o1 s)) in
    let pp := PuppeteerBrowser.switchToTab i o2
                (snd (PuppeteerBrowser.openTab url o1 s)) in
    fst pw = Ok (Some tt)
    /\ Browser.currentTab (session (snd pw)) = i
    /\ Browser.page (session (snd pw)) = get (Browser.tabs (session s)) i
    /\ fst pp = Ok (Some tt)
    /\ Browser.currentTab (session (snd pp)) = i
    /\ Browser.page (session (snd pp)) = get (Browser.tabs (session s)) i.
Proof.
  intros url o1 o2 s i Hc Hb Hi pw pp.
  assert (Hswitch : forall s1,
    Browser.tabs (session s1)
    = push (Browser.tabs (session s)) (List.length (pages (world s))) ->
    let r := PlaywrightBrowser.switchToTab i o2 s1 in
    fst r = Ok (Some tt)
    /\ Browser.currentTab (session (snd r)) = i
    /\ Browser.page (session (snd r)) = get (Browser.tabs (session s)) i).
  { intros s1 Ht. cbv zeta. unfold PlaywrightBrowser.switchToTab.
    destruct (method_state ("Switching to tab " ++ string_of_Z i) o2
                (PlaywrightBrowser.switchToTab_body i) s1)
      as (s0 & Hs0 & _ & -> & _ & ->).
    destruct (switchToTab_body_in_range i s0) as (p & Hg & ->).
    { rewrite Hs0, Ht, length_push. lia. }
    read_fields. cbn [fst]. rewrite Hs0, Ht in Hg.
    rewrite get_push_old in Hg by exact Hi.
    repeat split. now rewrite Hg. }
  split; [|split; [|split]].
  1-3: apply Hswitch.
  1-3: unfold PlaywrightBrowser.openTab;
       destruct (method_state "Opening new tab" o1
                   (PlaywrightBrowser.openTab_body url) s)
         as (s0 & Hs0 & Hw0 & -> & _);
       destruct (playwright_openTab_body_opened url s0) as (-> & _);
       try (rewrite Hw0; assumption);
       read_fields; now rewrite Hs0, Hw0.
  change (PuppeteerBrowser.switchToTab i o2)
    with (PlaywrightBrowser.switchToTab i o2) in pp.
  apply Hswitch.
  unfold PuppeteerBrowser.openTab.
  destruct (method_state "Opening new tab" o1
              (PuppeteerBrowser.openTab_body url) s)
    as (s0 & Hs0 & Hw0 & -> & _).
  rewrite puppeteer_openTab_body_opened by (rewrite Hw0; assumption).
  read_fields. now rewrite Hs0, Hw0.
Qed.

Lemma earlier_tabs_keep_their_index_after_openTab_witness :
  let r := PlaywrightBrowser.switchToTab 0 None
             (snd (PlaywrightBrowser.openTab (Some "http://down.test") None
                     Cases.threeTabs)) in
  fst r = Ok (Some tt) /\ Browser.page (session (snd r)) = Some 0%nat.
Proof.
  intros r.
  destruct (earlier_tabs_keep_their_index_after_openTab
              (Some "http://down.test") None None Cases.threeTabs 0
              eq_refl eq_refl) as (Hr & _ & Hp & _).
  - cbn. lia.
  - split; [exact Hr|exact Hp].
Defined.

(* ===================================================================== *)
(** ** The policy of nested calls *)
(* ===================================================================== *)

(** Without options of its own, a call runs under the session's policy:
    a session that does not throw gets a normal return from [navigateTo]. *)
Lemma puppeteer_navigateTo_quiet (u : string) (s : State) :
  truthy (throwOnFail (Browser.actionOptions (session s))) = false ->
  exists r, fst (PuppeteerBrowser.navigateTo u None s) = Ok r.
Proof.
  intros Hquiet. unfold PuppeteerBrowser.navigateTo.
  destruct (method_state "Navigating to ${url}" None
              (b <- this ;;
               page <- deref (Browser.page b) "goto" ;;
               page_goto page u) s) as (s0 & _ & _ & _ & _ & ->).
  cbn [callOptions options]. rewrite Hquiet.
  destruct (fst _); eauto.
Qed.

(** X7. Puppeteer's [openTab] loads the URL through the public
    [navigateTo] without handing on its own options: when the session was
    configured not to throw, [openTab(url, options)] on an open context
    returns normally whatever [options] says, also when the navigation
    fails, and the tab is appended.  Playwright's [openTab] navigates
    inside its own operation: a URL that cannot be loaded makes it throw
    whenever the merged [throwOnFail] of the call is true. *)
Theorem puppeteer_openTab_navigates_under_the_session_policy :
  forall (u : string) (o : option actionOptions) (s : State),
    contextClosed (world s) = false ->
    browserClosed (world s) = false ->
    (truthy (throwOnFail (Browser.actionOptions (session s))) = false ->
     fst (PuppeteerBrowser.openTab (Some u) o s) = Ok (Some tt)
     /\ Browser.tabs (session (snd (PuppeteerBrowser.openTab (Some u) o s)))
        = push (Browser.tabs (session s)) (List.length (pages (world s))))
    /\ (truthy_string (Some u) = true ->
        site (world s) u = None ->
        truthy (throwOnFail (callOptions "Opening new tab"
                               (Browser.actionOptions (session s)) o)) = true ->
        fst (PlaywrightBrowser.openTab (Some u) o s)
        = Throw (DriverError ("Cannot navigate to " ++ u))).
Proof.
  intros u o s Hc Hb. split.
  - intros Hquiet. unfold PuppeteerBrowser.openTab.
    destruct (method_state "Opening new tab" o
                (PuppeteerBrowser.openTab_body (Some u)) s)
      as (s0 & Hs0 & Hw0 & -> & _ & ->).
    rewrite puppeteer_openTab_body_opened by (rewrite Hw0; assumption).
    read_fields. rewrite Hs0, Hw0. split; [|reflexivity].
    replace (fst (PuppeteerBrowser.openTab_body (Some u) s0)) with (@Ok unit tt);
      [reflexivity|].
    unfold PuppeteerBrowser.openTab_body.
    cbv beta iota delta
      [bind ret throw this assign getWorld putWorld deref context_newPage].
    cbn [fst snd session world console]. rewrite Hw0, Hc, Hb. cbn [orb].
    cbn [fst snd session world console].
    destruct (truthy_string (Some u)); [|reflexivity].
    match goal with
    | |- context [PuppeteerBrowser.navigateTo u None ?s1] =>
        destruct (puppeteer_navigateTo_quiet u s1) as [r Hr];
          [read_fields; now rewrite Hs0|];
        destruct (PuppeteerBrowser.navigateTo u None s1) as [[r'|e] s3]
    end; [reflexivity|discriminate].
  - intros Hu Hsite Hthrow. unfold PlaywrightBrowser.openTab.
    destruct (method_state "Opening new tab" o
                (PlaywrightBrowser.openTab_body (Some u)) s)
      as (s0 & Hs0 & Hw0 & _ & _ & ->).
    rewrite Hthrow.
    replace (fst (PlaywrightBrowser.openTab_body (Some u) s0))
      with (@Throw unit (DriverError ("Cannot navigate to " ++ u)));
      [reflexivity|].
    unfold PlaywrightBrowser.openTab_body. step_M.
    rewrite Hw0, Hc, Hb, Hu. cbn [orb]. step_M. read_fields.
    rewrite nth_error_app2 by lia. rewrite Nat.sub_diag. cbn [nth_error].
    cbn [pg_closed blankPage]. read_fields. now rewrite Hsite.
Qed.

(** A session configured to swallow failures opens a tab on a URL that is
    down; the call asks for throwing and still returns. *)
Lemma puppeteer_openTab_navigates_under_the_session_policy_witness :
  site Sample.engine "http://down.test" = None
  /\ fst (PuppeteerBrowser.openTab (Some "http://down.test")
            (Sample.overrides true) (Sample.puppeteer Sample.quietConfig))
     = Ok (Some tt)
  /\ fst (PlaywrightBrowser.openTab (Some "http://down.test")
            (Sample.overrides true) (Sample.playwright Sample.quietConfig))
     = Throw (DriverError "Cannot navigate to http://down.test").
Proof.
  split; [reflexivity|]. split.
  - apply (proj1 (puppeteer_openTab_navigates_under_the_session_policy
                    "http://down.test" (Sample.overrides true)
                    (Sample.puppeteer Sample.quietConfig) eq_refl eq_refl)).
    reflexivity.
  - apply (proj2 (puppeteer_openTab_navigates_under_the_session_policy
                    "http://down.test" (Sample.overrides true)
                    (Sample.playwright Sample.quietConfig) eq_refl eq_refl));
      reflexivity.
Defined.

(* ===================================================================== *)
(** ** After the last tab *)
(* ===================================================================== *)

(** X8. A Playwright session that closes its only tab has no tab and no
    current page.  From then on [getUrl], [navigateTo] and [closeTab]
    fail on the missing page with a [TypeError] (thrown or swallowed as
    the policy of the call says), [switchToTab] fails for every index, and
    [selector], which is not run under the policy, always throws.
    [openTab] still works while the context is open and leaves a session
    with one tab again. *)
Theorem playwright_session_without_tabs :
  forall (o : option actionOptions) (s : State) (p : Page),
    Browser.tabs (session s) = [p] ->
    Browser.currentTab (session s) = 0 ->
    Browser.page (session s) = Some p ->
    let s1 := snd (PlaywrightBrowser.closeTab o s) in
    let failure (A : Type) (member m : string) (o' : option actionOptions)
      : result (option A) :=
      if truthy (throwOnFail
                   (callOptions m (Browser.actionOptions (session s)) o'))
      then Throw (TypeError ("Cannot read properties of undefined (reading '"
                             ++ member ++ "')"))
      else Ok None in
    Browser.tabs (session s1) = []
    /\ Browser.page (session s1) = None
    /\ (forall o', fst (PlaywrightBrowser.getUrl o' s1)
                   = failure string "url" "Getting URL" o')
    /\ (forall url o', fst (PlaywrightBrowser.navigateTo url o' s1)
                       = failure unit "goto" ("Navigating to " ++ url) o')
    /\ (forall o', fst (PlaywrightBrowser.closeTab o' s1)
                   = failure unit "close" "Closing tab" o')
    /\ (forall i o', fst (PlaywrightBrowser.switchToTab i o' s1)
                     <> Ok (Some tt))
    /\ (forall sel, fst (PlaywrightBrowser.selector sel s1)
                    = Throw (TypeError
                        "Cannot read properties of undefined (reading 'locator')"))
    /\ (forall url o',
          contextClosed (world s) = false ->
          browserClosed (world s) = false ->
          Browser.tabs (session (snd (PlaywrightBrowser.openTab url o' s1)))
          = [List.length (pages (world s))]).
Proof.
  intros o s p Ht Hc Hp s1 failure.
  assert (Hs1 : session s1
                = set_page None (set_currentTab (-1) (set_tabs [] (session s)))
                /\ world s1
                   = withPages (world s) (updateAt (pages (world s)) p closePage)
                       (contextClosed (world s)) (browserClosed (world s))).
  { unfold s1, PlaywrightBrowser.closeTab.
    destruct (method_state "Closing tab" o PlaywrightBrowser.closeTab_body s)
      as (s0 & Hs0 & Hw0 & -> & -> & _).
    rewrite (playwright_closeTab_body_run s0 p);
      [|now rewrite Hs0|rewrite Hs0, Ht; discriminate].
    read_fields. now rewrite Hs0, Hw0, Ht, Hc. }
  destruct Hs1 as [Hs1 Hw1]. clearbody s1.
  assert (Hopts : Browser.actionOptions (session s1)
                  = Browser.actionOptions (session s)) by now rewrite Hs1.
  assert (Hpage : forall s0, session s0 = session s1 ->
                             Browser.page (session s0) = None)
    by (intros s0 ->; now rewrite Hs1).
  split; [now rewrite Hs1|]. split; [now rewrite Hs1|].
  split; [|split; [|split; [|split; [|split]]]].
  - intros o'. unfold PlaywrightBrowser.getUrl, failure.
    destruct (method_state "Getting URL" o'
                (b <- this ;; page <- deref (Browser.page b) "url" ;;
                 page_url page) s1) as (s0 & Hs0 & _ & _ & _ & ->).
    rewrite Hopts. step_M. now rewrite (Hpage s0 Hs0).
  - intros url o'. unfold PlaywrightBrowser.navigateTo, failure.
    destruct (method_state ("Navigating to " ++ url) o'
                (b <- this ;; page <- deref (Browser.page b) "goto" ;;
                 page_goto page url) s1) as (s0 & Hs0 & _ & _ & _ & ->).
    rewrite Hopts.
    cbv beta iota delta [bind this deref throw ret]. cbn [fst snd].
    now rewrite (Hpage s0 Hs0).
  - intros o'. unfold PlaywrightBrowser.closeTab, failure.
    destruct (method_state "Closing tab" o' PlaywrightBrowser.closeTab_body s1)
      as (s0 & Hs0 & _ & _ & _ & ->).
    rewrite Hopts. unfold PlaywrightBrowser.closeTab_body.
    cbv beta iota delta [bind this deref throw ret]. cbn [fst snd].
    now rewrite (Hpage s0 Hs0).
  - intros i o'. unfold PlaywrightBrowser.switchToTab.
    destruct (method_state ("Switching to tab " ++ string_of_Z i) o'
                (PlaywrightBrowser.switchToTab_body i) s1)
      as (s0 & Hs0 & _ & _ & _ & ->).
    rewrite switchToTab_body_out_of_range.
    + cbn [fst]. now destruct (truthy _).
    + rewrite Hs0, Hs1. cbn. lia.
  - intros sel. unfold PlaywrightBrowser.selector.
    cbv beta iota delta [bind this deref throw ret]. cbn [fst snd].
    now rewrite (Hpage s1 eq_refl).
  - intros url o' Hcc Hbc. unfold PlaywrightBrowser.openTab.
    destruct (method_state "Opening new tab" o'
                (PlaywrightBrowser.openTab_body url) s1)
      as (s0 & Hs0 & Hw0 & -> & _).
    destruct (playwright_openTab_body_opened url s0) as (-> & _).
    + now rewrite Hw0, Hw1.
    + now rewrite Hw0, Hw1.
    + read_fields. rewrite Hs0, Hw0, Hs1, Hw1. read_fields.
      unfold push. cbn [app].
      f_equal. clear. generalize (pages (world s)) as l. intros l.
      revert p. induction l as [|x l IH]; intros [|p]; cbn; auto.
Qed.

Lemma playwright_session_without_tabs_witness :
  let s1 := snd (PlaywrightBrowser.closeTab None
                   (Sample.playwright Sample.noConfig)) in
  Browser.tabs (session s1) = []
  /\ fst (PlaywrightBrowser.getUrl None s1)
     = Throw (TypeError "Cannot read properties of undefined (reading 'url')")
  /\ Browser.tabs (session (snd (PlaywrightBrowser.openTab None None s1)))
     = [1%nat].
Proof.
  intros s1.
  destruct (playwright_session_without_tabs None
              (Sample.playwright Sample.noConfig) 0%nat
              eq_refl eq_refl eq_refl)
    as (Ht & _ & Hu & _ & _ & _ & _ & Ho).
  split; [exact Ht|]. split; [exact (Hu None)|].
  exact (Ho None None eq_refl eq_refl).
Defined.

(* ===================================================================== *)
(** ** Puppeteer: the index and the page apart *)
(* ===================================================================== *)

(** X9. After Puppeteer's [switchTab(i)] with an index outside the tab
    array, [closeTab] closes nothing: it fails on the missing tab with a
    [TypeError] (thrown or swallowed as its policy says) and leaves the
    tab array, the index [i] and every page as they were. *)
Theorem puppeteer_closeTab_after_stray_switchTab_closes_nothing :
  forall (i : Z) (o o' : option actionOptions) (s : State),
    i < 0 \/ i > JS.length (Browser.tabs (session s)) - 1 ->
    let s1 := snd (PuppeteerBrowser.switchTab i o s) in
    let r := PuppeteerBrowser.closeTab o' s1 in
    fst r = (if truthy (throwOnFail
                          (callOptions "Closing tab"
                             (Browser.actionOptions (session s)) o'))
             then Throw (TypeError
                    "Cannot read properties of undefined (reading 'close')")
             else Ok None)
    /\ Browser.tabs (session (snd r)) = Browser.tabs (session s)
    /\ Browser.currentTab (session (snd r)) = i
    /\ world (snd r) = world s.
Proof.
  intros i o o' s Hi s1 r.
  assert (Hs1 : session s1 = set_currentTab i (session s)
                /\ world s1 = world s).
  { unfold s1, PuppeteerBrowser.switchTab.
    destruct (method_state "Switching tab" o
                (PuppeteerBrowser.switchTab_body i) s)
      as (s0 & Hs0 & Hw0 & -> & -> & _).
    unfold PuppeteerBrowser.switchTab_body, assign. cbn [fst snd session world].
    now rewrite Hs0, Hw0. }
  destruct Hs1 as [Hs1 Hw1]. clearbody s1.
  unfold r, PuppeteerBrowser.closeTab.
  destruct (method_state "Closing tab" o' PuppeteerBrowser.closeTab_body s1)
    as (s0 & Hs0 & Hw0 & -> & -> & ->).
  assert (Hbody : PuppeteerBrowser.closeTab_body s0
                  = (Throw (TypeError
                       "Cannot read properties of undefined (reading 'close')"),
                     s0)).
  { unfold PuppeteerBrowser.closeTab_body.
    cbv beta iota delta [bind this deref throw ret].
    rewrite get_out_of_range; [reflexivity|].
    rewrite Hs0, Hs1. exact Hi. }
  rewrite Hbody. cbn [fst snd]. rewrite Hs0, Hw0, Hs1, Hw1.
  repeat split.
Qed.

Lemma puppeteer_closeTab_after_stray_switchTab_closes_nothing_witness :
  let r := PuppeteerBrowser.closeTab None
             (snd (PuppeteerBrowser.switchTab 5 None
                     (Sample.puppeteer Sample.noConfig))) in
  fst r = Throw (TypeError
                   "Cannot read properties of undefined (reading 'close')")
  /\ Browser.tabs (session (snd r)) = [0%nat].
Proof.
  intros r.
  destruct (puppeteer_closeTab_after_stray_switchTab_closes_nothing
              5 None None (Sample.puppeteer Sample.noConfig))
    as (Hr & Ht & _).
  - right. reflexivity.
  - split; [exact Hr|exact Ht].
Defined.

(** X10. Puppeteer's [closeTab] never re-selects a page.  When the tab at
    the current index is an open page of an open browser and is also the
    current page, the call closes it, takes it off the tab array and
    leaves [this.page] on it: afterwards the current page is a closed
    page that is no longer among the tabs (they being distinct), and
    [navigateTo] fails on it for every URL, whatever tabs are left. *)
Theorem puppeteer_closeTab_leaves_the_closed_page_current :
  forall (o : option actionOptions) (s : State) (p : Page) (ps : PageState),
    get (Browser.tabs (session s)) (Browser.currentTab (session s)) = Some p ->
    Browser.page (session s) = Some p ->
    browserClosed (world s) = false ->
    nth_error (pages (world s)) p = Some ps ->
    pg_closed ps = false ->
    NoDup (Browser.tabs (session s)) ->
    let s1 := snd (PuppeteerBrowser.closeTab o s) in
    Browser.page (session s1) = Some p
    /\ nth_error (pages (world s1)) p = Some (closePage ps)
    /\ ~ In p (Browser.tabs (session s1))
    /\ forall url o',
         fst (PuppeteerBrowser.navigateTo url o' s1)
         = (if truthy (throwOnFail
                         (callOptions "Navigating to ${url}"
                            (Browser.actionOptions (session s)) o'))
            then Throw targetClosed else Ok None).
Proof.
  intros o s p ps Hg Hp Hopen Hps Hlive Hnd s1.
  assert (Hs1 : session s1
                = set_currentTab
                    (JS.length (splice1 (Browser.tabs (session s))
                                  (Browser.currentTab (session s))) - 1)
                    (set_tabs (splice1 (Browser.tabs (session s))
                                 (Browser.currentTab (session s))) (session s))
                /\ world s1
                   = withPages (world s) (updateAt (pages (world s)) p closePage)
                       (contextClosed (world s)) (browserClosed (world s))).
  { unfold s1, PuppeteerBrowser.closeTab.
    destruct (method_state "Closing tab" o PuppeteerBrowser.closeTab_body s)
      as (s0 & Hs0 & Hw0 & -> & -> & _).
    rewrite (puppeteer_closeTab_body_run s0 p ps)
      by (rewrite ?Hs0, ?Hw0; assumption).
    read_fields. now rewrite Hs0, Hw0. }
  destruct Hs1 as [Hs1 Hw1]. clearbody s1.
  assert (Hclosed : nth_error (pages (world s1)) p = Some (closePage ps)).
  { rewrite Hw1. cbn [pages withPages]. rewrite nth_error_updateAt.
    now rewrite Nat.eqb_refl, Hps. }
  split; [now rewrite Hs1|]. split; [exact Hclosed|]. split.
  - rewrite Hs1. read_fields.
    destruct (splice1_removes _ _ _ Hg) as (l1 & l2 & Heq & _ & ->).
    rewrite Heq in Hnd. apply NoDup_remove in Hnd. tauto.
  - intros url o'. unfold PuppeteerBrowser.navigateTo.
    destruct (method_state "Navigating to ${url}" o'
                (b <- this ;; page <- deref (Browser.page b) "goto" ;;
                 page_goto page url) s1) as (s0 & Hs0 & Hw0 & _ & _ & ->).
    replace (Browser.actionOptions (session s1))
      with (Browser.actionOptions (session s)) by now rewrite Hs1.
    replace (fst ((b <- this ;; page <- deref (Browser.page b) "goto" ;;
                   page_goto page url) s0))
      with (@Throw unit targetClosed); [reflexivity|].
    step_M. rewrite Hs0, Hs1. read_fields. rewrite Hp. step_M.
    rewrite Hw0, Hclosed. reflexivity.
Qed.

(** With two tabs, the second one current and selected: after [closeTab]
    the first tab is the only one left and open, yet the page is the
    closed second one. *)
Lemma puppeteer_closeTab_leaves_the_closed_page_current_witness :
  let s1 := snd (PuppeteerBrowser.closeTab None Cases.twoTabs) in
  Browser.tabs (session s1) = [0%nat]
  /\ Browser.page (session s1) = Some 1%nat
  /\ fst (PuppeteerBrowser.navigateTo "https://example.test" None s1)
     = Throw targetClosed.
Proof.
  intros s1.
  destruct (puppeteer_closeTab_leaves_the_closed_page_current None
              Cases.twoTabs 1%nat blankPage eq_refl eq_refl eq_refl eq_refl
              eq_refl)
    as (Hp & _ & _ & Hn).
  - repeat constructor; cbn; intuition discriminate.
  - split; [reflexivity|]. split; [exact Hp|].
    exact (Hn "https://example.test" None).
Defined.

(* ===================================================================== *)
(** ** Playwright elements *)
(* ===================================================================== *)

(** X11. [getCssValue] and [getTagName] of a Playwright element return
    the text ["[object Promise]"] for every element, property, option
    object and state, and whatever the engine would answer: [toString] is
    called on the promise of [getAttribute] before it is awaited. *)
Theorem playwright_getCssValue_and_getTagName_return_the_promise_text :
  forall (locator_getAttribute : Locator -> string -> M (option string))
         (self : PlaywrightSelector.t) (property : string)
         (o : option actionOptions) (s : State),
    fst (PlaywrightReads.getCssValue locator_getAttribute self property o s)
    = Ok (Some "[object Promise]")
    /\ fst (PlaywrightReads.getTagName locator_getAttribute self o s)
       = Ok (Some "[object Promise]").
Proof.
  intros g self property o s.
  unfold PlaywrightReads.getCssValue, PlaywrightReads.getTagName.
  rewrite !safeRun_unfold. split; reflexivity.
Qed.

(** X12. [getLocation] of a Playwright element returns the [x] and [y] of
    the box the engine reports, and fails with the error "Element is not
    visible" when the engine reports none; under a policy that does not
    throw the call then returns [undefined] and logs that error. *)
Theorem playwright_getLocation_needs_a_box :
  forall (Num : Type) (locator_boundingBox : Locator -> M (option (Num * Num)))
         (self : PlaywrightSelector.t) (o : option actionOptions) (s : State),
    let opts := callOptions "Getting location from element"
                  (PlaywrightSelector.actionOptions self) o in
    let s0 := if truthy (log opts)
              then console_log (LogMessage (message opts)) s else s in
    (forall x y s',
        locator_boundingBox (PlaywrightSelector.locator self) s0
        = (Ok (Some (x, y)), s') ->
        PlaywrightReads.getLocation locator_boundingBox self o s
        = (Ok (Some (x, y)), s'))
    /\ (forall s',
          locator_boundingBox (PlaywrightSelector.locator self) s0
          = (Ok None, s') ->
          PlaywrightReads.getLocation locator_boundingBox self o s
          = (if truthy (throwOnFail opts)
             then (Throw (Error "Element is not visible"), s')
             else (Ok None,
                   console_log (LogError (Error "Element is not visible")) s'))).
Proof.
  intros Num bb self o s opts s0. split.
  - intros x y s' H. unfold PlaywrightReads.getLocation.
    rewrite safeRun_unfold. fold opts s0. unfold bind. now rewrite H.
  - intros s' H. unfold PlaywrightReads.getLocation.
    rewrite safeRun_unfold. fold opts s0. unfold bind. rewrite H.
    cbn. now destruct (truthy (throwOnFail opts)).
Qed.

Lemma playwright_getLocation_needs_a_box_witness :
  fst (PlaywrightReads.getLocation Cases.boxAt34 Cases.quietElement None
         (Sample.playwright Sample.quietConfig))
  = Ok (Some (3%nat, 4%nat))
  /\ PlaywrightReads.getLocation Cases.noBox Cases.quietElement None
       (Sample.playwright Sample.quietConfig)
     = (Ok None,
        console_log (LogError (Error "Element is not visible"))
          (Sample.playwright Sample.quietConfig)).
Proof.
  split.
  - rewrite (proj1 (playwright_getLocation_needs_a_box nat Cases.boxAt34
                      Cases.quietElement None
                      (Sample.playwright Sample.quietConfig))
               3%nat 4%nat (Sample.playwright Sample.quietConfig) eq_refl).
    reflexivity.
  - rewrite (proj2 (playwright_getLocation_needs_a_box nat Cases.noBox
                      Cases.quietElement None
                      (Sample.playwright Sample.quietConfig))
               (Sample.playwright Sample.quietConfig) eq_refl).
    reflexivity.
Defined.

(** X13. [forEach], [filter] and [map] of a Playwright element are not
    run under the action policy.  When the engine cannot count the
    matches, each of them throws that failure and logs nothing, also for
    an element configured not to throw, whereas [count] of the same
    element follows the policy.  A failure of the callback on the first
    match is thrown the same way by each of the three. *)
Theorem playwright_collections_bypass_the_policy :
  forall (self : PlaywrightSelector.t) (s : State) (e : error),
    (locatorCount (world s) (PlaywrightSelector.locator self) (pages (world s))
     = Throw e ->
     (forall cb, PlaywrightSelector.forEach self cb s = (Throw e, s))
     /\ (forall cb, PlaywrightSelector.filter self cb s = (Throw e, s))
     /\ (forall T (cb : PlaywrightSelector.t -> nat -> M T),
           PlaywrightSelector.map self cb s = (Throw e, s))
     /\ (forall o,
           fst (PlaywrightSelector.count self o s)
           = if truthy (throwOnFail
                          (callOptions "Counting elements"
                             (PlaywrightSelector.actionOptions self) o))
             then Throw e else Ok None))
    /\ (forall n s',
          locatorCount (world s) (PlaywrightSelector.locator self)
            (pages (world s)) = Ok (S n) ->
          let first := PlaywrightSelector.new
                         (NthLocator (PlaywrightSelector.locator self) 0)
                         (PlaywrightSelector.config self) in
          (forall cb, cb first 0%nat s = (Throw e, s') ->
                      PlaywrightSelector.forEach self cb s = (Throw e, s'))
          /\ (forall cb, cb first 0%nat s = (Throw e, s') ->
                         PlaywrightSelector.filter self cb s = (Throw e, s'))
          /\ (forall T (cb : PlaywrightSelector.t -> nat -> M T),
                cb first 0%nat s = (Throw e, s') ->
                PlaywrightSelector.map self cb s = (Throw e, s'))).
Proof.
  intros self s e. split.
  - intros Hc. split; [|split; [|split]].
    + intros cb. unfold PlaywrightSelector.forEach,
        PlaywrightSelector.locator_count. step_M. now rewrite Hc.
    + intros cb. unfold PlaywrightSelector.filter,
        PlaywrightSelector.locator_count. step_M. now rewrite Hc.
    + intros T cb. unfold PlaywrightSelector.map,
        PlaywrightSelector.locator_count. step_M. now rewrite Hc.
    + intros o. unfold PlaywrightSelector.count. rewrite safeRun_unfold.
      unfold PlaywrightSelector.locator_count. step_M.
      rewrite world_logged, Hc.
      now destruct (truthy (throwOnFail _)).
  - intros n s' Hc first. split; [|split].
    + intros cb Hcb. unfold PlaywrightSelector.forEach,
        PlaywrightSelector.locator_count. step_M. rewrite Hc.
      cbn [forRange]. unfold bind. cbn [Z.of_nat]. fold first.
      now rewrite Hcb.
    + intros cb Hcb. unfold PlaywrightSelector.filter,
        PlaywrightSelector.locator_count. step_M. rewrite Hc.
      cbn [forRange]. unfold bind. cbn [Z.of_nat]. fold first.
      now rewrite Hcb.
    + intros T cb Hcb. unfold PlaywrightSelector.map,
        PlaywrightSelector.locator_count. step_M. rewrite Hc.
      cbn [forRange]. unfold bind. cbn [Z.of_nat]. fold first.
      now rewrite Hcb.
Qed.

(** An element that swallows failures: [count] returns [undefined] where
    [forEach] throws; and a callback that fails on the first of two
    matches makes [filter] and [map] throw. *)
Lemma playwright_collections_bypass_the_policy_witness :
  fst (PlaywrightSelector.count Cases.quietElement None Cases.lostPage)
  = Ok None
  /\ PlaywrightSelector.forEach Cases.quietElement (fun _ _ => ret tt)
       Cases.lostPage
     = (Throw targetClosed, Cases.lostPage)
  /\ PlaywrightSelector.filter Cases.quietElement
       (fun _ _ => throw (Error "no")) Cases.twoMatches
     = (Throw (Error "no"), Cases.twoMatches)
  /\ PlaywrightSelector.map Cases.quietElement
       (fun _ _ => throw (A := nat) (Error "no")) Cases.twoMatches
     = (Throw (Error "no"), Cases.twoMatches).
Proof.
  destruct (proj1 (playwright_collections_bypass_the_policy
                     Cases.quietElement Cases.lostPage targetClosed) eq_refl)
    as (Hf & _ & _ & Hc).
  destruct (proj2 (playwright_collections_bypass_the_policy
                     Cases.quietElement Cases.twoMatches (Error "no"))
              1%nat Cases.twoMatches eq_refl)
    as (_ & Hfilter & Hmap).
  split; [exact (Hc None)|]. split; [exact (Hf (fun _ _ => ret tt))|].
  split; [now apply Hfilter|now apply Hmap].
Defined.

(* ===================================================================== *)
(** ** Puppeteer elements *)
(* ===================================================================== *)

(** Each successful round of [map] adds one item, of [filter] at most one. *)
Lemma forIndexed_grows {A B} (body : A -> nat -> list B -> M (list B))
    (exact : bool) :
  (forall el i acc s acc' s',
      body el i acc s = (Ok acc', s') ->
      if exact then List.length acc' = S (List.length acc)
      else (List.length acc <= List.length acc' <= S (List.length acc))%nat) ->
  forall elements i acc s r s',
    forIndexed elements i body acc s = (Ok r, s') ->
    if exact then List.length r = (List.length acc + List.length elements)%nat
    else (List.length acc <= List.length r
          <= List.length acc + List.length elements)%nat.
Proof.
  intros Hbody elements.
  induction elements as [|el rest IH]; intros i acc s r s' Hrun.
  - cbn in Hrun. injection Hrun as <- _. destruct exact; cbn; lia.
  - cbn [forIndexed] in Hrun. unfold bind in Hrun.
    destruct (body el i acc s) as [[acc'|e] s1] eqn:Hb; [|discriminate].
    specialize (Hbody _ _ _ _ _ _ Hb). specialize (IH _ _ _ _ _ Hrun).
    destruct exact; cbn [List.length]; lia.
Qed.

(** X14. When [map] of a Puppeteer element returns an array, the array
    has exactly one entry per node that matched the selector on the page
    when [map] was called, whatever the callback did to the page or the
    session in between; an array returned by [filter] has at most that
    many.  A partial array is never returned: a callback that fails ends
    the call without one. *)
Theorem puppeteer_map_returns_one_entry_per_match :
  forall (T : Type) (self : PuppeteerSelector.t) (o : option actionOptions)
         (s : State) (ps : PageState),
    nth_error (pages (world s)) (PuppeteerSelector.page self) = Some ps ->
    let n := List.length
               (matching (world s) (PuppeteerSelector.selectorString self)
                  (pg_dom ps)) in
    (forall (cb : PuppeteerSelector.t -> nat -> M T) r s',
        PuppeteerSelector.map self cb o s = (Ok (Some r), s') ->
        List.length r = n)
    /\ (forall (cb : PuppeteerSelector.t -> nat -> M bool) kept s',
          PuppeteerSelector.filter self cb o s = (Ok (Some kept), s') ->
          (List.length kept <= n)%nat).
Proof.
  intros T self o s ps Hps n.
  assert (Hq : forall s0, world s0 = world s ->
    forall elements s1,
      page_queryAll (PuppeteerSelector.page self)
        (PuppeteerSelector.selectorString self) s0 = (Ok elements, s1) ->
      List.length elements = n).
  { intros s0 Hw elements s1 H.
    cbv beta iota delta [page_queryAll bind openPage getWorld ret throw] in H.
    rewrite Hw, Hps in H.
    destruct (pg_closed ps); [discriminate|].
    injection H as <- _. unfold n. now rewrite <- Hw. }
  split.
  - intros cb r s' Hrun.
    unfold PuppeteerSelector.map in Hrun. rewrite safeRun_unfold in Hrun.
    match type of Hrun with
    | context [bind ?c ?k ?s0] =>
        destruct (bind c k s0) as [[r0|e] s1] eqn:Hbody
    end.
    2: { destruct (truthy _) in Hrun; [discriminate|].
         injection Hrun as Hk _. discriminate. }
    injection Hrun as -> ->.
    unfold bind at 1 in Hbody.
    destruct (page_queryAll _ _ _) as [[elements|e] s2] eqn:Hall;
      [|discriminate].
    apply Hq in Hall; [|apply world_logged].
    apply (forIndexed_grows _ true) in Hbody.
    + cbn in Hbody. now rewrite Hbody.
    + intros el i acc s3 acc' s4 Hstep. unfold bind in Hstep.
      destruct (PuppeteerSelector.child self el s3) as [[c|e] s5];
        [|discriminate].
      destruct (cb c i s5) as [[v|e] s6]; [|discriminate].
      injection Hstep as <- _. unfold push. rewrite length_app. cbn. lia.
  - intros cb kept s' Hrun.
    unfold PuppeteerSelector.filter in Hrun. rewrite safeRun_unfold in Hrun.
    match type of Hrun with
    | context [bind ?c ?k ?s0] =>
        destruct (bind c k s0) as [[r0|e] s1] eqn:Hbody
    end.
    2: { destruct (truthy _) in Hrun; [discriminate|].
         injection Hrun as Hk _. discriminate. }
    injection Hrun as -> ->.
    unfold bind at 1 in Hbody.
    destruct (page_queryAll _ _ _) as [[elements|e] s2] eqn:Hall;
      [|discriminate].
    apply Hq in Hall; [|apply world_logged].
    apply (forIndexed_grows _ false) in Hbody.
    + cbn in Hbody. lia.
    + intros el i acc s3 acc' s4 Hstep. unfold bind in Hstep.
      destruct (PuppeteerSelector.child self el s3) as [[c|e] s5];
        [|discriminate].
      destruct (cb c i s5) as [[b|e] s6]; [|discriminate].
      injection Hstep as <- _. destruct b; [|lia].
      unfold push. rewrite length_app. cbn. lia.
Qed.

Lemma puppeteer_map_returns_one_entry_per_match_witness :
  exists r s',
    PuppeteerSelector.map Sample.items
      (fun c _ => PuppeteerSelector.getText c None) None Sample.listPage
    = (Ok (Some r), s')
    /\ List.length r = 2%nat.
Proof.
  eexists. eexists. split; [reflexivity|].
  apply (proj1 (puppeteer_map_returns_one_entry_per_match (option string)
                  Sample.items None Sample.listPage
                  {| pg_url := "https://example.test/list";
                     pg_closed := false;
                     pg_dom := [Sample.item1; Sample.item2; Sample.submit] |}
                  eq_refl)
           (fun c _ => PuppeteerSelector.getText c None) _
           (snd (PuppeteerSelector.map Sample.items
                   (fun c _ => PuppeteerSelector.getText c None) None
                   Sample.listPage))).
  reflexivity.
Defined.

(** A loop whose body, on every item of the array, pushes a value that
    depends on the item only and keeps a property of the state. *)
Lemma forIndexed_push_stable {A B} (P : State -> Prop) (g : A -> B)
    (body : A -> nat -> list B -> M (list B)) (elements : list A) :
  (forall el i acc s, In el elements -> P s ->
      exists s', body el i acc s = (Ok (push acc (g el)), s') /\ P s') ->
  forall i acc s, P s ->
    exists s', forIndexed elements i body acc s
               = (Ok (acc ++ List.map g elements)%list, s') /\ P s'.
Proof.
  intros Hbody.
  assert (H : forall l, incl l elements -> forall i acc s, P s ->
    exists s', forIndexed l i body acc s
               = (Ok (acc ++ List.map g l)%list, s') /\ P s').
  { induction l as [|el rest IH]; intros Hincl i acc s Hs.
    - exists s. cbn. unfold ret. now rewrite app_nil_r.
    - destruct (Hbody el i acc s) as (s1 & Hb & Hs1);
        [apply Hincl; now left|exact Hs|].
      destruct (IH (fun x Hx => Hincl x (or_intror Hx)) (S i)
                  (push acc (g el)) s1 Hs1) as (s2 & Hr & Hs2).
      exists s2. split; [|exact Hs2].
      cbn [forIndexed]. unfold bind. rewrite Hb, Hr. unfold push.
      now rewrite <- app_assoc. }
  apply H, incl_refl.
Qed.

Lemma find_by_nid (dom : list node) (n : node) :
  NoDup (List.map nid dom) -> In n dom ->
  find (fun m => Nat.eqb (nid m) (nid n)) dom = Some n.
Proof.
  induction dom as [|m dom IH]; intros Hnd Hin; [destruct Hin|].
  cbn [List.map] in Hnd. apply NoDup_cons_iff in Hnd.
  destruct Hnd as [Hnot Hnd]. cbn [find].
  destruct Hin as [->|Hin].
  - now rewrite Nat.eqb_refl.
  - destruct (Nat.eqb_spec (nid m) (nid n)) as [E|_]; [|now apply IH].
    exfalso. apply Hnot. rewrite E. now apply in_map.
Qed.

(** X15. Inside [map] (and so [forEach] and [filter]) of a Puppeteer
    element on an open page, what a child reads depends on how the read
    is made.  [getText], which goes through the captured handle, returns
    for each child the text of its own node, in document order (node
    identities being distinct).  [getHTML], which goes through the
    selector, returns the HTML of the first match for every child. *)
Theorem puppeteer_children_read_own_text_but_first_html :
  forall (self : PuppeteerSelector.t) (o : option actionOptions)
         (ps : PageState) (s : State),
    nth_error (pages (world s)) (PuppeteerSelector.page self) = Some ps ->
    pg_closed ps = false ->
    let nodes := filter (matches (world s)
                           (PuppeteerSelector.selectorString self))
                   (pg_dom ps) in
    (NoDup (List.map nid (pg_dom ps)) ->
     fst (PuppeteerSelector.map self
            (fun c _ => PuppeteerSelector.getText c None) o s)
     = Ok (Some (List.map (fun n => Some ("JSHandle:" ++ innerText n)) nodes)))
    /\ (forall first rest,
          nodes = first :: rest ->
          fst (PuppeteerSelector.map self
                 (fun c _ => PuppeteerSelector.getHTML c None) o s)
          = Ok (Some (List.map (fun _ => Some (innerHTML first)) nodes))).
Proof.
  intros self o ps s Hps Hc nodes.
  set (P := fun s0 : State => world s0 = world s).
  assert (Hchild : forall el s0, exists pr,
    PuppeteerSelector.child self el s0
    = (Ok (PuppeteerSelector.new (PuppeteerSelector.PromiseAsLocator pr)
             (PuppeteerSelector.config self) (PuppeteerSelector.Handle el)
             (PuppeteerSelector.page self)
             (PuppeteerSelector.selectorString self)), s0)).
  { intros el s0. unfold PuppeteerSelector.child, bind.
    destruct (page_query_state (PuppeteerSelector.page self)
                (PuppeteerSelector.selectorString self) s0) as [pr ->].
    now exists pr. }
  assert (Hrun : forall (g : ElementHandle -> option string)
                        (read : PuppeteerSelector.t -> M (option string)),
    (forall el acc s0, In el (List.map nid nodes) -> P s0 ->
       exists s',
         (c <- PuppeteerSelector.child self el ;; r <- read c ;;
          ret (push acc r)) s0 = (Ok (push acc (g el)), s') /\ P s') ->
    fst (PuppeteerSelector.map self (fun c _ => read c) o s)
    = Ok (Some (List.map g (List.map nid nodes)))).
  { intros g read Hbody. unfold PuppeteerSelector.map.
    rewrite safeRun_unfold. unfold bind at 1.
    rewrite (page_queryAll_open _ _ ps)
      by (rewrite ?world_logged; assumption).
    rewrite world_logged. fold nodes.
    destruct (forIndexed_push_stable P g
                (fun element i mappedElements =>
                   c <- PuppeteerSelector.child self element ;;
                   r <- read c ;; ret (push mappedElements r))
                (matching (world s) (PuppeteerSelector.selectorString self)
                   (pg_dom ps)))
      with (i := 0%nat) (acc := @nil (option string))
           (s := if truthy (log (callOptions "Mapping elements"
                                   (PuppeteerSelector.actionOptions self) o))
                 then console_log
                        (LogMessage (message
                           (callOptions "Mapping elements"
                              (PuppeteerSelector.actionOptions self) o))) s
                 else s)
      as (s' & -> & _).
    - intros el i acc s0 Hin Hs0. now apply Hbody.
    - apply world_logged.
    - reflexivity. }
  split.
  - intros Hnd.
    rewrite (Hrun (fun h =>
      match find (fun n => Nat.eqb (nid n) h) (pg_dom ps) with
      | Some n => Some ("JSHandle:" ++ innerText n)
      | None => None
      end) (fun c => PuppeteerSelector.getText c None)).
    + f_equal. f_equal. rewrite map_map. apply map_ext_in.
      intros n Hn. rewrite find_by_nid; [reflexivity|exact Hnd|].
      unfold nodes in Hn. apply filter_In in Hn. tauto.
    + intros el acc s0 Hin Hs0. apply in_map_iff in Hin.
      destruct Hin as (n & <- & Hn).
      assert (Hdom : In n (pg_dom ps))
        by (unfold nodes in Hn; apply filter_In in Hn; tauto).
      destruct (Hchild (nid n) s0) as [pr Hch].
      unfold bind at 1. rewrite Hch. unfold bind at 1.
      unfold PuppeteerSelector.getText. rewrite safeRun_unfold.
      cbn [PuppeteerSelector.elementHandle PuppeteerSelector.new
           PuppeteerSelector.page PuppeteerSelector.awaitHandle].
      unfold bind at 1. unfold ret at 1.
      unfold handle_property, bind.
      rewrite (openPage_open _ ps)
        by (rewrite ?world_logged, ?Hs0; assumption).
      rewrite (find_by_nid _ n Hnd Hdom).
      eexists. split; [reflexivity|]. unfold P. now rewrite world_logged.
  - intros first rest Hnodes.
    rewrite (Hrun (fun _ => Some (innerHTML first))
               (fun c => PuppeteerSelector.getHTML c None)).
    + f_equal. f_equal. now rewrite map_map.
    + intros el acc s0 Hin Hs0.
      destruct (Hchild el s0) as [pr Hch].
      unfold bind at 1. rewrite Hch. unfold bind at 1.
      unfold PuppeteerSelector.getHTML. rewrite safeRun_unfold.
      cbn [PuppeteerSelector.selectorString PuppeteerSelector.new
           PuppeteerSelector.page].
      rewrite (page_eval_first _ _ _ ps first rest)
        by (rewrite ?world_logged, ?Hs0; assumption).
      eexists. split; [reflexivity|]. unfold P. now rewrite world_logged.
Qed.

Lemma puppeteer_children_read_own_text_but_first_html_witness :
  fst (PuppeteerSelector.map Sample.items
         (fun c _ => PuppeteerSelector.getText c None) None Sample.listPage)
  = Ok (Some [Some "JSHandle:first"; Some "JSHandle:second"])
  /\ fst (PuppeteerSelector.map Sample.items
            (fun c _ => PuppeteerSelector.getHTML c None) None Sample.listPage)
     = Ok (Some [Some "<b>first</b>"; Some "<b>first</b>"]).
Proof.
  destruct (puppeteer_children_read_own_text_but_first_html
              Sample.items None
              {| pg_url := "https://example.test/list";
                 pg_closed := false;
                 pg_dom := [Sample.item1; Sample.item2; Sample.submit] |}
              Sample.listPage eq_refl eq_refl) as [Ht Hh].
  split.
  - rewrite Ht; [reflexivity|].
    repeat constructor; cbn; intuition discriminate.
  - rewrite (Hh Sample.item1 [Sample.item2] eq_refl). reflexivity.
Defined.

(** X16. The elements that a Puppeteer element hands out (the children
    built for [forEach], [filter] and [map], and what [nth] and [selector]
    return) hold a promise where a locator is expected.  On every one of
    them [click], [fill], [clear], [doubleClick] and [selectOption] fail
    with a [TypeError] before the engine is asked anything, whatever the
    driver would do; the calls throw it or return [undefined] as their
    policy says. *)
Theorem puppeteer_handed_out_elements_cannot_be_clicked :
  forall (d : PuppeteerActions.LocatorDriver) (self : PuppeteerSelector.t)
         (s : State) (c : PuppeteerSelector.t),
    (exists h, fst (PuppeteerSelector.child self h s) = Ok c)
    \/ (exists i, fst (PuppeteerSelector.nth self i s) = Ok c)
    \/ (exists sel, fst (PuppeteerSelector.selector self sel s) = Ok c) ->
    let failure (what m : string) (o : option actionOptions)
      : result (option unit) :=
      if truthy (throwOnFail
                   (callOptions m (PuppeteerSelector.actionOptions c) o))
      then Throw (TypeError ("this.locator." ++ what ++ " is not a function"))
      else Ok None in
    forall (o : option actionOptions) (s' : State),
      fst (PuppeteerActions.click d c o s')
      = failure "click" "Clicking on element" o
      /\ (forall text, fst (PuppeteerActions.fill d c text o s')
                       = failure "fill" ("Filling element with " ++ text) o)
      /\ fst (PuppeteerActions.clear d c o s')
         = failure "fill" "Clearing element" o
      /\ fst (PuppeteerActions.doubleClick d c o s')
         = failure "click" "Double clicking on element" o
      /\ (forall x, fst (PuppeteerActions.selectOption d c x s')
                    = failure "click"
                        ("Selecting option " ++ x ++ " from element") None).
Proof.
  intros d self s c Hc failure o s'.
  assert (Hloc : exists pr, PuppeteerSelector.locator c
                            = PuppeteerSelector.PromiseAsLocator pr).
  { destruct Hc as [[h H]|[[i H]|[sel H]]].
    - unfold PuppeteerSelector.child, bind in H.
      destruct (page_query_state (PuppeteerSelector.page self)
                  (PuppeteerSelector.selectorString self) s) as [pr Hq].
      rewrite Hq in H. injection H as <-. now exists pr.
    - unfold PuppeteerSelector.nth, bind in H.
      destruct (page_query_state (PuppeteerSelector.page self)
                  (PuppeteerSelector.selectorString self) s) as [pr Hq].
      rewrite Hq in H. unfold unawaited, ret in H. cbn in H.
      injection H as <-. now exists pr.
    - unfold PuppeteerSelector.selector, bind in H.
      destruct (page_query_state (PuppeteerSelector.page self)
                  (PuppeteerSelector.selectorString self) s) as [pr Hq].
      rewrite Hq in H.
      destruct (page_query_state (PuppeteerSelector.page self) sel s)
        as [pr' Hq'].
      rewrite Hq' in H. injection H as <-. now exists pr. }
  destruct Hloc as [pr Hloc].
  unfold failure, PuppeteerActions.click, PuppeteerActions.fill,
    PuppeteerActions.clear, PuppeteerActions.doubleClick,
    PuppeteerActions.selectOption.
  repeat split; intros; rewrite safeRun_unfold;
    unfold PuppeteerActions.callClick, PuppeteerActions.callFill;
    rewrite Hloc; cbn; now destruct (truthy _).
Qed.

Lemma puppeteer_handed_out_elements_cannot_be_clicked_witness :
  fst (PuppeteerSelector.child Sample.items 1%nat Sample.listPage)
  = Ok Cases.firstItem
  /\ fst (PuppeteerActions.click Cases.easyDriver Cases.firstItem None
            Sample.listPage)
     = Throw (TypeError "this.locator.click is not a function")
  /\ fst (PuppeteerActions.click Cases.easyDriver Sample.items None
            Sample.listPage)
     = Ok (Some tt).
Proof.
  split; [reflexivity|]. split; [|reflexivity].
  apply (puppeteer_handed_out_elements_cannot_be_clicked Cases.easyDriver
           Sample.items Sample.listPage Cases.firstItem
           (or_introl (ex_intro _ 1%nat eq_refl)) None Sample.listPage).
Defined.

(** X17. [selector] of a Puppeteer element is not scoped to the element:
    on an open page the element it returns carries the new selector alone
    and captures the first node of the whole page that matches it, and
    its [count] is the number of nodes of the whole page that match the
    new selector, whatever the selector of the parent was. *)
Theorem puppeteer_selector_is_not_scoped_to_its_parent :
  forall (self : PuppeteerSelector.t) (sel : string) (ps : PageState)
         (s : State),
    nth_error (pages (world s)) (PuppeteerSelector.page self) = Some ps ->
    pg_closed ps = false ->
    exists c,
      PuppeteerSelector.selector self sel s = (Ok c, s)
      /\ PuppeteerSelector.selectorString c = sel
      /\ PuppeteerSelector.page c = PuppeteerSelector.page self
      /\ PuppeteerSelector.elementHandle c
         = PuppeteerSelector.PromisedHandle
             (Ok (hd_error (matching (world s) sel (pg_dom ps))))
      /\ forall o,
           fst (PuppeteerSelector.count c o s)
           = Ok (Some (List.length (matching (world s) sel (pg_dom ps)))).
Proof.
  intros self sel ps s Hps Hc.
  assert (Hq : forall sel', page_query (PuppeteerSelector.page self) sel' s
    = (Ok (Ok (hd_error (matching (world s) sel' (pg_dom ps)))), s)).
  { intros sel'. unfold page_query, unawaited, bind.
    now rewrite (openPage_open _ ps s Hps Hc). }
  eexists. split.
  - unfold PuppeteerSelector.selector, bind. rewrite !Hq. reflexivity.
  - cbn. repeat split. intros o.
    unfold PuppeteerSelector.count. rewrite safeRun_unfold.
    cbn [PuppeteerSelector.page PuppeteerSelector.selectorString
         PuppeteerSelector.new]. unfold bind.
    rewrite (page_queryAll_open _ _ ps)
      by (rewrite ?world_logged; assumption).
    now rewrite world_logged.
Qed.

(** Below the list items, the selector [button] finds the button that is
    no list item. *)
Lemma puppeteer_selector_is_not_scoped_to_its_parent_witness :
  exists c,
    fst (PuppeteerSelector.selector Sample.items "button" Sample.listPage)
    = Ok c
    /\ fst (PuppeteerSelector.count c None Sample.listPage) = Ok (Some 1%nat).
Proof.
  destruct (puppeteer_selector_is_not_scoped_to_its_parent Sample.items
              "button"
              {| pg_url := "https://example.test/list";
                 pg_closed := false;
                 pg_dom := [Sample.item1; Sample.item2; Sample.submit] |}
              Sample.listPage eq_refl eq_refl) as (c & Hs & _ & _ & _ & Hn).
  exists c. split; [now rewrite Hs|exact (Hn None)].
Defined.

(* ===================================================================== *)
(** ** The resolved configuration *)
(* ===================================================================== *)

(** X18. The configuration a session is built from always has all five
    keys.  A key that the user configuration leaves out takes the library
    default; a key that it sets to [undefined] stays [undefined] instead
    of falling back to the default, and this holds for each of the five
    keys.  So a session built from [{throwOnFail: undefined}] swallows
    failures, one built from [{logs: undefined}] logs no message, one
    built from [{actionTimeout: undefined}] has no timeout, and with
    [{browser: undefined}] Playwright's [init] throws "Browser undefined
    is not supported for playwright" without asking the engine. *)
Theorem configOverrides_keeps_keys_set_to_undefined :
  forall (config : Config.baseConfig),
    let resolved := Config.configOverrides config in
    let sessionOptions := getActionOptionsFromConfig resolved in
    (* every key is there *)
    (Config.browser resolved <> Absent
     /\ Config.headless resolved <> Absent
     /\ Config.actionTimeout resolved <> Absent
     /\ Config.logs resolved <> Absent
     /\ Config.throwOnFail resolved <> Absent)
    (* a key left out takes the default *)
    /\ ((Config.browser config = Absent ->
         Config.browser resolved = Value "chromium")
        /\ (Config.headless config = Absent ->
            Config.headless resolved = Value true)
        /\ (Config.actionTimeout config = Absent ->
            Config.actionTimeout resolved = Value 5000)
        /\ (Config.logs config = Absent -> Config.logs resolved = Value true)
        /\ (Config.throwOnFail config = Absent ->
            Config.throwOnFail resolved = Value true))
    (* a key set to undefined stays undefined *)
    /\ ((Config.browser config = Undefined ->
         Config.browser resolved = Undefined)
        /\ (Config.headless config = Undefined ->
            Config.headless resolved = Undefined)
        /\ (Config.actionTimeout config = Undefined ->
            Config.actionTimeout resolved = Undefined)
        /\ (Config.logs config = Undefined -> Config.logs resolved = Undefined)
        /\ (Config.throwOnFail config = Undefined ->
            Config.throwOnFail resolved = Undefined))
    (* what that does to a session *)
    /\ (Config.throwOnFail config = Undefined ->
        truthy (throwOnFail sessionOptions) = false)
    /\ (Config.logs config = Undefined -> truthy (log sessionOptions) = false)
    /\ (Config.actionTimeout config = Undefined ->
        timeout sessionOptions = Undefined)
    /\ (Config.browser config = Undefined ->
        forall engine,
          PlaywrightBrowser.init config engine
          = Throw (Error "Browser undefined is not supported for playwright")).
Proof.
  intros [b h t l f]. cbv zeta.
  unfold PlaywrightBrowser.init, Config.configOverrides. cbn.
  repeat split; try (intros ->; reflexivity).
  - now destruct b.
  - now destruct h.
  - now destruct t.
  - now destruct l.
  - now destruct f.
Qed.

(** A user configuration that sets every key to [undefined]. *)
Lemma configOverrides_keeps_keys_set_to_undefined_witness :
  let config := {| Config.browser := Undefined; Config.headless := Undefined;
                   Config.actionTimeout := Undefined; Config.logs := Undefined;
                   Config.throwOnFail := Undefined |} in
  Config.configOverrides config = config
  /\ truthy (throwOnFail (getActionOptionsFromConfig
                            (Config.configOverrides config))) = false
  /\ PlaywrightBrowser.init config Sample.engine
     = Throw (Error "Browser undefined is not supported for playwright")
  /\ Config.throwOnFail (Config.configOverrides Sample.noConfig) = Value true.
Proof.
  intros config.
  destruct (configOverrides_keeps_keys_set_to_undefined config)
    as (_ & _ & (Hb & Hh & Ht & Hl & Hf) & Hthrow & _ & _ & Hinit).
  split; [|split; [|split]].
  - specialize (Hb eq_refl). specialize (Hh eq_refl). specialize (Ht eq_refl).
    specialize (Hl eq_refl). specialize (Hf eq_refl).
    destruct (Config.configOverrides config) as [b h t l f].
    cbn in Hb, Hh, Ht, Hl, Hf. now subst.
  - exact (Hthrow eq_refl).
  - exact (Hinit eq_refl Sample.engine).
  - apply (configOverrides_keeps_keys_set_to_undefined Sample.noConfig).
    reflexivity.
Defined.

(* ===================================================================== *)
(** ** Closing the browser *)
(* ===================================================================== *)

(** X19. [closeBrowser] of either backend succeeds and releases the
    context and the browser, closing every page, but leaves the session
    object alone: the tab array, the index and the current page are as
    before.  A later [openTab] fails on the closed context (thrown or
    swallowed as its policy says) and appends nothing. *)
Theorem closeBrowser_releases_but_keeps_the_tabs :
  forall (o : option actionOptions) (s : State),
    let pw := snd (PlaywrightBrowser.closeBrowser o s) in
    let pp := snd (PuppeteerBrowser.closeBrowser o s) in
    fst (PlaywrightBrowser.closeBrowser o s) = Ok (Some tt)
    /\ fst (PuppeteerBrowser.closeBrowser o s) = Ok (Some tt)
    /\ session pw = session s
    /\ session pp = session s
    /\ world pw = withPages (world s) (List.map closePage (pages (world s)))
                    true true
    /\ world pp = world pw
    /\ (forall url o',
          fst (PlaywrightBrowser.openTab url o' pw)
          = (if truthy (throwOnFail
                          (callOptions "Opening new tab"
                             (Browser.actionOptions (session s)) o'))
             then Throw targetClosed else Ok None)
          /\ session (snd (PlaywrightBrowser.openTab url o' pw)) = session s)
    /\ (forall url o',
          fst (PuppeteerBrowser.openTab url o' pp)
          = (if truthy (throwOnFail
                          (callOptions "Opening new tab"
                             (Browser.actionOptions (session s)) o'))
             then Throw targetClosed else Ok None)
          /\ session (snd (PuppeteerBrowser.openTab url o' pp)) = session s).
Proof.
  intros o s pw pp.
  assert (Hpw : fst (PlaywrightBrowser.closeBrowser o s) = Ok (Some tt)
                /\ session pw = session s
                /\ world pw = withPages (world s)
                                (List.map closePage (pages (world s))) true true).
  { unfold pw, PlaywrightBrowser.closeBrowser.
    destruct (method_state "Closing browser" o browser_close s)
      as (s0 & Hs0 & Hw0 & -> & -> & ->).
    unfold browser_close, bind, getWorld, putWorld.
    cbn [fst snd session world]. now rewrite Hs0, Hw0. }
  assert (Hpp : fst (PuppeteerBrowser.closeBrowser o s) = Ok (Some tt)
                /\ session pp = session s
                /\ world pp = withPages (world s)
                                (List.map closePage (pages (world s))) true true).
  { unfold pp, PuppeteerBrowser.closeBrowser.
    destruct (method_state "Closing browser" o browser_close s)
      as (s0 & Hs0 & Hw0 & -> & -> & ->).
    unfold browser_close, bind, getWorld, putWorld.
    cbn [fst snd session world]. now rewrite Hs0, Hw0. }
  destruct Hpw as (Hr1 & Hs1 & Hw1). destruct Hpp as (Hr2 & Hs2 & Hw2).
  clearbody pw pp.
  split; [exact Hr1|]. split; [exact Hr2|]. split; [exact Hs1|].
  split; [exact Hs2|]. split; [exact Hw1|]. split; [congruence|].
  split.
  - intros url o'. unfold PlaywrightBrowser.openTab.
    destruct (method_state "Opening new tab" o'
                (PlaywrightBrowser.openTab_body url) pw)
      as (s0 & Hs0 & Hw0 & -> & _ & ->).
    assert (Hbody : PlaywrightBrowser.openTab_body url s0
                    = (Throw targetClosed, s0)).
    { unfold PlaywrightBrowser.openTab_body.
      cbv beta iota delta [bind getWorld context_newPage throw].
      cbn [fst snd]. now rewrite Hw0, Hw1. }
    rewrite Hbody. cbn [fst snd]. now rewrite Hs0, Hs1.
  - intros url o'. unfold PuppeteerBrowser.openTab.
    destruct (method_state "Opening new tab" o'
                (PuppeteerBrowser.openTab_body url) pp)
      as (s0 & Hs0 & Hw0 & -> & _ & ->).
    assert (Hbody : PuppeteerBrowser.openTab_body url s0
                    = (Throw targetClosed, s0)).
    { unfold PuppeteerBrowser.openTab_body.
      cbv beta iota delta [bind getWorld context_newPage throw].
      cbn [fst snd]. now rewrite Hw0, Hw2. }
    rewrite Hbody. cbn [fst snd]. now rewrite Hs0, Hs2.
Qed.

(* ===================================================================== *)
(** ** Alerts *)
(* ===================================================================== *)

(** A method that awaits [safeRun] and returns nothing. *)
Lemma dropped_unfold {A} (m : string) (o : option actionOptions)
    (operation : M A) (s : State) :
  (r <- policy m o ;; _ <- safeRun r operation ;; ret tt) s
  = let opts := callOptions m (Browser.actionOptions (session s)) o in
    match operation (if truthy (log opts)
                     then console_log (LogMessage m) s else s) with
    | (Ok _, s') => (Ok tt, s')
    | (Throw e, s') =>
        if truthy (throwOnFail opts) then (Throw e, s')
        else (Ok tt, console_log (LogError e) s')
    end.
Proof.
  cbv beta iota delta [bind policy this ret]. rewrite safeRun_unfold.
  cbv zeta. cbn [message callOptions].
  destruct (operation _) as [[v|e] s']; [reflexivity|].
  now destruct (truthy _).
Qed.

(** On an open current page the wait of Puppeteer ends as the race does,
    and leaves the state alone. *)
Lemma puppeteer_waitForEvent_run (listen : Page -> string -> Z -> raced)
    (name : string) (seconds : option Z) (s : State) (page : Page)
    (ps : PageState) :
  Browser.page (session s) = Some page ->
  nth_error (pages (world s)) page = Some ps ->
  pg_closed ps = false ->
  PuppeteerAlert.waitForEvent listen name seconds s
  = match listen page name (PuppeteerAlert.orDefault seconds * 1000) with
    | ListenerFirst => (Ok JSTrue, s)
    | TimerFirst => (Ok JSUndefined, s)
    | EvaluateRejected e => (Throw e, s)
    end.
Proof.
  intros Hp Hps Hc. unfold PuppeteerAlert.waitForEvent.
  unfold bind at 1. unfold this at 1. rewrite Hp.
  unfold bind at 1. unfold deref, ret at 1.
  unfold bind. rewrite (openPage_open page ps s Hps Hc).
  now destruct (listen page name _).
Qed.

(** What follows the wait in every alert operation of Puppeteer: a member
    call on what the race resolved with. *)
Lemma puppeteer_alert_operation {A} (listen : Page -> string -> Z -> raced)
    (member : string) (s : State) (page : Page) (ps : PageState) :
  Browser.page (session s) = Some page ->
  nth_error (pages (world s)) page = Some ps ->
  pg_closed ps = false ->
  (alert <- PuppeteerAlert.waitForEvent listen "dialog" None ;;
   PuppeteerAlert.callMember (A := A) alert member) s
  = (Throw match listen page "dialog" 30000 with
           | ListenerFirst =>
               TypeError ("alert." ++ member ++ " is not a function")
           | TimerFirst =>
               TypeError ("Cannot read properties of undefined (reading '"
                          ++ member ++ "')")
           | EvaluateRejected e => e
           end, s).
Proof.
  intros Hp Hps Hc. unfold bind at 1.
  rewrite (puppeteer_waitForEvent_run listen "dialog" None s page ps Hp Hps Hc).
  change (PuppeteerAlert.orDefault None * 1000) with 30000.
  now destruct (listen page "dialog" 30000).
Qed.

(** C9. What the alert operations do while no dialog shows up.  On an
    open current page Puppeteer's [waitForEvent(name, seconds)] races the
    listener against a timer of [(seconds || 30) * 1000] milliseconds, so
    of 30 seconds when [seconds] is missing or [0], and resolves without
    an error and without touching the state: to [undefined] when the
    timer wins, to [true] when the listener does.  Each of [accept],
    [dismiss], [getText] and [sendKeys] then calls a method of a dialog on
    that value, which has none: when the wait timed out the operation
    fails with "Cannot read properties of undefined", when the event fired
    with "alert.accept is not a function" (and the like), and the call
    throws that error when the merged [throwOnFail] is true and logs it
    otherwise.  Playwright's operations await [page.waitForEvent] with no
    timeout and no fallback of their own: the error the engine ends its
    wait with is the failure of the operation, thrown or logged the same
    way. *)
Theorem alert_operations_fail_when_no_dialog_fires :
  forall (listen : Page -> string -> Z -> raced) (o : option actionOptions)
         (s : State) (page : Page) (ps : PageState),
    Browser.page (session s) = Some page ->
    nth_error (pages (world s)) page = Some ps ->
    pg_closed ps = false ->
    let merged m := callOptions m (Browser.actionOptions (session s)) o in
    let logged m := if truthy (log (merged m))
                    then console_log (LogMessage m) s else s in
    let failed (A : Type) (m : string) (e : error) (undefined : A)
      : result A * State :=
      if truthy (throwOnFail (merged m)) then (Throw e, logged m)
      else (Ok undefined, console_log (LogError e) (logged m)) in
    let puppeteer (e : string -> error) :=
      PuppeteerAlert.accept listen o s
      = failed unit "Accepting alert" (e "accept") tt
      /\ PuppeteerAlert.dismiss listen o s
         = failed unit "Dismissing alert" (e "dismiss") tt
      /\ PuppeteerAlert.getText listen o s
         = failed (option string) "Getting alert text" (e "message") None
      /\ (forall keys,
            PuppeteerAlert.sendKeys listen keys o s
            = failed unit "Sending keys to alert" (e "accept") tt) in
    (* the bound of the wait *)
    (forall name,
        PuppeteerAlert.waitForEvent listen name None s
        = PuppeteerAlert.waitForEvent listen name (Some 30) s
        /\ PuppeteerAlert.waitForEvent listen name (Some 0) s
           = PuppeteerAlert.waitForEvent listen name (Some 30) s)
    (* how the wait ends *)
    /\ (forall name seconds,
          seconds <> 0 ->
          (listen page name (seconds * 1000) = TimerFirst ->
           PuppeteerAlert.waitForEvent listen name (Some seconds) s
           = (Ok JSUndefined, s))
          /\ (listen page name (seconds * 1000) = ListenerFirst ->
              PuppeteerAlert.waitForEvent listen name (Some seconds) s
              = (Ok JSTrue, s)))
    (* the operations of Puppeteer *)
    /\ (listen page "dialog" 30000 = TimerFirst ->
        puppeteer (fun member =>
          TypeError ("Cannot read properties of undefined (reading '"
                     ++ member ++ "')")))
    /\ (listen page "dialog" 30000 = ListenerFirst ->
        puppeteer (fun member =>
          TypeError ("alert." ++ member ++ " is not a function")))
    (* the operations of Playwright *)
    /\ (forall (Dialog : Type) (d : PlaywrightAlert.DialogDriver Dialog)
               (e : error),
          (forall s0, PlaywrightAlert.page_waitForEvent d page "dialog" s0
                      = (Throw e, s0)) ->
          PlaywrightAlert.accept d o s = failed unit "Accepting alert" e tt
          /\ PlaywrightAlert.dismiss d o s
             = failed unit "Dismissing alert" e tt
          /\ PlaywrightAlert.getText d o s
             = failed (option string) "Getting alert text" e None
          /\ (forall keys,
                PlaywrightAlert.sendKeys d keys o s
                = failed unit "Sending keys to alert" e tt)).
Proof.
  intros listen o s page ps Hp Hps Hc merged logged failed puppeteer.
  assert (Hlog : forall m,
    Browser.page (session (logged m)) = Some page
    /\ nth_error (pages (world (logged m))) page = Some ps).
  { intros m. unfold logged. now rewrite session_logged, world_logged. }
  assert (Hops : forall e,
    (forall A member m,
       (alert <- PuppeteerAlert.waitForEvent listen "dialog" None ;;
        PuppeteerAlert.callMember (A := A) alert member) (logged m)
       = (Throw (e member), logged m)) ->
    puppeteer e).
  { intros e He. unfold puppeteer, failed.
    unfold PuppeteerAlert.accept, PuppeteerAlert.dismiss,
      PuppeteerAlert.getText, PuppeteerAlert.sendKeys.
    rewrite !dropped_unfold, method_unfold, safeRun_unfold. cbv zeta.
    fold (merged "Accepting alert") (merged "Dismissing alert")
      (merged "Getting alert text").
    change (message (merged "Getting alert text")) with "Getting alert text".
    fold (logged "Accepting alert") (logged "Dismissing alert")
      (logged "Getting alert text").
    rewrite !He.
    split; [reflexivity|]. split; [reflexivity|]. split; [reflexivity|].
    intros keys. rewrite ?dropped_unfold. cbv zeta.
    fold (merged "Sending keys to alert"). fold (logged "Sending keys to alert").
    now rewrite He. }
  split; [|split; [|split; [|split]]].
  - intros name. split; reflexivity.
  - intros name seconds Hs.
    rewrite (puppeteer_waitForEvent_run listen name (Some seconds) s page ps
               Hp Hps Hc).
    unfold PuppeteerAlert.orDefault.
    destruct (Z.eqb_spec seconds 0) as [|_]; [contradiction|].
    split; now intros ->.
  - intros Hrace. apply Hops. intros A member m.
    destruct (Hlog m) as [Hp' Hps'].
    rewrite (puppeteer_alert_operation listen member (logged m) page ps
               Hp' Hps' Hc).
    now rewrite Hrace.
  - intros Hrace. apply Hops. intros A member m.
    destruct (Hlog m) as [Hp' Hps'].
    rewrite (puppeteer_alert_operation listen member (logged m) page ps
               Hp' Hps' Hc).
    now rewrite Hrace.
  - intros Dialog d e He.
    assert (Hnext : forall A (k : Dialog -> M A) m,
      (alert <- PlaywrightAlert.nextDialog d ;; k alert) (logged m)
      = (Throw e, logged m)).
    { intros A k m. destruct (Hlog m) as [Hp' _].
      unfold PlaywrightAlert.nextDialog.
      cbv beta iota delta [bind this deref ret]. rewrite Hp'.
      now rewrite He. }
    unfold failed, PlaywrightAlert.accept, PlaywrightAlert.dismiss,
      PlaywrightAlert.getText, PlaywrightAlert.sendKeys.
    rewrite !dropped_unfold, method_unfold, safeRun_unfold. cbv zeta.
    fold (merged "Accepting alert") (merged "Dismissing alert")
      (merged "Getting alert text").
    change (message (merged "Getting alert text")) with "Getting alert text".
    fold (logged "Accepting alert") (logged "Dismissing alert")
      (logged "Getting alert text").
    rewrite !Hnext.
    split; [reflexivity|]. split; [reflexivity|]. split; [reflexivity|].
    intros keys. rewrite ?dropped_unfold. cbv zeta.
    fold (merged "Sending keys to alert"). fold (logged "Sending keys to alert").
    now rewrite Hnext.
Qed.

(** A fresh session with the default configuration, no dialog in sight:
    Puppeteer's wait resolves to [undefined] and [accept] throws a
    [TypeError]; Playwright's [accept] throws the timeout of the engine. *)
Lemma alert_operations_fail_when_no_dialog_fires_witness :
  PuppeteerAlert.waitForEvent Cases.noDialog "dialog" (Some 30)
    (Sample.puppeteer Sample.noConfig)
  = (Ok JSUndefined, Sample.puppeteer Sample.noConfig)
  /\ fst (PuppeteerAlert.accept Cases.noDialog None
            (Sample.puppeteer Sample.noConfig))
     = Throw (TypeError
                "Cannot read properties of undefined (reading 'accept')")
  /\ fst (PuppeteerAlert.accept Cases.dialogAtOnce None
            (Sample.puppeteer Sample.noConfig))
     = Throw (TypeError "alert.accept is not a function")
  /\ fst (PlaywrightAlert.accept Cases.timingOut None
            (Sample.playwright Sample.noConfig))
     = Throw (DriverError "Timeout 30000ms exceeded while waiting for event").
Proof.
  split; [|split; [|split]].
  - apply (proj1 (proj2 (alert_operations_fail_when_no_dialog_fires
             Cases.noDialog None (Sample.puppeteer Sample.noConfig)
             0%nat blankPage eq_refl eq_refl eq_refl)) "dialog" 30).
    + discriminate.
    + reflexivity.
  - rewrite (proj1 (proj1 (proj2 (proj2
             (alert_operations_fail_when_no_dialog_fires
                Cases.noDialog None (Sample.puppeteer Sample.noConfig)
                0%nat blankPage eq_refl eq_refl eq_refl))) eq_refl)).
    reflexivity.
  - rewrite (proj1 (proj1 (proj2 (proj2 (proj2
             (alert_operations_fail_when_no_dialog_fires
                Cases.dialogAtOnce None (Sample.puppeteer Sample.noConfig)
                0%nat blankPage eq_refl eq_refl eq_refl)))) eq_refl)).
    reflexivity.
  - rewrite (proj1 (proj2 (proj2 (proj2 (proj2
             (alert_operations_fail_when_no_dialog_fires
                Cases.noDialog None (Sample.playwright Sample.noConfig)
                0%nat blankPage eq_refl eq_refl eq_refl))))
             unit Cases.timingOut
             (DriverError "Timeout 30000ms exceeded while waiting for event")
             (fun s0 => eq_refl))).
    reflexivity.
Defined.
